(** * Syntra Python SDK: trace-context codec, spans, tracer, scope, transport

    A shallow embedding of the core of [packages/sdk-python/syntra] and the
    properties its specification states about it.

    Conventions of the embedding.
    - A Python [str] is a [string]; a character is a code point below 256.
    - A Python [int] is a [Z].
    - [None] is [None] of an [option]; an exception is an explicit error
      result.
    - Objects that are shared and mutated live in a heap and are named by
      their index in it.
    - Clocks and random sources are inputs of the operations that read them. *)

From Stdlib Require Import ZArith Lia Bool List Ascii String QArith.
From stdpp Require Import base option list gmap strings fin_maps.

Local Open Scope string_scope.
Local Open Scope list_scope.
Local Open Scope Z_scope.

(** ** Python built-ins used by the SDK *)

Module Py.

Definition code (c : ascii) : Z := Z.of_N (N_of_ascii c).

Definition in_range (lo hi : Z) (c : ascii) : bool :=
  (lo <=? code c) && (code c <=? hi).

(** [str.isspace] on one character: the characters [str.strip()] removes. *)
Definition is_space (c : ascii) : bool :=
  in_range 9 13 c || in_range 28 32 c || (code c =? 133) || (code c =? 160).

(** Whitespace as [int(str, base)] sees it: a string is first normalised
    (any non-ASCII space becomes [' ']) and then scanned with the C locale
    [isspace], for which the separators 28..31 are not spaces. *)
Definition is_int_space (c : ascii) : bool :=
  in_range 9 13 c || (code c =? 32) || (code c =? 133) || (code c =? 160).

Definition is_digit (c : ascii) : bool := in_range 48 57 c.
Definition is_lower_af (c : ascii) : bool := in_range 97 102 c.
Definition is_upper_af (c : ascii) : bool := in_range 65 70 c.

(** The character class [[0-9a-f]] under [re.IGNORECASE]. *)
Definition is_hex (c : ascii) : bool :=
  is_digit c || is_lower_af c || is_upper_af c.

(** The character class [[0-9a-f]] without a flag. *)
Definition is_lower_hex (c : ascii) : bool := is_digit c || is_lower_af c.

(** Value of a base-16 digit. *)
Definition hex_val (c : ascii) : option Z :=
  if is_digit c then Some (code c - 48)
  else if is_lower_af c then Some (code c - 87)
  else if is_upper_af c then Some (code c - 55)
  else None.

Definition ascii_of_code (z : Z) : ascii := ascii_of_N (Z.to_N z).

(** The digit character the ["x"] format type prints for [0 <= d < 16]. *)
Definition hex_char (d : Z) : ascii :=
  if d <? 10 then ascii_of_code (48 + d) else ascii_of_code (87 + d).

(** [str.lower] on one character (code points below 256). *)
Definition lower_char (c : ascii) : ascii :=
  if in_range 65 90 c then ascii_of_code (code c + 32)
  else if in_range 192 222 c && negb (code c =? 215)
       then ascii_of_code (code c + 32)
  else c.

Fixpoint lower (s : string) : string :=
  match s with
  | EmptyString => EmptyString
  | String c r => String (lower_char c) (lower r)
  end.

Fixpoint all_chars (p : ascii -> bool) (s : string) : bool :=
  match s with
  | EmptyString => true
  | String c r => p c && all_chars p r
  end.

Fixpoint lstrip (s : string) : string :=
  match s with
  | EmptyString => EmptyString
  | String c r => if is_space c then lstrip r else s
  end.

Fixpoint rstrip (s : string) : string :=
  match s with
  | EmptyString => EmptyString
  | String c r =>
      match rstrip r with
      | EmptyString => if is_space c then EmptyString else String c EmptyString
      | r' => String c r'
      end
  end.

(** [s.strip()] *)
Definition strip (s : string) : string := rstrip (lstrip s).

(** [s.split(sep)] for a one-character separator. *)
Fixpoint split (sep : ascii) (s : string) : list string :=
  match s with
  | EmptyString => [EmptyString]
  | String c r =>
      if Ascii.eqb c sep then EmptyString :: split sep r
      else match split sep r with
           | f :: fs => String c f :: fs
           | [] => [String c EmptyString]
           end
  end.

(** [c * n] for a one-character string [c]. *)
Fixpoint repeat_char (c : ascii) (n : nat) : string :=
  match n with
  | O => EmptyString
  | S k => String c (repeat_char c k)
  end.

(** [re.match(r"^[0-9a-f]{n}$", s, re.IGNORECASE)] as a truth value.
    Without [re.MULTILINE], [$] matches at the end of the string and also
    just before a line feed that is the last character. *)
Fixpoint re_match_hex (n : nat) (s : string) : bool :=
  match n, s with
  | O, EmptyString => true
  | O, String c EmptyString => code c =? 10
  | O, _ => false
  | S k, String c r => is_hex c && re_match_hex k r
  | S _, EmptyString => false
  end.

(** The digit scan of [int(s, 16)]: digits of value below 16 and single
    underscores between them.  [prev] tells whether the previous character
    was an underscore; the result is the value, the number of digits and
    the unread rest. *)
Fixpoint scan_hex (s : string) (prev : bool) (acc : Z) (nd : nat)
  : option (Z * nat * string) :=
  match s with
  | EmptyString => if prev then None else Some (acc, nd, EmptyString)
  | String c r =>
      if code c =? 95 then
        if prev then None else scan_hex r true acc nd
      else match hex_val c with
           | Some d => scan_hex r false (16 * acc + d) (S nd)
           | None => if prev then None else Some (acc, nd, s)
           end
  end.

Fixpoint skip_int_space (s : string) : string :=
  match s with
  | EmptyString => EmptyString
  | String c r => if is_int_space c then skip_int_space r else s
  end.

(** [int(s, 16)]; [None] stands for [ValueError]. *)
Definition int16 (s : string) : option Z :=
  let s1 := skip_int_space s in
  let '(neg, s2) :=
    match s1 with
    | String c r =>
        if code c =? 43 then (false, r)
        else if code c =? 45 then (true, r)
        else (false, s1)
    | EmptyString => (false, s1)
    end in
  let s3 :=
    match s2 with
    | String c0 (String c1 r) =>
        if (code c0 =? 48) && ((code c1 =? 120) || (code c1 =? 88)) then
          match r with
          | String c2 r' => if code c2 =? 95 then r' else r
          | EmptyString => r
          end
        else s2
    | _ => s2
    end in
  match s3 with
  | String c _ =>
      if code c =? 95 then None
      else match scan_hex s3 false 0 O with
           | Some (v, S _, rest) =>
               match skip_int_space rest with
               | EmptyString => Some (if neg then - v else v)
               | _ => None
               end
           | _ => None
           end
  | EmptyString => None
  end.

(** Base-16 digits of a non-negative integer, most significant first. *)
Fixpoint hex_digits (fuel : nat) (n : Z) (acc : string) : string :=
  match fuel with
  | O => acc
  | S f =>
      let acc' := String (hex_char (n mod 16)) acc in
      if n / 16 =? 0 then acc' else hex_digits f (n / 16) acc'
  end.

Definition hex (n : Z) : string :=
  hex_digits (S (Z.to_nat (Z.log2 n))) n EmptyString.

(** [f"{n:02x}"]: sign, then the digits padded with zeros to a total
    width of two. *)
Definition format_02x (n : Z) : string :=
  if n <? 0 then
    let d := hex (- n) in
    String "-" (if (String.length d <? 1)%nat then String "0" d else d)
  else
    let d := hex n in
    if (String.length d <? 2)%nat then String "0" d else d.

(** A Python [float] as far as ordering goes: comparisons involving a NaN
    are false, the infinities bound every finite value, and a finite
    float is the rational number it denotes. *)
Inductive float :=
| NaN
| NegInf
| PosInf
| Finite (q : Q).

(** [x >= n] for an [int] [n] *)
Definition float_ge_int (x : float) (n : Z) : bool :=
  match x with
  | NaN | NegInf => false
  | PosInf => true
  | Finite q => Qle_bool (inject_Z n) q
  end.

(** [x <= n] for an [int] [n] *)
Definition float_le_int (x : float) (n : Z) : bool :=
  match x with
  | NaN | PosInf => false
  | NegInf => true
  | Finite q => Qle_bool q (inject_Z n)
  end.

(** [u < x] for a finite [u] *)
Definition float_gt_finite (x : float) (u : Q) : bool :=
  match x with
  | NaN | NegInf => false
  | PosInf => true
  | Finite q => negb (Qle_bool q u)
  end.

(** Index at which the slice bound [n] falls in a sequence of length
    [len]: a negative bound counts from the end, and every bound is
    clipped to the sequence. *)
Definition slice_index (len : nat) (n : Z) : nat :=
  Z.to_nat (Z.min (Z.of_nat len)
              (if n <? 0 then Z.max 0 (Z.of_nat len + n) else n)).

(** [l[:n]] *)
Definition slice_to {A} (l : list A) (n : Z) : list A :=
  take (slice_index (length l) n) l.

(** [l[n:]] *)
Definition slice_from {A} (l : list A) (n : Z) : list A :=
  drop (slice_index (length l) n) l.

(** Exceptions raised by the code under study. *)
Inductive exn :=
| TypeError
| AttributeError
| IndexError
| KeyError
| OverflowError
| RuntimeError
| Exception (msg : string)
| BaseException (msg : string).

End Py.


(** ** tracing/context.py *)

Module Context.

Definition TRACEPARENT_HEADER : string := "traceparent".
Definition TRACESTATE_HEADER : string := "tracestate".

Definition TRACE_FLAG_NONE : Z := 0.
Definition TRACE_FLAG_SAMPLED : Z := 1.

Record SpanContext := mkSpanContext {
  trace_id : string;
  span_id : string;
  trace_flags : Z;
  trace_state : option string
}.

(** Truth value of a [str | None]: [None] and the empty string are false. *)
Definition truthy (o : option string) : bool :=
  match o with
  | Some s => negb (String.eqb s "")
  | None => false
  end.

(** [a or b] on [str | None] values. *)
Definition or_else (a b : option string) : option string :=
  if truthy a then a else b.

(** [parse_traceparent(header)] *)
Definition parse_traceparent (header : string) : option SpanContext :=
  if String.eqb header "" then None
  else
    match Py.split "-" (Py.strip header) with
    | [version; trace_id; span_id; flags_hex] =>
        if negb (String.eqb version "00") then None
        else if negb (Py.re_match_hex 32 trace_id) then None
        else if String.eqb trace_id (Py.repeat_char "0" 32) then None
        else if negb (Py.re_match_hex 16 span_id) then None
        else if String.eqb span_id (Py.repeat_char "0" 16) then None
        else
          match Py.int16 flags_hex with
          | None => None
          | Some trace_flags =>
              Some {| trace_id := Py.lower trace_id;
                      span_id := Py.lower span_id;
                      trace_flags := trace_flags;
                      trace_state := None |}
          end
    | _ => None
    end.

(** [create_traceparent(context)] *)
Definition create_traceparent (context : SpanContext) : string :=
  let version := "00" in
  let flags := Py.format_02x (trace_flags context) in
  version +:+ "-" +:+ trace_id context +:+ "-" +:+ span_id context +:+ "-" +:+ flags.

(** [inject_trace_context(headers, context)]; [current] is the value of
    the context variable [_current_context].  The updated header dict is
    returned. *)
Definition inject_trace_context (current : option SpanContext)
    (headers : gmap string string) (context : option SpanContext)
  : gmap string string :=
  let ctx := match context with Some c => Some c | None => current end in
  match ctx with
  | None => headers
  | Some ctx =>
      let headers := <[TRACEPARENT_HEADER := create_traceparent ctx]> headers in
      if truthy (trace_state ctx) then
        match trace_state ctx with
        | Some ts => <[TRACESTATE_HEADER := ts]> headers
        | None => headers
        end
      else headers
  end.

(** [extract_trace_context(headers)]; a header value is [str | None]. *)
Definition extract_trace_context (headers : gmap string (option string))
  : option SpanContext :=
  let get k := match headers !! k with Some v => v | None => None end in
  match or_else (get TRACEPARENT_HEADER) (get "Traceparent") with
  | Some traceparent =>
      if String.eqb traceparent "" then None
      else
        match parse_traceparent traceparent with
        | None => None
        | Some context =>
            let tracestate := or_else (get TRACESTATE_HEADER) (get "Tracestate") in
            if truthy tracestate then
              Some {| trace_id := trace_id context;
                      span_id := span_id context;
                      trace_flags := trace_flags context;
                      trace_state := tracestate |}
            else Some context
        end
  | None => None
  end.

End Context.

(** ** types.py: the records used by spans *)

Module Types.

Inductive SpanKind := INTERNAL | SERVER | CLIENT | PRODUCER | CONSUMER.

Inductive SpanStatusCode := UNSET | OK | ERROR.

Record SpanStatus := mkSpanStatus {
  code : SpanStatusCode;
  message : option string
}.

(** [SpanStatus()] *)
Definition default_status : SpanStatus :=
  {| code := UNSET; message := None |}.

(** An attribute value, [str | int | float | bool].  No arithmetic is done
    on attribute values; a float is kept as its binary64 bit pattern. *)
Inductive scalar :=
| VStr (s : string)
| VInt (z : Z)
| VFloat (bits : Z)
| VBool (b : bool).

Record SpanEvent := mkSpanEvent {
  name : string;
  timestamp_ns : Z;
  attributes : gmap string scalar
}.

(** The fields of a [TelemetrySpan], which [to_dict] turns into the wire
    record of a finished span. *)
Record TelemetrySpan := mkTelemetrySpan {
  ts_trace_id : string;
  ts_span_id : string;
  ts_service_id : string;
  ts_deployment_id : string;
  ts_operation_name : string;
  ts_span_kind : SpanKind;
  ts_start_time_ns : Z;
  ts_duration_ns : Z;
  ts_status : SpanStatus;
  ts_attributes : gmap string scalar;
  ts_events : list SpanEvent;
  ts_parent_span_id : option string
}.

End Types.

(** ** tracing/span.py *)

Module Span.
Import Types.

(** What the operating system hands out when a span is created:
    [os.urandom(16).hex()], [os.urandom(8).hex()] and [time.time_ns()]. *)
Record Entropy := mkEntropy {
  rand_trace_id : string;
  rand_span_id : string;
  now_ns : Z
}.

(** State of a [SpanImpl] object. *)
Record SpanImpl := mkSpanImpl {
  _name : string;
  _kind : SpanKind;
  _trace_id : string;
  _span_id : string;
  _parent_span_id : option string;
  _start_time_ns : Z;
  _end_time_ns : option Z;
  _status : SpanStatus;
  _attributes : gmap string scalar;
  _events : list SpanEvent;
  _recording : bool
}.

(** State of a [NoopSpan] object. *)
Record NoopSpan := mkNoopSpan {
  noop_trace_id : string;
  noop_span_id : string;
  noop_name : string
}.

(** [x or default] for [x : dict | None]: an empty dict is false. *)
Definition dict_or_empty (attributes : option (gmap string scalar))
  : gmap string scalar :=
  match attributes with
  | Some d => d
  | None => ∅
  end.

(** [SpanImpl.__init__] *)
Definition SpanImpl_init (e : Entropy) (name : string) (kind : SpanKind)
    (trace_id parent_span_id : option string)
    (attributes : option (gmap string scalar)) : SpanImpl :=
  {| _name := name;
     _kind := kind;
     _trace_id := if Context.truthy trace_id
                  then default (rand_trace_id e) trace_id
                  else rand_trace_id e;
     _span_id := rand_span_id e;
     _parent_span_id := parent_span_id;
     _start_time_ns := now_ns e;
     _end_time_ns := None;
     _status := default_status;
     _attributes := dict_or_empty attributes;
     _events := [];
     _recording := true |}.

(** The [duration_ns] property. *)
Definition duration_ns (s : SpanImpl) : Z :=
  match _end_time_ns s with
  | None => 0
  | Some t => t - _start_time_ns s
  end.

Definition set_status (s : SpanImpl) (code : SpanStatusCode)
    (message : option string) : SpanImpl :=
  if negb (_recording s) then s
  else {| _name := _name s; _kind := _kind s; _trace_id := _trace_id s;
          _span_id := _span_id s; _parent_span_id := _parent_span_id s;
          _start_time_ns := _start_time_ns s; _end_time_ns := _end_time_ns s;
          _status := {| code := code; message := message |};
          _attributes := _attributes s; _events := _events s;
          _recording := _recording s |}.

Definition with_attributes (s : SpanImpl) (a : gmap string scalar) : SpanImpl :=
  {| _name := _name s; _kind := _kind s; _trace_id := _trace_id s;
     _span_id := _span_id s; _parent_span_id := _parent_span_id s;
     _start_time_ns := _start_time_ns s; _end_time_ns := _end_time_ns s;
     _status := _status s; _attributes := a; _events := _events s;
     _recording := _recording s |}.

Definition set_attribute (s : SpanImpl) (key : string) (value : scalar)
  : SpanImpl :=
  if negb (_recording s) then s
  else with_attributes s (<[key := value]> (_attributes s)).

(** [dict.update]: the entries of [attrs] replace those already there. *)
Definition set_attributes (s : SpanImpl) (attrs : gmap string scalar)
  : SpanImpl :=
  if negb (_recording s) then s
  else with_attributes s (attrs ∪ _attributes s).

(** [add_event]; [now] is the value of [time.time_ns()]. *)
Definition add_event (s : SpanImpl) (now : Z) (name : string)
    (attributes : option (gmap string scalar)) : SpanImpl :=
  if negb (_recording s) then s
  else {| _name := _name s; _kind := _kind s; _trace_id := _trace_id s;
          _span_id := _span_id s; _parent_span_id := _parent_span_id s;
          _start_time_ns := _start_time_ns s; _end_time_ns := _end_time_ns s;
          _status := _status s; _attributes := _attributes s;
          _events := _events s ++
                     [{| name := name; timestamp_ns := now;
                         attributes := dict_or_empty attributes |}];
          _recording := _recording s |}.

(** [end]; [now] is the value of [time.time_ns()]. *)
Definition end_ (s : SpanImpl) (now : Z) : SpanImpl :=
  if negb (_recording s) then s
  else {| _name := _name s; _kind := _kind s; _trace_id := _trace_id s;
          _span_id := _span_id s; _parent_span_id := _parent_span_id s;
          _start_time_ns := _start_time_ns s; _end_time_ns := Some now;
          _status := _status s; _attributes := _attributes s;
          _events := _events s; _recording := false |}.

Definition is_recording (s : SpanImpl) : bool := _recording s.

Definition span_context (s : SpanImpl) : Context.SpanContext :=
  {| Context.trace_id := _trace_id s;
     Context.span_id := _span_id s;
     Context.trace_flags := Context.TRACE_FLAG_SAMPLED;
     Context.trace_state := None |}.

Definition to_telemetry_span (s : SpanImpl) (service_id deployment_id : string)
  : TelemetrySpan :=
  {| ts_trace_id := _trace_id s;
     ts_span_id := _span_id s;
     ts_parent_span_id := _parent_span_id s;
     ts_service_id := service_id;
     ts_deployment_id := deployment_id;
     ts_operation_name := _name s;
     ts_span_kind := _kind s;
     ts_start_time_ns := _start_time_ns s;
     ts_duration_ns := duration_ns s;
     ts_status := _status s;
     ts_attributes := _attributes s;
     ts_events := _events s |}.

(** [NoopSpan.__init__] *)
Definition NoopSpan_init (e : Entropy) (context : option Context.SpanContext)
  : NoopSpan :=
  {| noop_trace_id := match context with
                      | Some c => Context.trace_id c
                      | None => rand_trace_id e
                      end;
     noop_span_id := match context with
                     | Some c => Context.span_id c
                     | None => rand_span_id e
                     end;
     noop_name := "noop" |}.

Definition noop_parent_span_id (n : NoopSpan) : option string := None.

Definition noop_is_recording (n : NoopSpan) : bool := false.

Definition noop_span_context (n : NoopSpan) : Context.SpanContext :=
  {| Context.trace_id := noop_trace_id n;
     Context.span_id := noop_span_id n;
     Context.trace_flags := 0;
     Context.trace_state := None |}.

(** A span object is of one of the two classes behind the [Span]
    interface. *)
Inductive object :=
| Impl (s : SpanImpl)
| Noop (n : NoopSpan).

(** One call of a mutating method of the interface. *)
Inductive call :=
| SetStatus (code : SpanStatusCode) (message : option string)
| SetAttribute (key : string) (value : scalar)
| SetAttributes (attrs : gmap string scalar)
| AddEvent (now : Z) (name : string) (attributes : option (gmap string scalar))
| End (now : Z).

Definition invoke (s : SpanImpl) (c : call) : SpanImpl :=
  match c with
  | SetStatus code message => set_status s code message
  | SetAttribute key value => set_attribute s key value
  | SetAttributes attrs => set_attributes s attrs
  | AddEvent now name attributes => add_event s now name attributes
  | End now => end_ s now
  end.

(** Dispatch on the class of the object; every method of [NoopSpan] is
    [pass]. *)
Definition invoke_object (o : object) (c : call) : object :=
  match o with
  | Impl s => Impl (invoke s c)
  | Noop n => Noop n
  end.

Definition object_is_recording (o : object) : bool :=
  match o with
  | Impl s => is_recording s
  | Noop n => noop_is_recording n
  end.

Definition object_span_context (o : object) : Context.SpanContext :=
  match o with
  | Impl s => span_context s
  | Noop n => noop_span_context n
  end.

Definition object_span_id (o : object) : string :=
  match o with
  | Impl s => _span_id s
  | Noop n => noop_span_id n
  end.

Definition object_parent_span_id (o : object) : option string :=
  match o with
  | Impl s => _parent_span_id s
  | Noop n => noop_parent_span_id n
  end.

End Span.

(** ** tracing/tracer.py *)

Module Tracer.
Import Types Span.

(** The tracer and what it reads and writes outside itself: the heap of
    span objects (a [Span] handle is an index into it), the context
    variable [_current_context], and whether an event loop is running. *)
Record State := mkState {
  service_id : string;
  deployment_id : string;
  sample_rate : Py.float;
  _active_spans : gmap string nat;
  _finished_spans : list TelemetrySpan;
  flush_tasks : nat;
  heap : list Span.object;
  _current_context : option Context.SpanContext;
  loop_running : bool
}.

Definition with_heap (st : State) (h : list Span.object) : State :=
  {| service_id := service_id st; deployment_id := deployment_id st;
     sample_rate := sample_rate st; _active_spans := _active_spans st;
     _finished_spans := _finished_spans st; flush_tasks := flush_tasks st;
     heap := h; _current_context := _current_context st;
     loop_running := loop_running st |}.

Definition with_active_spans (st : State) (m : gmap string nat) : State :=
  {| service_id := service_id st; deployment_id := deployment_id st;
     sample_rate := sample_rate st; _active_spans := m;
     _finished_spans := _finished_spans st; flush_tasks := flush_tasks st;
     heap := heap st; _current_context := _current_context st;
     loop_running := loop_running st |}.

(** [set_current_context(context)] *)
Definition set_current_context (st : State)
    (context : option Context.SpanContext) : State :=
  {| service_id := service_id st; deployment_id := deployment_id st;
     sample_rate := sample_rate st; _active_spans := _active_spans st;
     _finished_spans := _finished_spans st; flush_tasks := flush_tasks st;
     heap := heap st; _current_context := context;
     loop_running := loop_running st |}.

Definition with_finished (st : State) (q : list TelemetrySpan) (tasks : nat)
  : State :=
  {| service_id := service_id st; deployment_id := deployment_id st;
     sample_rate := sample_rate st; _active_spans := _active_spans st;
     _finished_spans := q; flush_tasks := tasks;
     heap := heap st; _current_context := _current_context st;
     loop_running := loop_running st |}.

(** [Tracer.__init__] in a process whose context variable is [ctx]. *)
Definition init (service_id deployment_id : string) (sample_rate : Py.float)
    (ctx : option Context.SpanContext) (loop : bool) : State :=
  {| service_id := service_id; deployment_id := deployment_id;
     sample_rate := sample_rate; _active_spans := ∅;
     _finished_spans := []; flush_tasks := O; heap := [];
     _current_context := ctx; loop_running := loop |}.

(** [_should_sample]; [u] is the value [random.random()] returns. *)
Definition _should_sample (st : State) (u : Q) : bool :=
  if Py.float_ge_int (sample_rate st) 1 then true
  else if Py.float_le_int (sample_rate st) 0 then false
  else
    match _current_context st with
    | Some context =>
        if negb (Z.land (Context.trace_flags context)
                   Context.TRACE_FLAG_SAMPLED =? 0)
        then true
        else Py.float_gt_finite (sample_rate st) u
    | None => Py.float_gt_finite (sample_rate st) u
    end.

(** [start_span].  The new object is put on the heap and its handle is
    returned; [None] only if [parent_span] is not a live object. *)
Definition start_span (st : State) (e : Entropy) (u : Q) (name : string)
    (op : option string) (kind : SpanKind)
    (attributes : option (gmap string scalar)) (parent_span : option nat)
  : option (State * nat) :=
  if negb (_should_sample st u) then
    Some (with_heap st (heap st ++ [Noop (NoopSpan_init e None)]),
          length (heap st))
  else
    match
      match parent_span with
      | Some p => option_map (fun o => Some (object_span_context o)) (heap st !! p)
      | None => Some (_current_context st)
      end
    with
    | None => None
    | Some parent_context =>
        let span :=
          SpanImpl_init e name kind
            (option_map Context.trace_id parent_context)
            (option_map Context.span_id parent_context)
            attributes in
        let span :=
          if Context.truthy op
          then set_attribute span "syntra.op" (VStr (default "" op))
          else span in
        let h := length (heap st) in
        let st := with_heap st (heap st ++ [Impl span]) in
        let st := with_active_spans st (<[_span_id span := h]> (_active_spans st)) in
        Some (set_current_context st (Some (span_context span)), h)
    end.

(** [get_active_span] *)
Definition get_active_span (st : State) : option nat :=
  match _current_context st with
  | None => None
  | Some context => _active_spans st !! Context.span_id context
  end.

(** [to_dict] of a [TelemetrySpan] leaves an empty [parent_span_id] out. *)
Definition to_dict (t : TelemetrySpan) : TelemetrySpan :=
  {| ts_trace_id := ts_trace_id t; ts_span_id := ts_span_id t;
     ts_service_id := ts_service_id t;
     ts_deployment_id := ts_deployment_id t;
     ts_operation_name := ts_operation_name t;
     ts_span_kind := ts_span_kind t;
     ts_start_time_ns := ts_start_time_ns t;
     ts_duration_ns := ts_duration_ns t; ts_status := ts_status t;
     ts_attributes := ts_attributes t; ts_events := ts_events t;
     ts_parent_span_id := if Context.truthy (ts_parent_span_id t)
                          then ts_parent_span_id t else None |}.

(** [on_span_end(span)] for the object behind the handle [span].  The
    state reached is returned with the exception raised, if any:
    a [NoopSpan] has no [to_telemetry_span], and [asyncio.create_task]
    needs a running loop.  A flush task that was created runs later, on
    the event loop; it is only counted here. *)
Definition on_span_end (st : State) (span : nat)
  : option (State * option Py.exn) :=
  match heap st !! span with
  | None => None
  | Some o =>
      let st := with_active_spans st (delete (object_span_id o) (_active_spans st)) in
      let restored :=
        if Context.truthy (object_parent_span_id o) then
          match _active_spans st !! default "" (object_parent_span_id o) with
          | Some parent_span =>
              option_map (fun p => Some (object_span_context p))
                (heap st !! parent_span)
          | None => Some None
          end
        else Some None in
      match restored with
      | None => None
      | Some context =>
          let st := set_current_context st context in
          match o with
          | Noop _ => Some (st, Some Py.AttributeError)
          | Impl s =>
              let telemetry_span :=
                to_telemetry_span s (service_id st) (deployment_id st) in
              let q := _finished_spans st ++ [to_dict telemetry_span] in
              if (100 <=? length q)%nat then
                if loop_running st
                then Some (with_finished st q (S (flush_tasks st)), None)
                else Some (with_finished st q (flush_tasks st),
                           Some Py.RuntimeError)
              else Some (with_finished st q (flush_tasks st), None)
          end
      end
  end.

(** A method call on the object behind a handle. *)
Definition call_span (st : State) (span : nat) (c : Span.call)
  : option State :=
  match heap st !! span with
  | None => None
  | Some o => Some (with_heap st (<[span := invoke_object o c]> (heap st)))
  end.

(** [span.is_recording()] *)
Definition is_recording (st : State) (span : nat) : option bool :=
  option_map object_is_recording (heap st !! span).

(** How the callers of the tracer finish a span (the [finally] block of
    [tracing/decorators.py], the tests of the tracer):
    [span.end(); tracer.on_span_end(span)]. *)
Definition end_span (st : State) (span : nat) (now : Z)
  : option (State * option Py.exn) :=
  match call_span st span (End now) with
  | None => None
  | Some st => on_span_end st span
  end.

End Tracer.

(** ** transport/base.py *)

Module Transport.

(** What one call of the abstract [send_payload] does: it returns, or it
    raises an [Exception], or it raises something that is not an
    [Exception] (a [BaseException] such as a cancellation). *)
Inductive send_result :=
| Sent
| Fails (msg : string)
| Escapes (msg : string).

(** What a transport does to the world, in order. *)
Inductive event (A : Type) :=
| Send (payload_type : string) (payload : list A)
| Sleep (delay : Z)
| PrintAttemptFailed (attempt : Z) (msg : string)
| PrintAllFailed (msg : string).
Arguments Send {A}.
Arguments Sleep {A}.
Arguments PrintAttemptFailed {A}.
Arguments PrintAllFailed {A}.

(** The world of a transport: how the backend answers the n-th send, the
    number of sends so far, and the events so far. *)
Record World (A : Type) := mkWorld {
  network : nat -> send_result;
  sends : nat;
  trace : list (event A)
}.
Arguments mkWorld {A}.
Arguments network {A}.
Arguments sends {A}.
Arguments trace {A}.

(** The fields of [BaseTransport] that its own methods read; a queued
    record is a value of type [A]. *)
Record BaseTransport (A : Type) := mkBaseTransport {
  max_batch_size : Z;
  max_retries : Z;
  debug : bool;
  _error_queue : list A;
  _span_queue : list A;
  _log_queue : list A
}.
Arguments mkBaseTransport {A}.
Arguments max_batch_size {A}.
Arguments max_retries {A}.
Arguments debug {A}.
Arguments _error_queue {A}.
Arguments _span_queue {A}.
Arguments _log_queue {A}.

Section Methods.
Context {A : Type}.

Definition with_error_queue (t : BaseTransport A) (q : list A) :=
  mkBaseTransport (max_batch_size t) (max_retries t) (debug t)
    q (_span_queue t) (_log_queue t).

Definition with_span_queue (t : BaseTransport A) (q : list A) :=
  mkBaseTransport (max_batch_size t) (max_retries t) (debug t)
    (_error_queue t) q (_log_queue t).

Definition with_log_queue (t : BaseTransport A) (q : list A) :=
  mkBaseTransport (max_batch_size t) (max_retries t) (debug t)
    (_error_queue t) (_span_queue t) q.

Definition log (ev : event A) (w : World A) : World A :=
  mkWorld (network w) (sends w) (trace w ++ [ev]).

(** One call of [send_payload]. *)
Definition send_payload (w : World A) (payload_type : string)
    (payload : list A) : World A * send_result :=
  (mkWorld (network w) (S (sends w))
     (trace w ++ [Send payload_type payload]),
   network w (sends w)).

(** [min(1.0 * (2**attempt), 10.0)] for an attempt number of the loop
    ([attempt >= 0]).  The power is an [int]; the product converts it to
    a [float], which raises [OverflowError] ("int too large to convert
    to float") from [2**1024] on.  Below that the conversion is exact
    and the minimum is a whole number of seconds. *)
Definition backoff_delay (attempt : Z) : Py.exn + Z :=
  if 1024 <=? attempt then inl Py.OverflowError
  else inr (Z.min (2 ^ attempt) 10).

(** The loop of [_send_with_retry] with [n] iterations left. *)
Fixpoint retry_loop (t : BaseTransport A) (payload_type : string)
    (payload : list A) (n : nat) (attempt : Z) (last_error : option string)
    (w : World A) : World A * option Py.exn :=
  match n with
  | O =>
      match last_error with
      | Some e => (if debug t then log (PrintAllFailed e) w else w, None)
      | None => (w, None)
      end
  | S n' =>
      let '(w, r) := send_payload w payload_type payload in
      match r with
      | Sent => (w, None)
      | Escapes e => (w, Some (Py.BaseException e))
      | Fails e =>
          let w :=
            if debug t then log (PrintAttemptFailed (attempt + 1) e) w
            else w in
          if attempt <? max_retries t - 1 then
            match backoff_delay attempt with
            | inl ex => (w, Some ex)
            | inr delay =>
                retry_loop t payload_type payload n' (attempt + 1)
                  (Some e) (log (Sleep delay) w)
            end
          else
            retry_loop t payload_type payload n' (attempt + 1) (Some e) w
      end
  end.

(** [_send_with_retry(payload_type, payload)]: the world afterwards and
    the exception that reaches the caller, if any. *)
Definition _send_with_retry (t : BaseTransport A) (w : World A)
    (payload_type : string) (payload : list A)
  : World A * option Py.exn :=
  retry_loop t payload_type payload (Z.to_nat (max_retries t)) 0 None w.

Definition _flush_errors (t : BaseTransport A) (w : World A)
  : BaseTransport A * World A * option Py.exn :=
  match _error_queue t with
  | [] => (t, w, None)
  | _ =>
      let errors := Py.slice_to (_error_queue t) (max_batch_size t) in
      let t := with_error_queue t
                 (Py.slice_from (_error_queue t) (max_batch_size t)) in
      let '(w, r) := _send_with_retry t w "errors" errors in
      (t, w, r)
  end.

Definition _flush_spans (t : BaseTransport A) (w : World A)
  : BaseTransport A * World A * option Py.exn :=
  match _span_queue t with
  | [] => (t, w, None)
  | _ =>
      let spans := Py.slice_to (_span_queue t) (max_batch_size t) in
      let t := with_span_queue t
                 (Py.slice_from (_span_queue t) (max_batch_size t)) in
      let '(w, r) := _send_with_retry t w "spans" spans in
      (t, w, r)
  end.

Definition _flush_logs (t : BaseTransport A) (w : World A)
  : BaseTransport A * World A * option Py.exn :=
  match _log_queue t with
  | [] => (t, w, None)
  | _ =>
      let logs := Py.slice_to (_log_queue t) (max_batch_size t) in
      let t := with_log_queue t
                 (Py.slice_from (_log_queue t) (max_batch_size t)) in
      let '(w, r) := _send_with_retry t w "logs" logs in
      (t, w, r)
  end.

Definition send_error (t : BaseTransport A) (w : World A) (error : A)
  : BaseTransport A * World A * option Py.exn :=
  let t := with_error_queue t (_error_queue t ++ [error]) in
  if max_batch_size t <=? Z.of_nat (length (_error_queue t))
  then _flush_errors t w
  else (t, w, None).

Definition send_spans (t : BaseTransport A) (w : World A) (spans : list A)
  : BaseTransport A * World A * option Py.exn :=
  let t := with_span_queue t (_span_queue t ++ spans) in
  if max_batch_size t <=? Z.of_nat (length (_span_queue t))
  then _flush_spans t w
  else (t, w, None).

Definition send_logs (t : BaseTransport A) (w : World A) (logs : list A)
  : BaseTransport A * World A * option Py.exn :=
  let t := with_log_queue t (_log_queue t ++ logs) in
  if max_batch_size t <=? Z.of_nat (length (_log_queue t))
  then _flush_logs t w
  else (t, w, None).

(** [flush]: errors, then spans, then logs; an exception ends it. *)
Definition flush (t : BaseTransport A) (w : World A)
  : BaseTransport A * World A * option Py.exn :=
  match _flush_errors t w with
  | (t, w, None) =>
      match _flush_spans t w with
      | (t, w, None) => _flush_logs t w
      | r => r
      end
  | r => r
  end.

End Methods.

End Transport.

(** ** scope.py *)

Module BreadcrumbType.
Inductive t := HTTP | NAVIGATION | UI | CONSOLE | ERROR | QUERY | DEFAULT.
End BreadcrumbType.

Module BreadcrumbLevel.
Inductive t := DEBUG | INFO | WARNING | ERROR | FATAL.
End BreadcrumbLevel.

Module Scope.

(** A Python value as a scope stores it ([Any]): an immutable value, or a
    reference to a mutable object on the heap. *)
Inductive value :=
| VNone
| VBool (b : bool)
| VInt (z : Z)
| VStr (s : string)
| VRef (l : nat).

(** State of a [Breadcrumb] object; [data] refers to a dict. *)
Record Breadcrumb := mkBreadcrumb {
  type : BreadcrumbType.t;
  category : string;
  timestamp : string;
  message : option string;
  data : option nat;
  level : BreadcrumbLevel.t
}.

(** The mutable objects a scope refers to. *)
Inductive object :=
| Dict (d : gmap string value)
| List (l : list value)
| Crumb (b : Breadcrumb).

(** The fields of a [Scope] object: references to its dicts and lists. *)
Record Scope := mkScope {
  user : option nat;
  tags : nat;
  extra : nat;
  breadcrumbs : nat;
  fingerprint : option nat;
  _max_breadcrumbs : Z
}.

(** A computation on the heap that returns a value or raises. *)
Definition M (X : Type) : Type := list object -> Py.exn + (X * list object).

Definition ret {X} (x : X) : M X := fun h => inr (x, h).

Definition bind {X Y} (m : M X) (k : X -> M Y) : M Y :=
  fun h => match m h with
           | inl e => inl e
           | inr (x, h') => k x h'
           end.

Definition raise {X} (e : Py.exn) : M X := fun _ => inl e.

Notation "x <- m ;; k" := (bind m (fun x => k))
  (at level 100, m at next level, right associativity).

(** A new object; its reference is the next free index. *)
Definition alloc (o : object) : M nat :=
  fun h => inr (length h, h ++ [o]).

Definition get_dict (l : nat) : M (gmap string value) :=
  fun h => match h !! l with
           | Some (Dict d) => inr (d, h)
           | _ => inl Py.TypeError
           end.

Definition get_list (l : nat) : M (list value) :=
  fun h => match h !! l with
           | Some (List x) => inr (x, h)
           | _ => inl Py.TypeError
           end.

Definition get_crumb (l : nat) : M Breadcrumb :=
  fun h => match h !! l with
           | Some (Crumb b) => inr (b, h)
           | _ => inl Py.TypeError
           end.

(** In-place update of the object behind a reference. *)
Definition put (l : nat) (o : object) : M unit :=
  fun h => inr (tt, <[l := o]> h).

(** [Scope(_max_breadcrumbs=n)] *)
Definition init (max_breadcrumbs : Z) : M Scope :=
  t <- alloc (Dict ∅) ;;
  e <- alloc (Dict ∅) ;;
  b <- alloc (List []) ;;
  ret {| user := None; tags := t; extra := e; breadcrumbs := b;
         fingerprint := None; _max_breadcrumbs := max_breadcrumbs |}.

Definition set_user (s : Scope) (u : option nat) : M Scope :=
  ret {| user := u; tags := tags s; extra := extra s;
         breadcrumbs := breadcrumbs s; fingerprint := fingerprint s;
         _max_breadcrumbs := _max_breadcrumbs s |}.

Definition set_tag (s : Scope) (key value : string) : M Scope :=
  d <- get_dict (tags s) ;;
  _ <- put (tags s) (Dict (<[key := VStr value]> d)) ;;
  ret s.

(** [self.tags.update(tags)] *)
Definition set_tags (s : Scope) (new : gmap string string) : M Scope :=
  d <- get_dict (tags s) ;;
  _ <- put (tags s) (Dict ((VStr <$> new) ∪ d)) ;;
  ret s.

Definition set_extra (s : Scope) (key : string) (v : value) : M Scope :=
  d <- get_dict (extra s) ;;
  _ <- put (extra s) (Dict (<[key := v]> d)) ;;
  ret s.

Definition set_extras (s : Scope) (extras : gmap string value) : M Scope :=
  d <- get_dict (extra s) ;;
  _ <- put (extra s) (Dict (extras ∪ d)) ;;
  ret s.

(** [self.fingerprint = fingerprint]: the caller's list is kept. *)
Definition set_fingerprint (s : Scope) (fp : nat) : M Scope :=
  ret {| user := user s; tags := tags s; extra := extra s;
         breadcrumbs := breadcrumbs s; fingerprint := Some fp;
         _max_breadcrumbs := _max_breadcrumbs s |}.

(** [while len(l) > max: l.pop(0)]; [pop] on an empty list raises. *)
Fixpoint ring_trim (max : Z) (l : list value) : Py.exn + list value :=
  if max <? Z.of_nat (length l) then
    match l with
    | [] => inl Py.IndexError
    | _ :: rest => ring_trim max rest
    end
  else inr l.

(** [add_breadcrumb]; [now] is [datetime.now(timezone.utc).isoformat()]. *)
Definition add_breadcrumb (s : Scope) (type : BreadcrumbType.t)
    (category : string) (message : option string) (data : option nat)
    (level : BreadcrumbLevel.t) (now : string) : M Scope :=
  breadcrumb <- alloc (Crumb {| type := type; category := category;
                                message := message; data := data;
                                level := level;
                                timestamp := now +:+ "Z" |}) ;;
  l <- get_list (breadcrumbs s) ;;
  match ring_trim (_max_breadcrumbs s) (l ++ [VRef breadcrumb]) with
  | inl e => raise e
  | inr l' =>
      _ <- put (breadcrumbs s) (List l') ;;
      ret s
  end.

Definition clear_breadcrumbs (s : Scope) : M Scope :=
  b <- alloc (List []) ;;
  ret {| user := user s; tags := tags s; extra := extra s;
         breadcrumbs := b; fingerprint := fingerprint s;
         _max_breadcrumbs := _max_breadcrumbs s |}.

Definition clear (s : Scope) : M Scope :=
  t <- alloc (Dict ∅) ;;
  e <- alloc (Dict ∅) ;;
  b <- alloc (List []) ;;
  ret {| user := None; tags := t; extra := e; breadcrumbs := b;
         fingerprint := None; _max_breadcrumbs := _max_breadcrumbs s |}.

(** [dict(x) if x else None] *)
Definition copy_dict_if (x : option nat) : M (option nat) :=
  match x with
  | None => ret None
  | Some l =>
      d <- get_dict l ;;
      if decide (d = ∅) then ret None
      else (l' <- alloc (Dict d) ;; ret (Some l'))
  end.

(** [list(x) if x else None] *)
Definition copy_list_if (x : option nat) : M (option nat) :=
  match x with
  | None => ret None
  | Some l =>
      v <- get_list l ;;
      match v with
      | [] => ret None
      | _ => l' <- alloc (List v) ;; ret (Some l')
      end
  end.

(** [clone]: [dict(...)] and [list(...)] make a new object with the same
    entries; the entries themselves are not copied. *)
Definition clone (s : Scope) : M Scope :=
  u <- copy_dict_if (user s) ;;
  t <- (d <- get_dict (tags s) ;; alloc (Dict d)) ;;
  e <- (d <- get_dict (extra s) ;; alloc (Dict d)) ;;
  b <- (l <- get_list (breadcrumbs s) ;; alloc (List l)) ;;
  f <- copy_list_if (fingerprint s) ;;
  ret {| user := u; tags := t; extra := e; breadcrumbs := b;
         fingerprint := f; _max_breadcrumbs := _max_breadcrumbs s |}.

(** One call of a mutating method of [Scope]. *)
Inductive call :=
| SetUser (u : option nat)
| SetTag (key value : string)
| SetTags (new : gmap string string)
| SetExtra (key : string) (v : value)
| SetExtras (extras : gmap string value)
| SetFingerprint (fp : nat)
| AddBreadcrumb (type : BreadcrumbType.t) (category : string)
    (message : option string) (data : option nat)
    (level : BreadcrumbLevel.t) (now : string)
| ClearBreadcrumbs
| Clear.

Definition invoke (s : Scope) (c : call) : M Scope :=
  match c with
  | SetUser u => set_user s u
  | SetTag key value => set_tag s key value
  | SetTags new => set_tags s new
  | SetExtra key v => set_extra s key v
  | SetExtras extras => set_extras s extras
  | SetFingerprint fp => set_fingerprint s fp
  | AddBreadcrumb type category message data level now =>
      add_breadcrumb s type category message data level now
  | ClearBreadcrumbs => clear_breadcrumbs s
  | Clear => clear s
  end.

End Scope.

(** ** More Python built-ins: string search, joins, dicts in insertion order *)

Module PyStr.

(** [c in s] for a one-character string [c]. *)
Fixpoint contains_char (c : ascii) (s : string) : bool :=
  match s with
  | EmptyString => false
  | String x r => Ascii.eqb x c || contains_char c r
  end.

(** [s.split(sep, 1)] when [sep] occurs in [s]: the text before the first
    [sep] and the text after it; [None] when [sep] does not occur. *)
Fixpoint partition_first (sep : ascii) (s : string) : option (string * string) :=
  match s with
  | EmptyString => None
  | String x r =>
      if Ascii.eqb x sep then Some (EmptyString, r)
      else match partition_first sep r with
           | Some (a, b) => Some (String x a, b)
           | None => None
           end
  end.

(** [sep.join(l)] *)
Fixpoint join (sep : string) (l : list string) : string :=
  match l with
  | [] => EmptyString
  | [x] => x
  | x :: r => x +:+ sep +:+ join sep r
  end.

(** [s.startswith(p)] *)
Fixpoint startswith (p s : string) : bool :=
  match p, s with
  | EmptyString, _ => true
  | String a p', String b s' => Ascii.eqb a b && startswith p' s'
  | String _ _, EmptyString => false
  end.

(** [s[n:]] for [0 <= n] *)
Fixpoint drop (n : nat) (s : string) : string :=
  match n, s with
  | O, _ => s
  | S k, String _ r => drop k r
  | S _, EmptyString => EmptyString
  end.

End PyStr.

Module PyDict.

(** [d[k] = v] on a [dict[str, str]] given by its items in insertion
    order: the value of a key that is there is replaced in place, a new
    key goes to the end. *)
Fixpoint set (k v : string) (d : list (string * string))
  : list (string * string) :=
  match d with
  | [] => [(k, v)]
  | (k', v') :: r =>
      if String.eqb k' k then (k', v) :: r else (k', v') :: set k v r
  end.

End PyDict.

(** ** tracing/context.py: the tracestate header *)

Module Tracestate.

(** One round of the loop of [parse_tracestate]. *)
Definition add_pair (state : list (string * string)) (pair : string)
  : list (string * string) :=
  let trimmed := Py.strip pair in
  if PyStr.contains_char "=" trimmed then
    match PyStr.partition_first "=" trimmed with
    | Some (key, value) => PyDict.set key value state
    | None => state
    end
  else state.

(** [parse_tracestate(header)] *)
Definition parse_tracestate (header : string) : list (string * string) :=
  if String.eqb header "" then []
  else fold_left add_pair (Py.split "," header) [].

(** [create_tracestate(state)] *)
Definition create_tracestate (state : list (string * string)) : string :=
  PyStr.join "," (map (fun kv => fst kv +:+ "=" +:+ snd kv) state).

End Tracestate.

(** ** tracing/tracer.py: handing the finished spans to the transport *)

Module TracerFlush.
Import Types.

(** [isinstance(e, Exception)]: what [except Exception] catches. *)
Definition is_exception (e : Py.exn) : bool :=
  match e with
  | Py.BaseException _ => false
  | _ => true
  end.

(** The result of a flush: the tracer, its transport and the world
    afterwards, the exceptions the tracer printed
    (["[Syntra] Failed to send spans: ..."]), and the exception that
    reaches the caller, if any. *)
Record Outcome := mkOutcome {
  tracer : Tracer.State;
  transport : Transport.BaseTransport TelemetrySpan;
  world : Transport.World TelemetrySpan;
  printed : list Py.exn;
  raised : option Py.exn
}.

(** [Tracer._flush_spans], run to its end; [debug] is [self.debug]. *)
Definition _flush_spans (debug : bool) (st : Tracer.State)
    (t : Transport.BaseTransport TelemetrySpan)
    (w : Transport.World TelemetrySpan) : Outcome :=
  match Tracer._finished_spans st with
  | [] => mkOutcome st t w [] None
  | _ =>
      let spans := Tracer._finished_spans st in
      let st := Tracer.with_finished st [] (Tracer.flush_tasks st) in
      let '(t, w, r) := Transport.send_spans t w spans in
      match r with
      | None => mkOutcome st t w [] None
      | Some e =>
          if is_exception e
          then mkOutcome st t w (if debug then [e] else []) None
          else mkOutcome st t w [] (Some e)
      end
  end.

(** [Tracer.flush] *)
Definition flush (debug : bool) (st : Tracer.State)
    (t : Transport.BaseTransport TelemetrySpan)
    (w : Transport.World TelemetrySpan) : Outcome :=
  _flush_spans debug st t w.

(** [Tracer.close] *)
Definition close (debug : bool) (st : Tracer.State)
    (t : Transport.BaseTransport TelemetrySpan)
    (w : Transport.World TelemetrySpan) : Outcome :=
  let o := flush debug st t w in
  match raised o with
  | Some e => o
  | None =>
      mkOutcome (Tracer.with_active_spans (tracer o) ∅) (transport o)
        (world o) (printed o) None
  end.

End TracerFlush.

(** ** config.py *)

Module Config.

Record ParsedDSN := mkParsedDSN {
  protocol : string;
  public_key : string;
  host : string;
  project_id : string
}.

Inductive error := ValueError (msg : string).

(** The pattern [^(syn|https?):\/\/([^@]+)@([^\/]+)\/(.+)$] is matched
    piece by piece; the extent of every group is forced by the character
    that has to follow it, so no choice is left to backtracking.

    [(syn|https?):\/\/]: the protocol and the text after ["://"]. *)
Definition match_protocol (s : string) : option (string * string) :=
  if PyStr.startswith "syn://" s then Some ("syn", PyStr.drop 6 s)
  else if PyStr.startswith "https://" s then Some ("https", PyStr.drop 8 s)
  else if PyStr.startswith "http://" s then Some ("http", PyStr.drop 7 s)
  else None.

(** [([^c]+)c]: the group, which is not empty, and the text after [c]. *)
Definition match_until (c : ascii) (s : string) : option (string * string) :=
  match PyStr.partition_first c s with
  | Some (EmptyString, _) => None
  | r => r
  end.

(** The longest prefix without a line feed, and what follows it. *)
Fixpoint line_prefix (s : string) : string * string :=
  match s with
  | EmptyString => (EmptyString, EmptyString)
  | String c r =>
      if Py.code c =? 10 then (EmptyString, s)
      else let '(a, b) := line_prefix r in (String c a, b)
  end.

(** [(.+)$]: [.] is any character but a line feed, and [$] matches at the
    end of the string and before a line feed that ends it. *)
Definition match_rest (s : string) : option string :=
  let '(line, rest) := line_prefix s in
  match line, rest with
  | EmptyString, _ => None
  | _, EmptyString => Some line
  | _, String _ EmptyString => Some line
  | _, _ => None
  end.

(** [re.match(pattern, dsn)]: the four groups. *)
Definition re_match_dsn (dsn : string)
  : option (string * string * string * string) :=
  match match_protocol dsn with
  | None => None
  | Some (protocol, r1) =>
      match match_until "@" r1 with
      | None => None
      | Some (public_key, r2) =>
          match match_until "/" r2 with
          | None => None
          | Some (host, r3) =>
              match match_rest r3 with
              | None => None
              | Some project_id => Some (protocol, public_key, host, project_id)
              end
          end
      end
  end.

(** [parse_dsn(dsn)] *)
Definition parse_dsn (dsn : string) : error + ParsedDSN :=
  if String.eqb dsn "" then inl (ValueError "DSN is required")
  else
    match re_match_dsn dsn with
    | None =>
        inl (ValueError
               ("Invalid DSN format. Expected: syn://<public_key>@<host>/<project_id>, got: "
                +:+ dsn))
    | Some (protocol, public_key, host, project_id) =>
        if String.eqb public_key "" then inl (ValueError "DSN missing public key")
        else if String.eqb host "" then inl (ValueError "DSN missing host")
        else if String.eqb project_id "" then inl (ValueError "DSN missing project ID")
        else inr {| protocol := protocol; public_key := public_key;
                    host := host; project_id := project_id |}
    end.

(** [build_ingest_url(dsn)] *)
Definition build_ingest_url (dsn : ParsedDSN) : string :=
  let protocol := if String.eqb (protocol dsn) "syn" then "https" else protocol dsn in
  protocol +:+ "://" +:+ host dsn +:+ "/api/v1/telemetry".

(** [is_valid_dsn(dsn)] *)
Definition is_valid_dsn (dsn : string) : bool :=
  match parse_dsn dsn with
  | inr _ => true
  | inl _ => false
  end.

End Config.

(** ** breadcrumbs/buffer.py *)

Module BreadcrumbBuffer.

(** State of a [BreadcrumbBuffer] object. *)
Record BreadcrumbBuffer := mkBreadcrumbBuffer {
  _max_size : Z;
  _buffer : list Scope.Breadcrumb
}.

(** [BreadcrumbBuffer(max_size)] *)
Definition init (max_size : Z) : BreadcrumbBuffer :=
  {| _max_size := Z.max 1 max_size; _buffer := [] |}.

(** [while len(l) > max: l.pop(0)]; [pop] on an empty list raises. *)
Fixpoint pop_oldest (max : Z) (l : list Scope.Breadcrumb)
  : Py.exn + list Scope.Breadcrumb :=
  if max <? Z.of_nat (length l) then
    match l with
    | [] => inl Py.IndexError
    | _ :: rest => pop_oldest max rest
    end
  else inr l.

(** [add]; [now] is [datetime.now(timezone.utc).isoformat()]. *)
Definition add (b : BreadcrumbBuffer) (type : BreadcrumbType.t)
    (category : string) (message : option string) (data : option nat)
    (level : BreadcrumbLevel.t) (now : string) : Py.exn + BreadcrumbBuffer :=
  let breadcrumb :=
    Scope.mkBreadcrumb type category (now +:+ "Z") message data level in
  match pop_oldest (_max_size b) (_buffer b ++ [breadcrumb]) with
  | inl e => inl e
  | inr l => inr {| _max_size := _max_size b; _buffer := l |}
  end.

(** [get_all]: a new list. *)
Definition get_all (b : BreadcrumbBuffer) : list Scope.Breadcrumb := _buffer b.

(** [get_last(n)]: [self._buffer[-n:]] *)
Definition get_last (b : BreadcrumbBuffer) (n : Z) : list Scope.Breadcrumb :=
  Py.slice_from (_buffer b) (- n).

Definition clear (b : BreadcrumbBuffer) : BreadcrumbBuffer :=
  {| _max_size := _max_size b; _buffer := [] |}.

Definition count (b : BreadcrumbBuffer) : Z := Z.of_nat (length (_buffer b)).

Definition capacity (b : BreadcrumbBuffer) : Z := _max_size b.

End BreadcrumbBuffer.

(** ** types.py: the values of the enumerations *)

Module EnumValue.
Import Types.

(** [SpanKind.<member>.value] *)
Definition SpanKind_value (k : SpanKind) : string :=
  match k with
  | INTERNAL => "internal"
  | SERVER => "server"
  | CLIENT => "client"
  | PRODUCER => "producer"
  | CONSUMER => "consumer"
  end.

(** [SpanStatusCode.<member>.value] *)
Definition SpanStatusCode_value (c : SpanStatusCode) : string :=
  match c with
  | UNSET => "unset"
  | OK => "ok"
  | ERROR => "error"
  end.

Inductive LogLevel := LTRACE | LDEBUG | LINFO | LWARN | LERROR | LFATAL.

(** [LogLevel.<member>.value] *)
Definition LogLevel_value (l : LogLevel) : string :=
  match l with
  | LTRACE => "trace"
  | LDEBUG => "debug"
  | LINFO => "info"
  | LWARN => "warn"
  | LERROR => "error"
  | LFATAL => "fatal"
  end.

End EnumValue.

(** ** transport/otlp.py: the conversions *)

Module Otlp.
Import Types.

(** An attribute value as the conversion sees it ([Any]): one of the four
    scalar types, or any other object, of which only [str(value)] is
    used. *)
Inductive any :=
| Scalar (v : scalar)
| Other (str : string).

(** An OTLP [AnyValue].  [int_value] holds the object it was given. *)
Inductive AnyValue :=
| string_value (s : string)
| int_value (v : any)
| double_value (bits : Z)
| bool_value (b : bool).

Record KeyValue := mkKeyValue {
  key : string;
  value : AnyValue
}.

(** [isinstance(value, str)], with the string. *)
Definition as_str (v : any) : option string :=
  match v with
  | Scalar (VStr s) => Some s
  | _ => None
  end.

(** [isinstance(value, int)]: [bool] is a subclass of [int]. *)
Definition is_int (v : any) : bool :=
  match v with
  | Scalar (VInt _) | Scalar (VBool _) => true
  | _ => false
  end.

(** [isinstance(value, float)], with the number. *)
Definition as_float (v : any) : option Z :=
  match v with
  | Scalar (VFloat bits) => Some bits
  | _ => None
  end.

(** [isinstance(value, bool)], with the truth value. *)
Definition as_bool (v : any) : option bool :=
  match v with
  | Scalar (VBool b) => Some b
  | _ => None
  end.

(** [str(value)] of an object that is none of the scalars; it is not
    asked for a scalar. *)
Definition str (v : any) : string :=
  match v with
  | Other s => s
  | Scalar _ => EmptyString
  end.

(** One round of the loop of [_convert_attributes]: the [isinstance]
    tests in the order of the source. *)
Definition convert_attribute (k : string) (v : any) : KeyValue :=
  match as_str v with
  | Some s => mkKeyValue k (string_value s)
  | None =>
      if is_int v then mkKeyValue k (int_value v)
      else
        match as_float v with
        | Some bits => mkKeyValue k (double_value bits)
        | None =>
            match as_bool v with
            | Some b => mkKeyValue k (bool_value b)
            | None => mkKeyValue k (string_value (str v))
            end
        end
  end.

(** [_convert_attributes(attrs)]; [attrs] is given by its items in
    insertion order. *)
Definition _convert_attributes (attrs : list (string * any)) : list KeyValue :=
  map (fun kv => convert_attribute (fst kv) (snd kv)) attrs.

(** [kinds.get(kind, 0)] *)
Definition _span_kind_to_number (kind : string) : Z :=
  if String.eqb kind "internal" then 1
  else if String.eqb kind "server" then 2
  else if String.eqb kind "client" then 3
  else if String.eqb kind "producer" then 4
  else if String.eqb kind "consumer" then 5
  else 0.

(** [codes.get(code, 0)] *)
Definition _status_code_to_number (code : string) : Z :=
  if String.eqb code "unset" then 0
  else if String.eqb code "ok" then 1
  else if String.eqb code "error" then 2
  else 0.

(** [levels.get(level.lower(), 9)] *)
Definition _level_to_severity_number (level : string) : Z :=
  let l := Py.lower level in
  if String.eqb l "trace" then 1
  else if String.eqb l "debug" then 5
  else if String.eqb l "info" then 9
  else if String.eqb l "warn" then 13
  else if String.eqb l "error" then 17
  else if String.eqb l "fatal" then 21
  else 9.

End Otlp.

(** ** tracing/decorators.py *)

Module Decorators.
Import Types.

(** How a call of the decorated function ends: it returns, it raises an
    [Exception] [e] (kept as [str(e)]), or it raises something that is no
    [Exception]. *)
Inductive outcome (R : Type) :=
| Returned (r : R)
| Raised (msg : string)
| Escaped (msg : string).
Arguments Returned {R}.
Arguments Raised {R}.
Arguments Escaped {R}.

(** The wrapper that [trace(name, op, kind, attributes)] puts around
    [func], with a tracer installed; [func_name] is [func.__name__] and
    [now] the clock when the span is ended.  A function may use the
    tracer.  The result is absent only if a span handle names no
    object. *)
Definition sync_wrapper {R} (st : Tracer.State) (e : Span.Entropy) (u : Q)
    (name : option string) (func_name : string) (op : option string)
    (kind : SpanKind) (attributes : option (gmap string scalar))
    (func : Tracer.State -> Tracer.State * outcome R) (now : Z)
  : option (Tracer.State * (Py.exn + R)) :=
  let span_name := if Context.truthy name then default func_name name
                   else func_name in
  let op := if Context.truthy op then op else Some "function" in
  match Tracer.start_span st e u span_name op kind attributes None with
  | None => None
  | Some (st, span) =>
      let '(st, out) := func st in
      match
        match out with
        | Returned _ => Tracer.call_span st span (Span.SetStatus OK None)
        | Raised msg => Tracer.call_span st span (Span.SetStatus ERROR (Some msg))
        | Escaped _ => Some st
        end
      with
      | None => None
      | Some st =>
          match Tracer.end_span st span now with
          | None => None
          | Some (st, Some ex) => Some (st, inl ex)
          | Some (st, None) =>
              Some (st, match out with
                        | Returned r => inr r
                        | Raised msg => inl (Py.Exception msg)
                        | Escaped msg => inl (Py.BaseException msg)
                        end)
          end
      end
  end.

End Decorators.

(** ** integrations/logging.py: the level maps *)

Module LoggingHandler.

(** The levels of the [logging] module. *)
Definition CRITICAL : Z := 50.
Definition ERROR : Z := 40.
Definition WARNING : Z := 30.
Definition INFO : Z := 20.
Definition DEBUG : Z := 10.

Definition _map_level (levelno : Z) : EnumValue.LogLevel :=
  if CRITICAL <=? levelno then EnumValue.LFATAL
  else if ERROR <=? levelno then EnumValue.LERROR
  else if WARNING <=? levelno then EnumValue.LWARN
  else if INFO <=? levelno then EnumValue.LINFO
  else if DEBUG <=? levelno then EnumValue.LDEBUG
  else EnumValue.LTRACE.

Definition _map_breadcrumb_level (levelno : Z) : BreadcrumbLevel.t :=
  if CRITICAL <=? levelno then BreadcrumbLevel.FATAL
  else if ERROR <=? levelno then BreadcrumbLevel.ERROR
  else if WARNING <=? levelno then BreadcrumbLevel.WARNING
  else if DEBUG <=? levelno then BreadcrumbLevel.DEBUG
  else BreadcrumbLevel.INFO.

End LoggingHandler.

(** ** transport/http.py: where the batches are posted *)

Module Http.

(** [sub in s] *)
Fixpoint contains (sub s : string) : bool :=
  PyStr.startswith sub s
  || match s with
     | EmptyString => false
     | String _ r => contains sub r
     end.

(** The fields of an [HttpTransport] that [create_http_transport]
    sets. *)
Record HttpTransport := mkHttpTransport {
  url : string;
  public_key : string;
  project_id : string;
  debug : bool
}.

(** [create_http_transport(host, public_key, project_id, debug=debug)] *)
Definition create_http_transport (host public_key project_id : string)
    (debug : bool) : HttpTransport :=
  let protocol :=
    if contains "localhost" host || contains "127.0.0.1" host
    then "http" else "https" in
  let url := protocol +:+ "://" +:+ host +:+ "/api/v1/telemetry" in
  {| url := url; public_key := public_key; project_id := project_id;
     debug := debug |}.

(** The [endpoint] of [HttpTransport.send_payload]. *)
Definition endpoint (t : HttpTransport) (payload_type : string) : string :=
  url t +:+ "/" +:+ payload_type.

End Http.

(** ** integrations/excepthook.py *)

Module Excepthook.

(** A value of [sys.excepthook]: the hook of this module, or some other
    callable. *)
Inductive hook (H : Type) :=
| syntra_excepthook
| other (h : H).
Arguments syntra_excepthook {H}.
Arguments other {H}.

(** [sys.excepthook] and the module variable [_original_excepthook]. *)
Record State (H : Type) := mkState {
  excepthook : hook H;
  _original_excepthook : option (hook H)
}.
Arguments mkState {H}.
Arguments excepthook {H}.
Arguments _original_excepthook {H}.

Definition install_excepthook {H} (s : State H) : State H :=
  match _original_excepthook s with
  | Some _ => s
  | None => {| excepthook := syntra_excepthook;
               _original_excepthook := Some (excepthook s) |}
  end.

Definition uninstall_excepthook {H} (s : State H) : State H :=
  match _original_excepthook s with
  | Some original => {| excepthook := original; _original_excepthook := None |}
  | None => s
  end.

End Excepthook.

(** ** tracing/span.py: a span as a context manager *)

Module SpanExit.
Import Types.



End SpanExit.

(** ** Vocabulary of the specification *)

(** Value of a digit string, most significant digit first. *)
Fixpoint hex_value (acc : Z) (s : string) : Z :=
  match s with
  | EmptyString => acc
  | String c r =>
      hex_value (16 * acc + match Py.hex_val c with Some d => d | None => 0 end) r
  end.

(** An identifier of [n] lower-case hex digits that are not all zero. *)
Definition valid_id (n : nat) (s : string) : bool :=
  (String.length s =? n)%nat && Py.all_chars Py.is_lower_hex s
  && negb (String.eqb s (Py.repeat_char "0" n)).

(** A valid span context without vendor state: a 128-bit trace id, a 64-bit
    span id, a non-negative flags value. *)
Definition valid_context (ctx : Context.SpanContext) : bool :=
  valid_id 32 (Context.trace_id ctx) && valid_id 16 (Context.span_id ctx)
  && (0 <=? Context.trace_flags ctx)
  && match Context.trace_state ctx with None => true | Some _ => false end.

(** The fields that [parse_traceparent] validates: [header.strip()] split
    at every ["-"]. *)
Definition header_fields (header : string) : list string :=
  Py.split "-" (Py.strip header).

(** Exactly [n] hex digits of either case. *)
Definition is_hex_field (n : nat) (s : string) : bool :=
  (String.length s =? n)%nat && Py.all_chars Py.is_hex s.

(** A trace-id field of 32 hex digits followed by a line feed. *)
Definition trace_id_with_line_feed : string :=
  "4bf92f3577b34da6a3ce929d0e0e4736" +:+ String (ascii_of_nat 10) EmptyString.

Definition header_with_line_feed : string :=
  "00-" +:+ trace_id_with_line_feed +:+ "-00f067aa0ba902b7-01".

(** A rate strictly between 0 and 1. *)
Definition strictly_between_0_1 (rate : Py.float) : Prop :=
  match rate with
  | Py.Finite q => (0 < q)%Q /\ (q < 1)%Q
  | _ => False
  end.

(** The ambient trace context is present and marked sampled. *)
Definition ambient_sampled (st : Tracer.State) : Prop :=
  exists context, Tracer._current_context st = Some context /\
    Z.land (Context.trace_flags context) Context.TRACE_FLAG_SAMPLED <> 0.

(** Every handle kept in the registry names a live span object, filed
    under the span id of that object. *)
Definition registry_consistent (st : Tracer.State) : Prop :=
  forall k h, Tracer._active_spans st !! k = Some h ->
    exists o, Tracer.heap st !! h = Some o /\ Span.object_span_id o = k.

(** Outcome of a run with a parent span and a child span. *)
Record nested_run := mkNestedRun {
  parent_handle : nat;
  child_handle : nat;
  parent_recording : option bool;
  child_recording : option bool;
  active_after_child_end : option nat;
  active_after_parent_end : option nat
}.

(** A fresh tracer of rate 1 starts an outer span, then the parent span
    under it, then the child span under the parent; the child is finished,
    then the parent. *)
Definition three_nested_spans : option (nat * nested_run) :=
  let st := Tracer.init "svc" "dep" (Py.Finite 1) None true in
  let start st id :=
    Tracer.start_span st (Span.mkEntropy "0af7651916cd43dd8448eb211c80319c" id 0)
      0%Q "op" None Types.INTERNAL None None in
  '(st, outer) ← start st "00000000000000a1";
  '(st, parent) ← start st "00000000000000b2";
  '(st, child) ← start st "00000000000000c3";
  let parent_rec := Tracer.is_recording st parent in
  let child_rec := Tracer.is_recording st child in
  '(st, _) ← Tracer.end_span st child 10;
  let active3 := Tracer.get_active_span st in
  '(st, _) ← Tracer.end_span st parent 20;
  Some (outer,
        mkNestedRun parent child parent_rec child_rec active3
          (Tracer.get_active_span st)).

(** The batches handed to [send_payload], in order. *)
Definition sent_batches {A} (w : Transport.World A) : list (string * list A) :=
  omap (fun ev => match ev with
                  | Transport.Send k b => Some (k, b)
                  | _ => None
                  end) (Transport.trace w).

(** The delays slept, in order. *)
Definition delays {A} (w : Transport.World A) : list Z :=
  omap (fun ev => match ev with
                  | Transport.Sleep d => Some d
                  | _ => None
                  end) (Transport.trace w).

(** The delay before the retry that follows attempt [a]. *)
Definition capped_delay (a : Z) : Z := Z.min (2 ^ a) 10.

(** Errors enqueued one at a time, up to the first exception. *)
Fixpoint send_errors {A} (t : Transport.BaseTransport A) (w : Transport.World A)
    (errors : list A)
  : Transport.BaseTransport A * Transport.World A * option Py.exn :=
  match errors with
  | [] => (t, w, None)
  | error :: rest =>
      match Transport.send_error t w error with
      | (t, w, None) => send_errors t w rest
      | r => r
      end
  end.

(** A backend on which every send fails with an [Exception]. *)
Definition always_failing : nat -> Transport.send_result :=
  fun _ => Transport.Fails "HTTP 503".

(** A transport that retries 1026 times, the world before its first send,
    and the outcome of sending one batch. *)
Definition stubborn_transport : Transport.BaseTransport nat :=
  Transport.mkBaseTransport 100 1026 false [] [] [].

Definition failing_world : Transport.World nat :=
  Transport.mkWorld always_failing O [].

Definition stubborn_outcome : nat * nat * option Py.exn :=
  let '(w, r) :=
    Transport._send_with_retry stubborn_transport failing_world "errors" [7%nat] in
  (length (sent_batches w), length (delays w), r).

(** *** Scopes *)

Local Notation "x <- m ;; k" := (Scope.bind m (fun x => k))
  (at level 100, m at next level, right associativity).

(** The arguments of one [add_breadcrumb] call and the clock at the call. *)
Record crumb_args := mkCrumbArgs {
  arg_type : BreadcrumbType.t;
  arg_category : string;
  arg_message : option string;
  arg_data : option nat;
  arg_level : BreadcrumbLevel.t;
  arg_now : string
}.

(** The breadcrumb that [add_breadcrumb] builds from its arguments. *)
Definition crumb_of (a : crumb_args) : Scope.Breadcrumb :=
  Scope.mkBreadcrumb (arg_type a) (arg_category a) (arg_now a +:+ "Z")
    (arg_message a) (arg_data a) (arg_level a).

(** A sequence of [add_breadcrumb] calls on one scope. *)
Fixpoint add_breadcrumbs (s : Scope.Scope) (cs : list crumb_args)
  : Scope.M Scope.Scope :=
  match cs with
  | [] => Scope.ret s
  | a :: rest =>
      s' <- Scope.add_breadcrumb s (arg_type a) (arg_category a)
              (arg_message a) (arg_data a) (arg_level a) (arg_now a) ;;
      add_breadcrumbs s' rest
  end.

Definition read_dict (h : list Scope.object) (l : nat)
  : option (gmap string Scope.value) :=
  match h !! l with
  | Some (Scope.Dict d) => Some d
  | _ => None
  end.

Definition read_list (h : list Scope.object) (l : nat)
  : option (list Scope.value) :=
  match h !! l with
  | Some (Scope.List x) => Some x
  | _ => None
  end.

Definition read_crumb (h : list Scope.object) (v : Scope.value)
  : option Scope.Breadcrumb :=
  match v with
  | Scope.VRef l =>
      match h !! l with
      | Some (Scope.Crumb b) => Some b
      | _ => None
      end
  | _ => None
  end.

(** The breadcrumbs of a scope, oldest first: [list(scope.breadcrumbs)]
    with every entry read. *)
Definition read_breadcrumbs (h : list Scope.object) (s : Scope.Scope)
  : option (list Scope.Breadcrumb) :=
  l ← read_list h (Scope.breadcrumbs s); mapM (read_crumb h) l.

Definition read_optional {X} (read : nat -> option X) (o : option nat)
  : option (option X) :=
  match o with
  | None => Some None
  | Some l => Some <$> read l
  end.

(** What a scope holds in its own dicts and lists.  An entry that is a
    reference is compared as a reference: the object behind it is not part
    of the snapshot. *)
Record Snapshot := mkSnapshot {
  snap_user : option (gmap string Scope.value);
  snap_tags : gmap string Scope.value;
  snap_extra : gmap string Scope.value;
  snap_breadcrumbs : list Scope.value;
  snap_fingerprint : option (list Scope.value);
  snap_max : Z
}.

Definition snapshot (h : list Scope.object) (s : Scope.Scope) : option Snapshot :=
  u ← read_optional (read_dict h) (Scope.user s);
  t ← read_dict h (Scope.tags s);
  e ← read_dict h (Scope.extra s);
  b ← read_list h (Scope.breadcrumbs s);
  f ← read_optional (read_list h) (Scope.fingerprint s);
  Some (mkSnapshot u t e b f (Scope._max_breadcrumbs s)).

(** The snapshot of a clone: an empty user dict or fingerprint list is
    cloned as [None]. *)
Definition cloned (snap : Snapshot) : Snapshot :=
  mkSnapshot
    (match snap_user snap with
     | Some d => if decide (d = ∅) then None else Some d
     | None => None
     end)
    (snap_tags snap) (snap_extra snap) (snap_breadcrumbs snap)
    (match snap_fingerprint snap with
     | Some [] | None => None
     | Some l => Some l
     end)
    (snap_max snap).

(** Client code: [scope.breadcrumbs[i].data[key] = v]. *)
Definition set_crumb_data (s : Scope.Scope) (i : nat) (key : string)
    (v : Scope.value) : Scope.M unit :=
  l <- Scope.get_list (Scope.breadcrumbs s) ;;
  match l !! i with
  | Some (Scope.VRef r) =>
      b <- Scope.get_crumb r ;;
      match Scope.data b with
      | Some ld =>
          d <- Scope.get_dict ld ;;
          Scope.put ld (Scope.Dict (<[key := v]> d))
      | None => Scope.raise Py.TypeError
      end
  | Some _ => Scope.raise Py.AttributeError
  | None => Scope.raise Py.IndexError
  end.

(** Client code: [scope.breadcrumbs[i].data[key]]. *)
Definition get_crumb_data (s : Scope.Scope) (i : nat) (key : string)
  : Scope.M Scope.value :=
  l <- Scope.get_list (Scope.breadcrumbs s) ;;
  match l !! i with
  | Some (Scope.VRef r) =>
      b <- Scope.get_crumb r ;;
      match Scope.data b with
      | Some ld =>
          d <- Scope.get_dict ld ;;
          match d !! key with
          | Some v => Scope.ret v
          | None => Scope.raise Py.KeyError
          end
      | None => Scope.raise Py.TypeError
      end
  | Some _ => Scope.raise Py.AttributeError
  | None => Scope.raise Py.IndexError
  end.

(** A scope gets a breadcrumb whose [data] is [{"attempt": 1}] and is
    cloned; client code then sets [data["attempt"] = 2] through the clone.
    The result is [data["attempt"]] read through the source scope before
    and after that assignment. *)
Definition shared_breadcrumb_data : Py.exn + (Scope.value * Scope.value) :=
  let run :=
    source <- Scope.init 100 ;;
    d <- Scope.alloc (Scope.Dict {["attempt" := Scope.VInt 1]}) ;;
    source <- Scope.add_breadcrumb source BreadcrumbType.HTTP "http" None
                (Some d) BreadcrumbLevel.INFO "2024-01-01T00:00:00+00:00" ;;
    copy <- Scope.clone source ;;
    before <- get_crumb_data source 0 "attempt" ;;
    _ <- set_crumb_data copy 0 "attempt" (Scope.VInt 2) ;;
    after <- get_crumb_data source 0 "attempt" ;;
    Scope.ret (before, after) in
  match run [] with
  | inl e => inl e
  | inr (r, _) => inr r
  end.

(** The objects a scope updates in place, and all the objects its snapshot
    reads. *)
Definition own_locs (s : Scope.Scope) : list nat :=
  [Scope.tags s; Scope.extra s; Scope.breadcrumbs s].

Definition all_locs (s : Scope.Scope) : list nat :=
  own_locs s ++ option_list (Scope.user s) ++ option_list (Scope.fingerprint s).

(** The objects a call hands to the scope by reference. *)
Definition ref_args (c : Scope.call) : list nat :=
  match c with
  | Scope.SetUser (Some r) => [r]
  | Scope.SetFingerprint r => [r]
  | _ => []
  end.

(** Two scopes on one heap, and the [Scope] method calls made on them.  A
    call may be handed any live object by reference, except a dict or list
    that the other scope updates in place. *)
Definition pair_state : Type := list Scope.object * Scope.Scope * Scope.Scope.

Definition respects (h : list Scope.object) (other : Scope.Scope)
    (c : Scope.call) : Prop :=
  forall r, r ∈ ref_args c -> (r < length h)%nat /\ r ∉ own_locs other.

Inductive pair_step : pair_state -> pair_state -> Prop :=
| step_first h a b c a' h' :
    Scope.invoke a c h = inr (a', h') -> respects h b c ->
    pair_step (h, a, b) (h', a', b)
| step_second h a b c b' h' :
    Scope.invoke b c h = inr (b', h') -> respects h a c ->
    pair_step (h, a, b) (h', a, b').

(** No scope updates in place an object that the other one reads. *)
Definition separated (st : pair_state) : Prop :=
  let '(h, a, b) := st in
  (forall l, l ∈ all_locs a -> (l < length h)%nat) /\
  (forall l, l ∈ all_locs b -> (l < length h)%nat) /\
  (forall l, l ∈ own_locs a -> l ∉ all_locs b) /\
  (forall l, l ∈ own_locs b -> l ∉ all_locs a).

(** ** Vocabulary of the further properties *)

(** *** Headers *)

(** A string of white space only. *)
Definition all_space (s : string) : bool := Py.all_chars Py.is_space s.

(** A well-formed version-00 [traceparent]: 32, 16 and 2 hex digits of
    either case, the two identifiers not all zero. *)
Definition well_formed_fields (t s f : string) : bool :=
  is_hex_field 32 t && negb (String.eqb t (Py.repeat_char "0" 32))
  && is_hex_field 16 s && negb (String.eqb s (Py.repeat_char "0" 16))
  && is_hex_field 2 f.

(** Identifiers and flags that [create_traceparent] encodes faithfully. *)
Definition valid_ids (ctx : Context.SpanContext) : bool :=
  valid_id 32 (Context.trace_id ctx) && valid_id 16 (Context.span_id ctx)
  && (0 <=? Context.trace_flags ctx).

(** A tracestate dict that [create_tracestate] encodes faithfully: no key
    with [","] or ["="] or leading white space, no value with [","] or
    trailing white space, no key twice. *)
Definition no_char (c : ascii) (s : string) : bool :=
  negb (PyStr.contains_char c s).

Definition plain_item (kv : string * string) : bool :=
  no_char "," (fst kv) && no_char "=" (fst kv) && no_char "," (snd kv)
  && String.eqb (Py.lstrip (fst kv)) (fst kv)
  && String.eqb (Py.rstrip (snd kv)) (snd kv).

Definition plain_state (state : list (string * string)) : Prop :=
  forallb plain_item state = true /\ NoDup (fst <$> state).

(** Nothing left in [headers] that [extract_trace_context] would take for
    the vendor state of a context that has none; a vendor state that is
    there is not empty. *)
Definition no_stale_state (headers : gmap string string)
    (ctx : Context.SpanContext) : Prop :=
  match Context.trace_state ctx with
  | Some ts => ts <> ""
  | None => Context.truthy (headers !! "tracestate") = false /\
            Context.truthy (headers !! "Tracestate") = false
  end.

(** The value [headers.get(k)] of a header dict. *)
Definition header_get (headers : gmap string (option string)) (k : string)
  : option string :=
  match headers !! k with Some v => v | None => None end.

(** *** Spans and batches *)

(** The context a new span is started under: that of the explicit parent
    span, else the ambient context; undefined for a parent handle that names
    no object. *)
Definition parent_context (st : Tracer.State) (parent_span : option nat)
  : option (option Context.SpanContext) :=
  match parent_span with
  | Some p => (fun o => Some (Span.object_span_context o)) <$> Tracer.heap st !! p
  | None => Some (Tracer._current_context st)
  end.

(** The trace a span started under [parent] and with the random source [e]
    belongs to. *)
Definition joined_trace (e : Span.Entropy) (parent : option Context.SpanContext)
  : string :=
  match parent with
  | Some c => if String.eqb (Context.trace_id c) "" then Span.rand_trace_id e
              else Context.trace_id c
  | None => Span.rand_trace_id e
  end.

(** The next [k] sends fail with an [Exception], the one after them goes
    through. *)
Definition fails_then_sent {A} (w : Transport.World A) (k : nat) : Prop :=
  (forall i, (i < k)%nat ->
     exists m, Transport.network w (Transport.sends w + i) = Transport.Fails m) /\
  Transport.network w (Transport.sends w + k) = Transport.Sent.

(** A backend that accepts every send. *)
Definition always_sent : nat -> Transport.send_result := fun _ => Transport.Sent.

(** The batch one flush takes from a queue: none from an empty queue. *)
Definition batch_of {A} (kind : string) (max_batch_size : Z) (queue : list A)
  : list (string * list A) :=
  match queue with
  | [] => []
  | _ => [(kind, Py.slice_to queue max_batch_size)]
  end.

(** The outcome of [_send_with_retry] when its last send was attempt number
    [attempt] and was answered by [r]: a failure that is not the last
    attempt ends the loop only if the delay cannot be computed. *)
Definition retry_result (r : Transport.send_result) (attempt max_retries : Z)
    (out : option Py.exn) : Prop :=
  match r with
  | Transport.Sent => out = None
  | Transport.Escapes e => out = Some (Py.BaseException e)
  | Transport.Fails _ =>
      if attempt <? max_retries - 1
      then out = Some Py.OverflowError /\ 1024 <= attempt
      else out = None
  end.

(** What a flush does to one queue: [batch], the oldest items, has left the
    queue, and that batch is what was sent, [m] times; nothing is sent for
    an empty queue. *)
Definition flushed {A} (kind : string) (max_batch_size max_retries : Z)
    (before after : list A) (w w' : Transport.World A) : Prop :=
  exists batch m,
    before = batch ++ after /\
    (1 <= max_batch_size ->
     length batch = Nat.min (Z.to_nat max_batch_size) (length before)) /\
    Z.of_nat m <= Z.max 0 max_retries /\
    (before = [] -> m = O) /\
    sent_batches w' = sent_batches w ++ replicate m (kind, batch).

(** *** DSNs *)

Definition line_feed : ascii := ascii_of_nat 10.

(** The parts of a DSN as its format asks for them: a known protocol, a key
    without ["@"], a host without ["/"], a project id of one line, none of
    them empty. *)
Definition dsn_parts_ok (p : Config.ParsedDSN) : bool :=
  (String.eqb (Config.protocol p) "syn" || String.eqb (Config.protocol p) "http"
   || String.eqb (Config.protocol p) "https")
  && negb (String.eqb (Config.public_key p) "") && no_char "@" (Config.public_key p)
  && negb (String.eqb (Config.host p) "") && no_char "/" (Config.host p)
  && negb (String.eqb (Config.project_id p) "")
  && no_char line_feed (Config.project_id p).

(** [<protocol>://<public_key>@<host>/<project_id>] *)
Definition format_dsn (p : Config.ParsedDSN) : string :=
  Config.protocol p +:+ "://" +:+ Config.public_key p +:+ "@" +:+ Config.host p
  +:+ "/" +:+ Config.project_id p.

(** *** Breadcrumb buffers *)

(** One call on a [BreadcrumbBuffer]. *)
Inductive buffer_call :=
| BufferAdd (a : crumb_args)
| BufferClear.

Definition buffer_invoke (b : BreadcrumbBuffer.BreadcrumbBuffer) (c : buffer_call)
  : Py.exn + BreadcrumbBuffer.BreadcrumbBuffer :=
  match c with
  | BufferAdd a =>
      BreadcrumbBuffer.add b (arg_type a) (arg_category a) (arg_message a)
        (arg_data a) (arg_level a) (arg_now a)
  | BufferClear => inr (BreadcrumbBuffer.clear b)
  end.

(** A sequence of calls, up to the first exception. *)
Fixpoint buffer_run (b : BreadcrumbBuffer.BreadcrumbBuffer) (cs : list buffer_call)
  : Py.exn + BreadcrumbBuffer.BreadcrumbBuffer :=
  match cs with
  | [] => inr b
  | c :: rest =>
      match buffer_invoke b c with
      | inl e => inl e
      | inr b' => buffer_run b' rest
      end
  end.

(** The breadcrumbs added and not cleared since, oldest first, in a buffer
    without a bound that held [held] before the calls. *)
Definition replay (held : list Scope.Breadcrumb) (cs : list buffer_call)
  : list Scope.Breadcrumb :=
  fold_left (fun acc c => match c with
                          | BufferAdd a => acc ++ [crumb_of a]
                          | BufferClear => []
                          end) cs held.

(** The last [k] entries of a list. *)
Definition last_entries {X} (k : nat) (l : list X) : list X :=
  drop (length l - k) l.

(** *** OTLP *)

(** The severity order of the log levels. *)
Definition LogLevel_rank (l : EnumValue.LogLevel) : Z :=
  match l with
  | EnumValue.LTRACE => 0
  | EnumValue.LDEBUG => 1
  | EnumValue.LINFO => 2
  | EnumValue.LWARN => 3
  | EnumValue.LERROR => 4
  | EnumValue.LFATAL => 5
  end.

(** An [AnyValue] of the boolean kind. *)
Definition is_bool_value (v : Otlp.AnyValue) : bool :=
  match v with
  | Otlp.bool_value _ => true
  | _ => false
  end.

(** *** Traced functions *)

(** What the caller of a traced function gets. *)
Definition propagated {R} (out : Decorators.outcome R) : Py.exn + R :=
  match out with
  | Decorators.Returned r => inr r
  | Decorators.Raised msg => inl (Py.Exception msg)
  | Decorators.Escaped msg => inl (Py.BaseException msg)
  end.

(** The status the wrapper gives the span. *)
Definition status_after {R} (out : Decorators.outcome R) : Types.SpanStatus :=
  match out with
  | Decorators.Returned _ => Types.mkSpanStatus Types.OK None
  | Decorators.Raised msg => Types.mkSpanStatus Types.ERROR (Some msg)
  | Decorators.Escaped _ => Types.default_status
  end.

(** Every handle in the registry names an object. *)
Definition registry_live (st : Tracer.State) : Prop :=
  forall k ph, Tracer._active_spans st !! k = Some ph ->
    is_Some (Tracer.heap st !! ph).


(** What asking for a flush task does when one more record is queued:
    [asyncio.create_task] raises without a running event loop. *)
Definition task_error (st : Tracer.State) : option Py.exn :=
  if (100 <=? S (length (Tracer._finished_spans st)))%nat
     && negb (Tracer.loop_running st)
  then Some Py.RuntimeError else None.

(** *** Hooks and URLs *)

(** One call of the two functions of [integrations/excepthook.py]. *)
Inductive hook_call := Install | Uninstall.

Definition hook_invoke {H} (s : Excepthook.State H) (c : hook_call)
  : Excepthook.State H :=
  match c with
  | Install => Excepthook.install_excepthook s
  | Uninstall => Excepthook.uninstall_excepthook s
  end.

(** A host that [create_http_transport] takes for a local one. *)
Definition local_host (host : string) : bool :=
  Http.contains "localhost" host || Http.contains "127.0.0.1" host.

(** ** Proof automation *)

(** Case analysis on the 256 characters. *)
Ltac each_ascii c :=
  destruct c as [[|] [|] [|] [|] [|] [|] [|] [|]].

(** The three ways [on_span_end] can finish. *)
Ltac finish_on_span_end :=
  repeat match goal with
  | |- context [(100 <=? ?n)%nat] => destruct (100 <=? n)%nat
  | |- context [Tracer.loop_running ?st] => destruct (Tracer.loop_running st)
  end;
  do 2 eexists; (split; [reflexivity |]); cbn; auto.

(** A heap grown by allocations, written as [h ++ [o1; ...; on]], and the
    lookups in it. *)
Ltac heap_normal :=
  rewrite <- ?app_assoc in *; cbn [app] in *;
  rewrite ?length_app in *; cbn [length] in *.

Ltac heap_lookup :=
  repeat first
    [ match goal with
      | |- context [ (?h ++ ?e) !! (length ?h + ?k)%nat ] =>
          rewrite (lookup_app_r h e (length h + k)) by lia;
          replace (length h + k - length h)%nat with k by lia
      end
    | rewrite list_lookup_middle by reflexivity
    | rewrite lookup_app_l by lia ];
  cbn [lookup list_lookup].

(** One case of [clone]: the result, the old objects, the new references,
    the snapshot of the copy. *)
Ltac clone_case :=
  do 2 eexists; split; [reflexivity |];
  split;
    [ intros l Hl; heap_normal; now rewrite lookup_app_l by lia |];
  split;
    [ intros l Hl; unfold all_locs, own_locs in Hl; cbn in Hl;
      heap_normal; set_unfold; intuition subst; lia |];
  unfold snapshot, read_optional, read_dict, read_list, cloned;
  cbn [Scope.user Scope.tags Scope.extra Scope.breadcrumbs Scope.fingerprint
       Scope._max_breadcrumbs snap_user snap_tags snap_extra snap_breadcrumbs
       snap_fingerprint snap_max];
  heap_normal; heap_lookup;
  rewrite ?decide_True by reflexivity; rewrite ?decide_False by assumption;
  reflexivity.

(** * Properties *)

(** ** Characters and strings *)

Lemma is_hex_not_space c : Py.is_hex c = true -> Py.is_space c = false.
Proof. each_ascii c; vm_compute; congruence. Qed.

Lemma is_hex_not_dash c : Py.is_hex c = true -> Ascii.eqb c "-" = false.
Proof. each_ascii c; vm_compute; congruence. Qed.

Lemma is_lower_hex_is_hex c : Py.is_lower_hex c = true -> Py.is_hex c = true.
Proof. each_ascii c; vm_compute; congruence. Qed.

Lemma is_lower_hex_lower c : Py.is_lower_hex c = true -> Py.lower_char c = c.
Proof. each_ascii c; vm_compute; congruence. Qed.

Lemma is_hex_scan c :
  Py.is_hex c = true ->
  (Py.code c =? 95) = false /\ exists d, Py.hex_val c = Some d.
Proof. each_ascii c; vm_compute; try congruence; eauto. Qed.

Lemma is_hex_int_head c :
  Py.is_hex c = true ->
  Py.is_int_space c = false /\ (Py.code c =? 43) = false /\
  (Py.code c =? 45) = false /\ (Py.code c =? 120) = false /\
  (Py.code c =? 88) = false /\ (Py.code c =? 95) = false.
Proof. each_ascii c; vm_compute; intuition congruence. Qed.

Lemma hex_char_spec d :
  0 <= d < 16 ->
  Py.is_lower_hex (Py.hex_char d) = true /\ Py.hex_val (Py.hex_char d) = Some d.
Proof.
  intros Hd.
  assert (Hc : In d [0; 1; 2; 3; 4; 5; 6; 7; 8; 9; 10; 11; 12; 13; 14; 15])
    by (simpl; lia).
  simpl in Hc.
  repeat (destruct Hc as [<- | Hc]; [vm_compute; auto |]).
  destruct Hc.
Qed.

Lemma app_cons c (a b : string) : String c a +:+ b = String c (a +:+ b).
Proof. reflexivity. Qed.

Lemma app_nil (b : string) : EmptyString +:+ b = b.
Proof. reflexivity. Qed.

Lemma all_chars_app p a b :
  Py.all_chars p (a +:+ b) = Py.all_chars p a && Py.all_chars p b.
Proof.
  induction a as [| c a IH]; [reflexivity |].
  rewrite app_cons. simpl. rewrite IH. apply andb_assoc.
Qed.

Lemma all_chars_impl (p q : ascii -> bool) s :
  (forall c, p c = true -> q c = true) ->
  Py.all_chars p s = true -> Py.all_chars q s = true.
Proof.
  intros Hpq. induction s as [| c s IH]; simpl; [reflexivity |].
  intros [Hc Hs]%andb_prop. rewrite (Hpq _ Hc), (IH Hs). reflexivity.
Qed.

Lemma string_app_assoc (a b c : string) : (a +:+ b) +:+ c = a +:+ (b +:+ c).
Proof.
  induction a as [| x a IH]; [reflexivity |].
  rewrite !app_cons. now f_equal.
Qed.

Lemma string_length_app (a b : string) :
  String.length (a +:+ b) = (String.length a + String.length b)%nat.
Proof.
  induction a as [| x a IH]; [reflexivity |].
  rewrite app_cons. simpl. now f_equal.
Qed.

(** [strip] leaves a string without white space alone. *)
Lemma lstrip_no_space s :
  Py.all_chars (fun c => negb (Py.is_space c)) s = true -> Py.lstrip s = s.
Proof.
  destruct s as [| c s]; simpl; [reflexivity |].
  intros [Hc _]%andb_prop. apply negb_true_iff in Hc. now rewrite Hc.
Qed.

Lemma rstrip_no_space s :
  Py.all_chars (fun c => negb (Py.is_space c)) s = true -> Py.rstrip s = s.
Proof.
  induction s as [| c s IH]; simpl; [reflexivity |].
  intros [Hc Hs]%andb_prop. apply negb_true_iff in Hc.
  rewrite (IH Hs), Hc. now destruct s.
Qed.

Lemma strip_no_space s :
  Py.all_chars (fun c => negb (Py.is_space c)) s = true -> Py.strip s = s.
Proof.
  intros H. unfold Py.strip. rewrite (lstrip_no_space _ H).
  now apply rstrip_no_space.
Qed.

(** [split] on a string whose first field is known. *)
Lemma split_no_sep sep s :
  Py.all_chars (fun c => negb (Ascii.eqb c sep)) s = true ->
  Py.split sep s = [s].
Proof.
  induction s as [| c s IH]; simpl; [reflexivity |].
  intros [Hc Hs]%andb_prop. apply negb_true_iff in Hc.
  now rewrite Hc, (IH Hs).
Qed.

Lemma split_app sep a b :
  Py.all_chars (fun c => negb (Ascii.eqb c sep)) a = true ->
  Py.split sep (a +:+ String sep b) = a :: Py.split sep b.
Proof.
  induction a as [| c a IH].
  - intros _. rewrite app_nil. simpl. now rewrite Ascii.eqb_refl.
  - rewrite app_cons. simpl. intros [Hc Ha]%andb_prop.
    apply negb_true_iff in Hc. now rewrite Hc, (IH Ha).
Qed.

Lemma re_match_hex_exact n s :
  String.length s = n -> Py.all_chars Py.is_hex s = true ->
  Py.re_match_hex n s = true.
Proof.
  revert s. induction n as [| n IH]; intros [| c s]; simpl; try discriminate.
  - reflexivity.
  - intros [= Hl] [Hc Hs]%andb_prop. now rewrite Hc, (IH s Hl Hs).
Qed.

Lemma lower_lower_hex s :
  Py.all_chars Py.is_lower_hex s = true -> Py.lower s = s.
Proof.
  induction s as [| c s IH]; simpl; [reflexivity |].
  intros [Hc Hs]%andb_prop. now rewrite (is_lower_hex_lower _ Hc), (IH Hs).
Qed.

(** ** [int(s, 16)] reads back what the ["02x"] format prints *)

Lemma scan_hex_digits s : forall acc nd,
  Py.all_chars Py.is_hex s = true ->
  Py.scan_hex s false acc nd
  = Some (hex_value acc s, (nd + String.length s)%nat, EmptyString).
Proof.
  induction s as [| c s IH]; simpl; intros acc nd.
  - intros _. now rewrite Nat.add_0_r.
  - intros [Hc Hs]%andb_prop.
    destruct (is_hex_scan _ Hc) as [-> [d ->]].
    rewrite (IH _ _ Hs). now rewrite Nat.add_succ_r.
Qed.

Lemma int16_digits s :
  s <> EmptyString -> Py.all_chars Py.is_hex s = true ->
  Py.int16 s = Some (hex_value 0 s).
Proof.
  destruct s as [| c0 s]; [congruence |]. intros _ Hall.
  pose proof Hall as [Hc0 Hs]%andb_prop.
  destruct (is_hex_int_head _ Hc0) as (Hsp & Hplus & Hminus & _ & _ & Hus).
  unfold Py.int16. cbn [Py.skip_int_space]. rewrite Hsp, Hplus, Hminus.
  assert (Hs3 :
    match String c0 s with
    | String c0 (String c1 r) =>
        if (Py.code c0 =? 48) && ((Py.code c1 =? 120) || (Py.code c1 =? 88)) then
          match r with
          | String c2 r' => if Py.code c2 =? 95 then r' else r
          | EmptyString => r
          end
        else String c0 s
    | _ => String c0 s
    end = String c0 s).
  { destruct s as [| c1 r]; [reflexivity |].
    simpl in Hs. apply andb_prop in Hs as [Hc1 _].
    destruct (is_hex_int_head _ Hc1) as (_ & _ & _ & Hx & HX & _).
    rewrite Hx, HX. simpl. now rewrite andb_false_r. }
  rewrite Hs3, Hus, (scan_hex_digits _ _ _ Hall). reflexivity.
Qed.

Lemma hex_value_app s : forall acc t,
  hex_value acc (s +:+ t) = hex_value (hex_value acc s) t.
Proof.
  induction s as [| c s IH]; intros; [reflexivity |].
  rewrite app_cons. simpl. apply IH.
Qed.

Lemma hex_digits_acc fuel : forall n acc,
  Py.hex_digits fuel n acc = Py.hex_digits fuel n EmptyString +:+ acc.
Proof.
  induction fuel as [| f IH]; intros n acc; simpl; [reflexivity |].
  destruct (n / 16 =? 0); [reflexivity |].
  rewrite (IH _ (String _ acc)), (IH _ (String _ EmptyString)).
  now rewrite string_app_assoc.
Qed.

Lemma hex_digits_spec fuel : forall n,
  0 <= n < 16 ^ Z.of_nat (S fuel) ->
  let s := Py.hex_digits (S fuel) n EmptyString in
  Py.all_chars Py.is_lower_hex s = true /\ hex_value 0 s = n /\
  s <> EmptyString.
Proof.
  induction fuel as [| f IH]; intros n Hn;
    assert (Hm : 0 <= n mod 16 < 16) by (apply Z.mod_pos_bound; lia);
    destruct (hex_char_spec _ Hm) as [Hlow Hval];
    pose proof (Z.div_mod n 16 ltac:(lia)) as Hdm.
  - assert (Hq : n / 16 = 0) by (apply Z.div_small; simpl in Hn; lia).
    cbn [Py.hex_digits]. rewrite Hq. cbn. rewrite Hlow, Hval.
    repeat split; [lia | congruence].
  - remember (S f) as k eqn:Hk. cbn [Py.hex_digits].
    destruct (Z.eqb_spec (n / 16) 0) as [Hq | Hq].
    + cbn. rewrite Hlow, Hval. repeat split; [lia | congruence].
    + assert (Hq' : 0 <= n / 16 < 16 ^ Z.of_nat k).
      { split; [apply Z.div_pos; lia |].
        apply Z.div_lt_upper_bound; [lia |].
        rewrite Nat2Z.inj_succ, Z.pow_succ_r in Hn; lia. }
      subst k. destruct (IH _ Hq') as (Hall & Hv & Hne).
      rewrite hex_digits_acc. cbv zeta.
      rewrite all_chars_app, Hall, hex_value_app, Hv. cbn.
      rewrite Hlow, Hval. repeat split; [lia |].
      intros Happ. apply (f_equal String.length) in Happ.
      rewrite string_length_app in Happ. simpl in Happ. lia.
Qed.

Lemma hex_spec n :
  0 <= n ->
  Py.all_chars Py.is_lower_hex (Py.hex n) = true /\
  hex_value 0 (Py.hex n) = n /\ Py.hex n <> EmptyString.
Proof.
  intros Hn. apply hex_digits_spec. split; [lia |].
  destruct (Z.eq_dec n 0) as [-> | Hnz]; [reflexivity |].
  rewrite Nat2Z.inj_succ, Z2Nat.id by apply Z.log2_nonneg.
  pose proof (Z.log2_nonneg n) as Hl.
  pose proof (Z.log2_spec n ltac:(lia)) as [_ Hlt].
  eapply Z.lt_le_trans; [exact Hlt |].
  change 16 with (2 ^ 4). rewrite <- Z.pow_mul_r by (pose proof (Z.log2_nonneg n); lia).
  apply Z.pow_le_mono_r; pose proof (Z.log2_nonneg n); lia.
Qed.

Lemma format_02x_spec n :
  0 <= n ->
  Py.all_chars Py.is_lower_hex (Py.format_02x n) = true /\
  Py.int16 (Py.format_02x n) = Some n.
Proof.
  intros Hn. destruct (hex_spec n Hn) as (Hall & Hv & Hne).
  unfold Py.format_02x. destruct (Z.ltb_spec n 0) as [? | _]; [lia |].
  cbv zeta. destruct (String.length (Py.hex n) <? 2)%nat.
  - assert (Hall' : Py.all_chars Py.is_lower_hex (String "0" (Py.hex n)) = true)
      by (simpl; now rewrite Hall).
    split; [exact Hall' |].
    rewrite int16_digits; [| congruence |].
    + change (hex_value 0 (String "0" (Py.hex n))) with (hex_value 0 (Py.hex n)).
      now rewrite Hv.
    + eapply all_chars_impl; [apply is_lower_hex_is_hex | exact Hall'].
  - split; [exact Hall |].
    rewrite int16_digits; [now rewrite Hv | exact Hne |].
    eapply all_chars_impl; [apply is_lower_hex_is_hex | exact Hall].
Qed.

(** ** The trace-context codec *)

Lemma valid_id_spec n s :
  valid_id n s = true ->
  String.length s = n /\ Py.all_chars Py.is_lower_hex s = true /\
  String.eqb s (Py.repeat_char "0" n) = false.
Proof.
  unfold valid_id. intros [[Hl Ha]%andb_prop Hz]%andb_prop.
  apply Nat.eqb_eq in Hl. apply negb_true_iff in Hz. auto.
Qed.

Lemma lower_hex_no_space s :
  Py.all_chars Py.is_lower_hex s = true ->
  Py.all_chars (fun c => negb (Py.is_space c)) s = true.
Proof.
  apply all_chars_impl. intros c Hc. apply negb_true_iff.
  now apply is_hex_not_space, is_lower_hex_is_hex.
Qed.

Lemma lower_hex_no_dash s :
  Py.all_chars Py.is_lower_hex s = true ->
  Py.all_chars (fun c => negb (Ascii.eqb c "-")) s = true.
Proof.
  apply all_chars_impl. intros c Hc. apply negb_true_iff.
  now apply is_hex_not_dash, is_lower_hex_is_hex.
Qed.

Lemma lower_hex_hex s :
  Py.all_chars Py.is_lower_hex s = true -> Py.all_chars Py.is_hex s = true.
Proof. apply all_chars_impl, is_lower_hex_is_hex. Qed.

(** C2: decoding the encoded header of a valid context (lower-case hex
    identifiers that are not all zero, no vendor state) gives the context
    back: [parse_traceparent (create_traceparent ctx) = ctx]. *)
Theorem traceparent_roundtrip (ctx : Context.SpanContext) :
  valid_context ctx = true ->
  Context.parse_traceparent (Context.create_traceparent ctx) = Some ctx.
Proof.
  destruct ctx as [tid sid fl st]. unfold valid_context. cbn.
  intros [[[Ht Hs]%andb_prop Hf]%andb_prop Hst]%andb_prop.
  destruct st as [st |]; [discriminate |].
  apply valid_id_spec in Ht as (Htl & Hth & Htz).
  apply valid_id_spec in Hs as (Hsl & Hsh & Hsz).
  apply Z.leb_le in Hf.
  destruct (format_02x_spec fl Hf) as [Hfh Hfi].
  change (Context.create_traceparent (Context.mkSpanContext tid sid fl None))
    with ("00" +:+ String "-" (tid +:+ String "-" (sid +:+ String "-" (Py.format_02x fl)))).
  set (rest2 := sid +:+ String "-" (Py.format_02x fl)).
  set (rest1 := tid +:+ String "-" rest2).
  unfold Context.parse_traceparent.
  change (String.eqb ("00" +:+ String "-" rest1) "") with false. cbv iota.
  rewrite strip_no_space.
  2:{ change ("00" +:+ String "-" rest1) with (String "0" (String "0" (String "-" rest1))).
      subst rest1 rest2. cbn [Py.all_chars].
      rewrite !all_chars_app. cbn [Py.all_chars].
      rewrite !all_chars_app. cbn [Py.all_chars].
      now rewrite !lower_hex_no_space by assumption. }
  rewrite split_app by reflexivity.
  subst rest1. rewrite split_app by now apply lower_hex_no_dash.
  subst rest2. rewrite split_app by now apply lower_hex_no_dash.
  rewrite split_no_sep by now apply lower_hex_no_dash.
  change (negb (String.eqb "00" "00")) with false. cbv iota.
  rewrite (re_match_hex_exact 32 tid Htl (lower_hex_hex _ Hth)).
  rewrite (re_match_hex_exact 16 sid Hsl (lower_hex_hex _ Hsh)).
  cbn [negb]. rewrite Htz, Hsz, Hfi.
  now rewrite !lower_lower_hex by assumption.
Qed.

Lemma traceparent_roundtrip_witness :
  Context.parse_traceparent
    (Context.create_traceparent
       (Context.mkSpanContext "4bf92f3577b34da6a3ce929d0e0e4736"
          "00f067aa0ba902b7" 1 None))
  = Some (Context.mkSpanContext "4bf92f3577b34da6a3ce929d0e0e4736"
            "00f067aa0ba902b7" 1 None).
Proof. apply traceparent_roundtrip. reflexivity. Defined.

Lemma is_hex_field_cons n c s :
  is_hex_field (S n) (String c s) = Py.is_hex c && is_hex_field n s.
Proof.
  unfold is_hex_field. cbn [String.length Py.all_chars].
  change (S (String.length s) =? S n)%nat with (String.length s =? n)%nat.
  destruct (String.length s =? n)%nat, (Py.is_hex c); reflexivity.
Qed.

(** What the pattern [^[0-9a-f]{n}$] accepts: [n] hex digits, or [n] hex
    digits and one final line feed. *)
Lemma re_match_hex_spec n s :
  Py.re_match_hex n s = true <->
  is_hex_field n s = true \/
  exists h, s = h +:+ String (ascii_of_nat 10) EmptyString /\ is_hex_field n h = true.
Proof.
  revert s. induction n as [| n IH]; intros s.
  - destruct s as [| c [| c' s]]; cbn [Py.re_match_hex].
    + split; [now left | reflexivity].
    + split.
      * intros Hc. right. exists EmptyString. split; [| reflexivity].
        rewrite app_nil. f_equal. revert Hc. each_ascii c; vm_compute; congruence.
      * intros [H | (h & Hh & Hl)]; [discriminate |].
        destruct h as [| x h]; [| discriminate].
        rewrite app_nil in Hh. now inversion Hh.
    + split; [discriminate |].
      intros [H | (h & Hh & Hl)]; [discriminate |].
      destruct h as [| x h]; [| discriminate].
      rewrite app_nil in Hh. discriminate.
  - destruct s as [| c s]; cbn [Py.re_match_hex].
    + split; [discriminate |].
      intros [H | (h & Hh & Hl)]; [discriminate |].
      destruct h; [discriminate |]. rewrite app_cons in Hh. discriminate.
    + rewrite andb_true_iff, IH, is_hex_field_cons, andb_true_iff. split.
      * intros [Hc [H | (h & -> & Hl)]]; [now left |].
        right. exists (String c h). split; [reflexivity |].
        now rewrite is_hex_field_cons, Hc, Hl.
      * intros [[Hc H] | (h & Hh & Hl)]; [now auto |].
        destruct h as [| x h]; [discriminate |].
        rewrite app_cons in Hh. inversion Hh; subst.
        rewrite is_hex_field_cons in Hl. apply andb_prop in Hl as [Hc Hl].
        split; [exact Hc |]. right. now exists h.
Qed.

(** Every check of [parse_traceparent] that fails yields [None]. *)
Lemma parse_traceparent_rejects header :
  match header_fields header with
  | [version; trace_id; span_id; flags_hex] =>
      version <> "00" \/
      Py.re_match_hex 32 trace_id = false \/
      trace_id = Py.repeat_char "0" 32 \/
      Py.re_match_hex 16 span_id = false \/
      span_id = Py.repeat_char "0" 16 \/
      Py.int16 flags_hex = None
  | _ => True
  end ->
  Context.parse_traceparent header = None.
Proof.
  unfold Context.parse_traceparent, header_fields.
  destruct (String.eqb header ""); [reflexivity |].
  destruct (Py.split "-" (Py.strip header)) as [| v [| t [| s [| f [| ? ?]]]]];
    try reflexivity.
  intros H.
  destruct (String.eqb_spec v "00") as [-> | Hv]; [| reflexivity]. cbn [negb].
  destruct (Py.re_match_hex 32 t) eqn:Ht; [| reflexivity]. cbn [negb].
  destruct (String.eqb_spec t (Py.repeat_char "0" 32)) as [-> | Htz]; [reflexivity |].
  destruct (Py.re_match_hex 16 s) eqn:Hs; [| reflexivity]. cbn [negb].
  destruct (String.eqb_spec s (Py.repeat_char "0" 16)) as [-> | Hsz]; [reflexivity |].
  destruct (Py.int16 f) eqn:Hf; [| reflexivity].
  intuition congruence.
Qed.

(** C3: [parse_traceparent] gives a span context for a header whose
    trace-id field is not 32 hex digits: the field has 33 characters, the 32
    digits and a final line feed, which [$] of the pattern lets through.
    The claim asks for an absent result for every such header. *)
Theorem parse_traceparent_accepts_line_feed :
  header_fields header_with_line_feed
  = ["00"; trace_id_with_line_feed; "00f067aa0ba902b7"; "01"] /\
  is_hex_field 32 trace_id_with_line_feed = false /\
  Context.parse_traceparent header_with_line_feed
  = Some (Context.mkSpanContext trace_id_with_line_feed "00f067aa0ba902b7" 1 None).
Proof. repeat split; vm_compute; reflexivity. Qed.

(** ** Spans *)

Lemma invoke_not_recording s c :
  Span.is_recording s = false -> Span.invoke s c = s.
Proof.
  unfold Span.is_recording. intros H.
  destruct c; cbn; unfold Span.set_status, Span.set_attribute,
    Span.set_attributes, Span.add_event, Span.end_; now rewrite H.
Qed.

Lemma invoke_all_not_recording calls : forall s,
  Span.is_recording s = false -> fold_left Span.invoke calls s = s.
Proof.
  induction calls as [| c calls IH]; intros s H; cbn; [reflexivity |].
  rewrite (invoke_not_recording s c H). now apply IH.
Qed.

Lemma end_not_recording s now : Span.is_recording (Span.end_ s now) = false.
Proof.
  unfold Span.end_, Span.is_recording.
  destruct (Span._recording s) eqn:H; cbn; [reflexivity | exact H].
Qed.

Lemma invoke_keeps_recording s c :
  Span.is_recording s = true -> (forall now, c <> Span.End now) ->
  Span.is_recording (Span.invoke s c) = true.
Proof.
  unfold Span.is_recording. intros H Hc.
  destruct c as [code message | key value | attrs | t name attributes | t];
    try (exfalso; eapply Hc; reflexivity);
    cbn; unfold Span.set_status, Span.set_attribute,
    Span.set_attributes, Span.add_event; rewrite H; cbn; rewrite ?H;
    reflexivity.
Qed.

(** C7: a span records from its creation until [end()] is first called and
    never again; a later [end()] and every later [set_status],
    [set_attribute], [set_attributes] and [add_event] leave the span
    (end time, duration, status, attributes, events) as it was. *)
Theorem span_end_irreversible_idempotent :
  (forall e name kind trace_id parent_span_id attributes,
     Span.is_recording
       (Span.SpanImpl_init e name kind trace_id parent_span_id attributes)
     = true) /\
  (forall s c, Span.is_recording s = true -> (forall now, c <> Span.End now) ->
     Span.is_recording (Span.invoke s c) = true) /\
  (forall s now, Span.is_recording s = true ->
     Span.is_recording (Span.end_ s now) = false /\
     Span._end_time_ns (Span.end_ s now) = Some now) /\
  (forall s now calls,
     let ended := Span.end_ s now in
     let later := fold_left Span.invoke calls ended in
     later = ended /\
     Span.is_recording later = false /\
     Span._end_time_ns later = Span._end_time_ns ended /\
     Span.duration_ns later = Span.duration_ns ended /\
     Span._status later = Span._status ended /\
     Span._attributes later = Span._attributes ended /\
     Span._events later = Span._events ended).
Proof.
  split; [reflexivity |]. split; [exact invoke_keeps_recording |]. split.
  - intros s now H. unfold Span.end_, Span.is_recording in *. now rewrite H.
  - intros s now calls ended later.
    assert (Heq : later = ended)
      by apply invoke_all_not_recording, end_not_recording.
    rewrite Heq. repeat split. apply end_not_recording.
Qed.

Lemma span_end_irreversible_idempotent_witness :
  let s := Span.SpanImpl_init (Span.mkEntropy "0af7651916cd43dd8448eb211c80319c"
             "b7ad6b7169203331" 100) "job" Types.INTERNAL None None None in
  let ended := Span.end_ s 250 in
  Span.is_recording (Span.invoke s (Span.SetStatus Types.OK None)) = true /\
  Span.is_recording ended = false /\
  fold_left Span.invoke
    [Span.End 900; Span.SetStatus Types.ERROR (Some "late");
     Span.SetAttribute "k" (Types.VInt 1); Span.AddEvent 901 "ev" None] ended
  = ended.
Proof.
  destruct span_end_irreversible_idempotent as (_ & Hkeep & Hend & Hlater).
  cbv zeta. split; [apply Hkeep; [reflexivity | discriminate] |].
  split; [apply Hend; reflexivity |]. apply Hlater.
Defined.

(** C10: the context of a [SpanImpl], hence of every recording span, has
    the sampled flag set whatever the state of the span, so that injecting it
    writes a [traceparent] ending in ["-01"]; the context of a [NoopSpan] has
    flags 0, and a [NoopSpan] has no parent span id. *)
Theorem span_context_flags :
  (forall s, Context.trace_flags (Span.span_context s) = 1) /\
  (forall o, Span.object_is_recording o = true ->
     Context.trace_flags (Span.object_span_context o) = 1) /\
  (forall current headers s,
     Context.inject_trace_context current headers (Some (Span.span_context s))
       !! Context.TRACEPARENT_HEADER
     = Some ("00-" +:+ Span._trace_id s +:+ "-" +:+ Span._span_id s +:+ "-01")) /\
  (forall n, Span.noop_is_recording n = false /\
             Context.trace_flags (Span.noop_span_context n) = 0 /\
             Span.noop_parent_span_id n = None).
Proof.
  split; [reflexivity |]. split.
  { intros [s | n] H; [reflexivity | discriminate]. }
  split; [| now repeat split].
  intros current headers s. unfold Context.inject_trace_context. cbn.
  now rewrite lookup_insert_eq.
Qed.

Lemma span_context_flags_witness :
  let s := Span.end_
             (Span.SpanImpl_init
                (Span.mkEntropy "0af7651916cd43dd8448eb211c80319c"
                   "b7ad6b7169203331" 100) "job" Types.SERVER None None None)
             250 in
  let started := Span.Impl (Span.set_status
                   (Span.SpanImpl_init
                      (Span.mkEntropy "0af7651916cd43dd8448eb211c80319c"
                         "b7ad6b7169203331" 100) "job" Types.SERVER None None None)
                   Types.OK None) in
  Context.trace_flags (Span.object_span_context started) = 1 /\
  Context.inject_trace_context None ∅ (Some (Span.span_context s))
    !! Context.TRACEPARENT_HEADER
  = Some "00-0af7651916cd43dd8448eb211c80319c-b7ad6b7169203331-01".
Proof.
  destruct span_context_flags as (_ & Hrec & Hinject & _).
  cbv zeta. split; [apply Hrec; reflexivity | apply Hinject].
Defined.

(** ** Sampling *)

Lemma strictly_between_comparisons rate :
  strictly_between_0_1 rate ->
  Py.float_ge_int rate 1 = false /\ Py.float_le_int rate 0 = false.
Proof.
  destruct rate as [| | | q]; cbn; try tauto. intros [H0 H1]. split.
  - apply not_true_is_false. rewrite Qle_bool_iff.
    intros H. apply Qle_not_lt in H. apply H. exact H1.
  - apply not_true_is_false. rewrite Qle_bool_iff.
    intros H. apply Qle_not_lt in H. apply H. exact H0.
Qed.

Lemma float_ge_not_le rate :
  Py.float_le_int rate 0 = true -> Py.float_ge_int rate 1 = false.
Proof.
  destruct rate as [| | | q]; cbn; try congruence.
  rewrite Qle_bool_iff. intros H0. apply not_true_is_false.
  rewrite Qle_bool_iff. intros H1.
  assert (H : (inject_Z 1 <= inject_Z 0)%Q) by (eapply Qle_trans; eassumption).
  now apply Qle_bool_iff in H.
Qed.

(** What [start_span] returns, by the sampling decision. *)
Lemma start_span_recording st e u name op kind attributes parent_span st' h :
  Tracer.start_span st e u name op kind attributes parent_span = Some (st', h) ->
  Tracer.is_recording st' h = Some (Tracer._should_sample st u).
Proof.
  unfold Tracer.start_span, Tracer.is_recording.
  destruct (Tracer._should_sample st u); cbn [negb].
  - destruct (match parent_span with
              | Some p => _
              | None => _
              end) as [parent_context |]; [| discriminate].
    intros [= <- <-]. cbn. rewrite lookup_app_r by lia.
    rewrite Nat.sub_diag. cbn.
    destruct (Context.truthy op); reflexivity.
  - intros [= <- <-]. cbn. rewrite lookup_app_r by lia.
    now rewrite Nat.sub_diag.
Qed.

Lemma start_span_returns st e u name op kind attributes parent_span :
  match parent_span with
  | Some p => is_Some (Tracer.heap st !! p)
  | None => True
  end ->
  is_Some (Tracer.start_span st e u name op kind attributes parent_span).
Proof.
  intros Hp. unfold Tracer.start_span.
  destruct (Tracer._should_sample st u); cbn [negb]; [| eauto].
  destruct parent_span as [p |]; [| eauto].
  destruct Hp as [o ->]. cbn. eauto.
Qed.

(** C1: [start_span] returns a span, and that span is recording when the
    rate is at least 1; it is not recording when the rate is at most 0, even
    with a sampled ambient context; it is recording when the rate is strictly
    between 0 and 1 and the ambient context is present and sampled. *)
Theorem sampling_precedence st e u name op kind attributes parent_span :
  match parent_span with
  | Some p => is_Some (Tracer.heap st !! p)
  | None => True
  end ->
  exists st' h recording,
    Tracer.start_span st e u name op kind attributes parent_span = Some (st', h) /\
    Tracer.is_recording st' h = Some recording /\
    (Py.float_ge_int (Tracer.sample_rate st) 1 = true -> recording = true) /\
    (Py.float_le_int (Tracer.sample_rate st) 0 = true -> recording = false) /\
    (strictly_between_0_1 (Tracer.sample_rate st) -> ambient_sampled st ->
     recording = true).
Proof.
  intros Hp.
  destruct (start_span_returns st e u name op kind attributes parent_span Hp)
    as [[st' h] Hs].
  exists st', h, (Tracer._should_sample st u).
  split; [exact Hs |]. split; [now apply start_span_recording in Hs |].
  unfold Tracer._should_sample. repeat split.
  - now intros ->.
  - intros Hle. now rewrite (float_ge_not_le _ Hle), Hle.
  - intros [-> ->]%strictly_between_comparisons (context & -> & Hflags).
    now apply Z.eqb_neq in Hflags as ->.
Qed.

Lemma sampling_precedence_witness :
  let ctx := Context.mkSpanContext "0af7651916cd43dd8448eb211c80319c"
               "b7ad6b7169203331" 1 None in
  let st := Tracer.init "svc" "dep" (Py.Finite (1 # 1000)) (Some ctx) true in
  let e := Span.mkEntropy "4bf92f3577b34da6a3ce929d0e0e4736"
             "00f067aa0ba902b7" 5 in
  exists st' h,
    Tracer.start_span st e (9 # 10) "op" None Types.INTERNAL None None
    = Some (st', h) /\
    Tracer.is_recording st' h = Some true.
Proof.
  intros ctx st e.
  destruct (sampling_precedence st e (9 # 10) "op" None Types.INTERNAL None
              None I) as (st' & h & r & Hs & Hr & _ & _ & Hmid).
  exists st', h. split; [exact Hs |]. rewrite Hr. f_equal. apply Hmid.
  - cbn. split; reflexivity.
  - exists ctx. split; [reflexivity | cbn; discriminate].
Defined.

(** ** The active-span registry *)

Lemma start_span_sampled st e u name op kind attributes parent_span st' h :
  Tracer.start_span st e u name op kind attributes parent_span = Some (st', h) ->
  Tracer.is_recording st' h = Some true ->
  exists s,
    h = length (Tracer.heap st) /\
    st' = Tracer.set_current_context
            (Tracer.with_active_spans
               (Tracer.with_heap st (Tracer.heap st ++ [Span.Impl s]))
               (<[Span._span_id s := h]> (Tracer._active_spans st)))
            (Some (Span.span_context s)) /\
    Span._span_id s = Span.rand_span_id e /\
    Span._parent_span_id s
    = match parent_span with
      | Some p =>
          option_map (fun o => Context.span_id (Span.object_span_context o))
            (Tracer.heap st !! p)
      | None => option_map Context.span_id (Tracer._current_context st)
      end.
Proof.
  intros Hs Hr. rewrite (start_span_recording _ _ _ _ _ _ _ _ _ _ Hs) in Hr.
  injection Hr as Hr. revert Hs. unfold Tracer.start_span. rewrite Hr.
  cbn [negb].
  destruct parent_span as [p |].
  - destruct (Tracer.heap st !! p) as [o |]; [| discriminate]. cbn.
    intros [= <- <-]. eexists. split; [reflexivity |].
    split; [reflexivity |]. destruct (Context.truthy op); now split.
  - cbn. intros [= <- <-]. eexists. split; [reflexivity |].
    split; [reflexivity |]. destruct (Context.truthy op); now split.
Qed.

Lemma truthy_nonempty s : s <> "" -> Context.truthy (Some s) = true.
Proof.
  intros H. cbn. now destruct (String.eqb_spec s "").
Qed.

Lemma end_keeps_ids s now :
  Span._span_id (Span.end_ s now) = Span._span_id s /\
  Span._parent_span_id (Span.end_ s now) = Span._parent_span_id s /\
  Span.span_context (Span.end_ s now) = Span.span_context s.
Proof. unfold Span.end_. destruct (Span._recording s); now cbn. Qed.

(** [span.end(); tracer.on_span_end(span)] on a [SpanImpl] whose registry
    holds live handles only. *)
Lemma end_span_spec st h s now :
  Tracer.heap st !! h = Some (Span.Impl s) ->
  (forall k ph, Tracer._active_spans st !! k = Some ph ->
                is_Some (Tracer.heap st !! ph)) ->
  exists st' r,
    Tracer.end_span st h now = Some (st', r) /\
    Tracer._active_spans st' = delete (Span._span_id s) (Tracer._active_spans st) /\
    Tracer.heap st' = <[h := Span.Impl (Span.end_ s now)]> (Tracer.heap st) /\
    Tracer._current_context st'
    = if Context.truthy (Span._parent_span_id s) then
        match delete (Span._span_id s) (Tracer._active_spans st)
              !! default "" (Span._parent_span_id s) with
        | Some ph =>
            option_map Span.object_span_context
              (<[h := Span.Impl (Span.end_ s now)]> (Tracer.heap st) !! ph)
        | None => None
        end
      else None.
Proof.
  intros Hh Hlive.
  destruct (end_keeps_ids s now) as (Hid & Hpid & _).
  unfold Tracer.end_span, Tracer.call_span. rewrite Hh.
  unfold Tracer.on_span_end.
  cbn [Tracer.heap Tracer.with_heap Tracer._active_spans Tracer.with_active_spans
       Span.invoke_object Span.invoke].
  rewrite list_lookup_insert_eq by (apply lookup_lt_Some in Hh; exact Hh).
  cbn [Span.object_span_id Span.object_parent_span_id]. rewrite Hid, Hpid.
  destruct (Context.truthy (Span._parent_span_id s)).
  - destruct (delete (Span._span_id s) (Tracer._active_spans st)
              !! default "" (Span._parent_span_id s)) as [ph |] eqn:Hph.
    + assert (Hlt : (ph < length (Tracer.heap st))%nat).
      { apply lookup_delete_Some in Hph as [_ Hph].
        destruct (Hlive _ _ Hph) as [o Ho]. now apply lookup_lt_Some in Ho. }
      destruct (lookup_lt_is_Some_2
                  (<[h := Span.Impl (Span.end_ s now)]> (Tracer.heap st)) ph)
        as [o Ho]; [now rewrite length_insert |].
      rewrite Ho. cbn [option_map].
      finish_on_span_end.
    + finish_on_span_end.
  - finish_on_span_end.
Qed.

(** The registry invariant holds at the start and is kept by every
    operation of the tracer and of its spans. *)
Lemma registry_consistent_init service_id deployment_id rate ctx loop :
  registry_consistent (Tracer.init service_id deployment_id rate ctx loop).
Proof. intros k h Hk. cbn in Hk. now rewrite lookup_empty in Hk. Qed.

Lemma invoke_object_span_id o c :
  Span.object_span_id (Span.invoke_object o c) = Span.object_span_id o.
Proof.
  destruct o as [s | n]; [| reflexivity]. cbn.
  destruct c; cbn; unfold Span.set_status, Span.set_attribute,
    Span.set_attributes, Span.add_event, Span.end_;
    destruct (Span._recording s); reflexivity.
Qed.

Lemma registry_consistent_call_span st h c st' :
  registry_consistent st -> Tracer.call_span st h c = Some st' ->
  registry_consistent st'.
Proof.
  unfold Tracer.call_span. intros Hcons Hc.
  destruct (Tracer.heap st !! h) as [o |] eqn:Ho; [| discriminate].
  injection Hc as <-. intros k x Hk. cbn in Hk |- *.
  destruct (Hcons k x Hk) as (o' & Ho' & Hid).
  destruct (decide (x = h)) as [-> | Hne].
  - rewrite list_lookup_insert_eq by (now apply lookup_lt_Some in Ho).
    eexists. split; [reflexivity |]. rewrite invoke_object_span_id.
    congruence.
  - rewrite list_lookup_insert_ne by congruence. eauto.
Qed.

Lemma registry_consistent_start_span
    st e u name op kind attributes parent_span st' h :
  registry_consistent st ->
  Tracer.start_span st e u name op kind attributes parent_span = Some (st', h) ->
  registry_consistent st'.
Proof.
  intros Hcons Hs.
  destruct (Tracer._should_sample st u) eqn:Hsample.
  - assert (Hr : Tracer.is_recording st' h = Some true)
      by (rewrite (start_span_recording _ _ _ _ _ _ _ _ _ _ Hs); congruence).
    destruct (start_span_sampled _ _ _ _ _ _ _ _ _ _ Hs Hr)
      as (s & -> & -> & _ & _).
    intros k x Hk. cbn in Hk |- *.
    apply lookup_insert_Some in Hk as [[<- <-] | [_ Hk]].
    + exists (Span.Impl s). split; [apply list_lookup_middle |]; reflexivity.
    + destruct (Hcons k x Hk) as (o & Ho & Hid). exists o. split; [| exact Hid].
      rewrite lookup_app_l by (now apply lookup_lt_Some in Ho). exact Ho.
  - unfold Tracer.start_span in Hs. rewrite Hsample in Hs. cbn in Hs.
    injection Hs as <- <-. intros k x Hk. cbn in Hk |- *.
    destruct (Hcons k x Hk) as (o & Ho & Hid). exists o. split; [| exact Hid].
    rewrite lookup_app_l by (now apply lookup_lt_Some in Ho). exact Ho.
Qed.

Lemma registry_consistent_on_span_end st h st' r :
  registry_consistent st -> Tracer.on_span_end st h = Some (st', r) ->
  registry_consistent st'.
Proof.
  unfold Tracer.on_span_end. intros Hcons He.
  destruct (Tracer.heap st !! h) as [o |]; [| discriminate].
  assert (Hkeep : forall st2,
            Tracer.heap st2 = Tracer.heap st ->
            Tracer._active_spans st2
            = delete (Span.object_span_id o) (Tracer._active_spans st) ->
            registry_consistent st2).
  { intros st2 Hh Hr k x Hk. rewrite Hr in Hk. rewrite Hh.
    apply lookup_delete_Some in Hk as [_ Hk]. now apply Hcons. }
  revert He. cbv zeta.
  destruct (if Context.truthy (Span.object_parent_span_id o) then _ else _)
    as [context |]; [| discriminate].
  destruct o as [s | n]; cbn [Tracer.with_active_spans Tracer.set_current_context].
  - repeat match goal with
      | |- context [(100 <=? ?n)%nat] => destruct (100 <=? n)%nat
      | |- context [if Tracer.loop_running ?x then _ else _] =>
          destruct (Tracer.loop_running x)
      end;
      intros [= <- <-]; now apply Hkeep.
  - intros [= <- <-]. now apply Hkeep.
Qed.

Lemma registry_consistent_end_span st h now st' r :
  registry_consistent st -> Tracer.end_span st h now = Some (st', r) ->
  registry_consistent st'.
Proof.
  unfold Tracer.end_span. intros Hcons He.
  destruct (Tracer.call_span st h (Span.End now)) as [st1 |] eqn:Hc;
    [| discriminate].
  eapply registry_consistent_on_span_end; [| exact He].
  eapply registry_consistent_call_span; eassumption.
Qed.

Lemma object_context_span_id o :
  Context.span_id (Span.object_span_context o) = Span.object_span_id o.
Proof. now destruct o. Qed.

(** C8, as the code has it: for a sampled parent span and a sampled child
    span started under it, with distinct non-empty span ids, finishing the
    child removes it from the registry and makes the parent the active span;
    finishing the parent afterwards makes active the span registered under
    the parent's own parent id, and leaves no active span when the parent
    has no parent or that span is not registered. *)
Theorem end_span_restores_previous
    st0 e1 u1 name1 op1 kind1 attrs1 grand st1 p
    e2 u2 name2 op2 kind2 attrs2 (explicit : bool) st2 c t1 t2 :
  registry_consistent st0 ->
  Tracer.start_span st0 e1 u1 name1 op1 kind1 attrs1 grand = Some (st1, p) ->
  Tracer.is_recording st1 p = Some true ->
  Tracer.start_span st1 e2 u2 name2 op2 kind2 attrs2
    (if explicit then Some p else None) = Some (st2, c) ->
  Tracer.is_recording st2 c = Some true ->
  Span.rand_span_id e1 <> "" ->
  Span.rand_span_id e2 <> Span.rand_span_id e1 ->
  exists sp st3 r3 st4 r4,
    Tracer.heap st1 !! p = Some (Span.Impl sp) /\
    Tracer.end_span st2 c t1 = Some (st3, r3) /\
    Tracer._active_spans st3 !! Span.rand_span_id e2 = None /\
    Tracer.get_active_span st3 = Some p /\
    Tracer.end_span st3 p t2 = Some (st4, r4) /\
    Tracer._active_spans st4
    = delete (Span.rand_span_id e1)
        (delete (Span.rand_span_id e2) (Tracer._active_spans st0)) /\
    Tracer.get_active_span st4
    = (if Context.truthy (Span._parent_span_id sp)
       then Tracer._active_spans st4 !! default "" (Span._parent_span_id sp)
       else None) /\
    (grand = None -> Tracer._current_context st0 = None ->
     Tracer.get_active_span st4 = None).
Proof.
  intros Hcons Hs1 Hr1 Hs2 Hr2 Hne Hdiff.
  destruct (start_span_sampled _ _ _ _ _ _ _ _ _ _ Hs1 Hr1)
    as (sp & -> & -> & Hpid & Hpp).
  destruct (start_span_sampled _ _ _ _ _ _ _ _ _ _ Hs2 Hr2)
    as (sc & -> & -> & Hcid & Hcp).
  clear Hs1 Hr1 Hs2 Hr2.
  set (h0 := Tracer.heap st0) in *. set (r0 := Tracer._active_spans st0) in *.
  cbn [Tracer.heap Tracer._active_spans Tracer._current_context
       Tracer.set_current_context Tracer.with_active_spans Tracer.with_heap]
    in *.
  fold h0 r0 in Hcp |- *.
  rewrite length_app in *. cbn [length] in *.
  set (p := length h0) in *. set (c := (p + 1)%nat) in *.
  rewrite Hpid, Hcid in *.
  assert (Hcp' : Span._parent_span_id sc = Some (Span.rand_span_id e1)).
  { rewrite Hcp. destruct explicit; cbn.
    - subst p. rewrite lookup_app_r by lia. rewrite Nat.sub_diag. cbn.
      now rewrite Hpid.
    - now rewrite Hpid. }
  clear Hcp.
  assert (Hp_lookup : forall x, ((h0 ++ [Span.Impl sp]) ++ [x]) !! p = Some (Span.Impl sp)).
  { intros x. rewrite lookup_app_l by (rewrite length_app; cbn; lia).
    subst p. rewrite lookup_app_r by lia. now rewrite Nat.sub_diag. }
  assert (Hold : forall k gh, r0 !! k = Some gh ->
            exists o, h0 !! gh = Some o /\ Span.object_span_id o = k /\
                      (gh < p)%nat).
  { intros k gh Hk. destruct (Hcons k gh Hk) as (o & Ho & Hk').
    exists o. repeat split; auto. now apply lookup_lt_Some in Ho. }
  (* finishing the child *)
  set (st2 := Tracer.set_current_context _ (Some (Span.span_context sc))).
  destruct (end_span_spec st2 c sc t1) as (st3 & r3 & He3 & Hreg3 & Hheap3 & Hctx3).
  { subst st2 c. cbn. rewrite lookup_app_r by (rewrite length_app; cbn; lia).
    rewrite length_app. cbn. now rewrite Nat.sub_diag. }
  { subst st2. cbn. intros k ph Hk.
    apply lookup_lt_is_Some_2. rewrite !length_app. cbn.
    apply lookup_insert_Some in Hk as [[_ <-] | [_ Hk]]; [lia |].
    apply lookup_insert_Some in Hk as [[_ <-] | [_ Hk]]; [lia |].
    destruct (Hold _ _ Hk) as (_ & _ & _ & Hlt). fold p. lia. }
  subst st2. cbn [Tracer.heap Tracer._active_spans Tracer._current_context
       Tracer.set_current_context Tracer.with_active_spans Tracer.with_heap]
    in Hreg3, Hheap3, Hctx3.
  rewrite Hcid, Hcp' in *. rewrite (truthy_nonempty _ Hne) in Hctx3.
  cbn [from_option id] in Hctx3.
  assert (Hreg3p : Tracer._active_spans st3 !! Span.rand_span_id e1 = Some p).
  { rewrite Hreg3, lookup_delete_ne by congruence.
    rewrite lookup_insert_ne by congruence. apply lookup_insert_eq. }
  rewrite <- Hreg3, Hreg3p in Hctx3.
  assert (Hheap3p : Tracer.heap st3 !! p = Some (Span.Impl sp)).
  { rewrite Hheap3, list_lookup_insert_ne by (subst c; lia). apply Hp_lookup. }
  rewrite <- Hheap3, Hheap3p in Hctx3. cbn [option_map] in Hctx3.
  (* finishing the parent *)
  destruct (end_span_spec st3 p sp t2 Hheap3p)
    as (st4 & r4 & He4 & Hreg4 & Hheap4 & Hctx4).
  { intros k ph Hk. apply lookup_lt_is_Some_2.
    rewrite Hheap3, length_insert, !length_app. cbn.
    rewrite Hreg3 in Hk. apply lookup_delete_Some in Hk as [_ Hk].
    apply lookup_insert_Some in Hk as [[_ <-] | [_ Hk]]; [lia |].
    apply lookup_insert_Some in Hk as [[_ <-] | [_ Hk]]; [lia |].
    destruct (Hold _ _ Hk) as (_ & _ & _ & Hlt). fold p. lia. }
  rewrite Hpid in Hreg4, Hctx4.
  assert (Hreg4' : Tracer._active_spans st4
            = delete (Span.rand_span_id e1) (delete (Span.rand_span_id e2) r0)).
  { rewrite Hreg4, Hreg3. rewrite delete_insert_eq.
    rewrite (delete_delete _ (Span.rand_span_id e1)), delete_insert_eq.
    apply delete_delete. }
  assert (Hactive4 : Tracer.get_active_span st4
            = if Context.truthy (Span._parent_span_id sp)
              then Tracer._active_spans st4 !! default "" (Span._parent_span_id sp)
              else None).
  { unfold Tracer.get_active_span. rewrite Hctx4.
    destruct (Context.truthy (Span._parent_span_id sp)); [| reflexivity].
    rewrite <- Hreg4.
    destruct (Tracer._active_spans st4 !! default "" (Span._parent_span_id sp))
      as [gh |] eqn:Hg; [| reflexivity].
    pose proof Hg as Hg0. rewrite Hreg4' in Hg0.
    apply lookup_delete_Some in Hg0 as [_ Hg0].
    apply lookup_delete_Some in Hg0 as [_ Hg0].
    destruct (Hold _ _ Hg0) as (o & Ho & Hk & Hlt).
    rewrite list_lookup_insert_ne by lia.
    rewrite Hheap3, list_lookup_insert_ne by (subst c; lia).
    rewrite lookup_app_l by (rewrite length_app; cbn; fold p; lia).
    rewrite lookup_app_l by (fold p; lia). rewrite Ho. cbn [option_map].
    now rewrite object_context_span_id, Hk. }
  exists sp, st3, r3, st4, r4.
  split; [subst p; rewrite lookup_app_r by lia; now rewrite Nat.sub_diag |].
  split; [exact He3 |].
  split; [rewrite Hreg3; apply lookup_delete_eq |].
  split; [unfold Tracer.get_active_span; rewrite Hctx3; cbn; now rewrite Hpid |].
  split; [exact He4 |]. split; [exact Hreg4' |]. split; [exact Hactive4 |].
  intros -> Hnone. rewrite Hactive4, Hpp, Hnone. reflexivity.
Qed.

Lemma end_span_restores_previous_witness :
  let st0 := Tracer.init "svc" "dep" (Py.Finite 1) None true in
  let e1 := Span.mkEntropy "0af7651916cd43dd8448eb211c80319c" "00000000000000b2" 0 in
  let e2 := Span.mkEntropy "4bf92f3577b34da6a3ce929d0e0e4736" "00000000000000c3" 5 in
  exists st1 p st2 c st3 r3 st4 r4,
    Tracer.start_span st0 e1 0%Q "parent" None Types.INTERNAL None None
    = Some (st1, p) /\
    Tracer.start_span st1 e2 0%Q "child" None Types.INTERNAL None None
    = Some (st2, c) /\
    Tracer.end_span st2 c 10 = Some (st3, r3) /\
    Tracer.get_active_span st3 = Some p /\
    Tracer.end_span st3 p 20 = Some (st4, r4) /\
    Tracer.get_active_span st4 = None.
Proof.
  intros st0 e1 e2.
  destruct (Tracer.start_span st0 e1 0%Q "parent" None Types.INTERNAL None None)
    as [[st1 p] |] eqn:H1; [| discriminate].
  destruct (Tracer.start_span st1 e2 0%Q "child" None Types.INTERNAL None None)
    as [[st2 c] |] eqn:H2;
    [| injection H1 as <- <-; discriminate].
  assert (Hcons : registry_consistent st0)
    by (intros k h Hk; unfold st0 in Hk; cbn in Hk;
        now rewrite lookup_empty in Hk).
  assert (Hr1 : Tracer.is_recording st1 p = Some true)
    by (injection H1 as <- <-; reflexivity).
  assert (Hr2 : Tracer.is_recording st2 c = Some true)
    by (injection H1 as <- <-; injection H2 as <- <-; reflexivity).
  destruct (end_span_restores_previous st0 e1 0%Q "parent" None Types.INTERNAL
              None None st1 p e2 0%Q "child" None Types.INTERNAL None false
              st2 c 10 20 Hcons H1 Hr1 H2 Hr2)
    as (sp & st3 & r3 & st4 & r4 & _ & He3 & _ & Ha3 & He4 & _ & _ & Hroot);
    [discriminate | discriminate |].
  exists st1, p, st2, c, st3, r3, st4, r4. auto 10.
Defined.

(** C8, as it is stated, fails with three nested spans: after the child and
    then the parent are finished, the outer span is the active span. *)
Lemma end_parent_outer_span_active :
  three_nested_spans
  = Some (0%nat, mkNestedRun 1 2 (Some true) (Some true) (Some 1%nat) (Some 0%nat)).
Proof. vm_compute. reflexivity. Qed.

(** ** Transport: retries *)

Section RetryFacts.
Context {A : Type}.
Implicit Types (w : Transport.World A) (t : Transport.BaseTransport A).

Lemma sent_batches_log w ev :
  sent_batches (Transport.log ev w)
  = sent_batches w ++ match ev with
                      | Transport.Send k b => [(k, b)]
                      | _ => []
                      end.
Proof.
  unfold sent_batches, Transport.log. cbn. rewrite omap_app. cbn.
  now destruct ev.
Qed.

Lemma delays_log w ev :
  delays (Transport.log ev w)
  = delays w ++ match ev with
                | Transport.Sleep d => [d]
                | _ => []
                end.
Proof.
  unfold delays, Transport.log. cbn. rewrite omap_app. cbn.
  now destruct ev.
Qed.

Lemma send_payload_spec w k b :
  let w' := (Transport.send_payload w k b).1 in
  Transport.network w' = Transport.network w /\
  sent_batches w' = sent_batches w ++ [(k, b)] /\
  delays w' = delays w.
Proof.
  cbn. unfold sent_batches, delays. cbn. rewrite !omap_app. cbn.
  now rewrite app_nil_r.
Qed.

Lemma capped_delay_mono a b :
  0 <= a <= b -> capped_delay a <= capped_delay b <= 10.
Proof.
  intros H. unfold capped_delay.
  assert (2 ^ a <= 2 ^ b) by (apply Z.pow_le_mono_r; lia). lia.
Qed.

Lemma retry_loop_all_fail t k b : forall n attempt last w,
  (forall i, exists m, Transport.network w i = Transport.Fails m) ->
  0 <= attempt -> attempt + Z.of_nat n = Transport.max_retries t ->
  Transport.max_retries t <= 1025 ->
  exists w',
    Transport.retry_loop t k b n attempt last w = (w', None) /\
    sent_batches w' = sent_batches w ++ replicate n (k, b) /\
    delays w' = delays w ++ (capped_delay <$> seqZ attempt (Z.of_nat n - 1)).
Proof.
  induction n as [| n IH]; intros attempt last w Hfail Ha Hn Hmax.
  - cbn [Transport.retry_loop]. destruct last as [e |].
    + eexists. split; [reflexivity |].
      destruct (Transport.debug t);
        rewrite ?sent_batches_log, ?delays_log; cbn; now rewrite !app_nil_r.
    + eexists. split; [reflexivity |]. cbn. now rewrite !app_nil_r.
  - cbn [Transport.retry_loop].
    destruct (send_payload_spec w k b) as (Hnet & Hsent & Hdel).
    destruct (Transport.send_payload w k b) as [w1 r] eqn:Hsp.
    assert (Hr : r = Transport.network w (Transport.sends w))
      by (unfold Transport.send_payload in Hsp; now inversion Hsp).
    cbn [fst] in Hnet, Hsent, Hdel.
    destruct (Hfail (Transport.sends w)) as [m Hm]. rewrite Hr, Hm.
    set (w2 := if Transport.debug t
               then Transport.log (Transport.PrintAttemptFailed (attempt + 1) m) w1
               else w1).
    assert (Hw2 : Transport.network w2 = Transport.network w /\
                  sent_batches w2 = sent_batches w ++ [(k, b)] /\
                  delays w2 = delays w).
    { subst w2. destruct (Transport.debug t);
        rewrite ?sent_batches_log, ?delays_log, ?app_nil_r; auto. }
    destruct Hw2 as (Hnet2 & Hsent2 & Hdel2).
    destruct (Z.ltb_spec attempt (Transport.max_retries t - 1)) as [Hlt | Hge].
    + unfold Transport.backoff_delay.
      destruct (Z.leb_spec 1024 attempt) as [? | _]; [lia |].
      destruct (IH (attempt + 1) (Some m)
                  (Transport.log (Transport.Sleep (Z.min (2 ^ attempt) 10)) w2))
        as (w' & Hloop & Hs & Hd); [| lia | lia | lia |].
      { intros i. cbn. rewrite Hnet2. apply Hfail. }
      exists w'. split; [exact Hloop |].
      rewrite Hs, Hd, sent_batches_log, delays_log, Hsent2, Hdel2.
      rewrite app_nil_r, <- !app_assoc. split; [reflexivity |].
      f_equal. replace (Z.of_nat (S n) - 1) with (Z.succ (Z.of_nat n - 1)) by lia.
      rewrite (seqZ_cons attempt) by lia. cbn. f_equal.
      now replace (Z.succ attempt) with (attempt + 1) by lia;
        replace (Z.pred (Z.succ (Z.of_nat n - 1))) with (Z.of_nat n - 1) by lia.
    + assert (n = O) by lia. subst n.
      destruct (IH (attempt + 1) (Some m) w2) as (w' & Hloop & Hs & Hd);
        [| lia | lia | lia |].
      { intros i. rewrite Hnet2. apply Hfail. }
      exists w'. split; [exact Hloop |].
      rewrite Hs, Hd, Hsent2, Hdel2. cbn. now rewrite !app_nil_r.
Qed.

(** In the range in which the delay can be computed, a batch that fails
    on every attempt is sent [max_retries] times, with the capped
    exponential delays in between, and no exception reaches the caller. *)
Lemma send_with_retry_all_fail t w k b :
  (forall i, exists m, Transport.network w i = Transport.Fails m) ->
  0 <= Transport.max_retries t <= 1025 ->
  exists w',
    Transport._send_with_retry t w k b = (w', None) /\
    sent_batches w'
    = sent_batches w ++ replicate (Z.to_nat (Transport.max_retries t)) (k, b) /\
    delays w'
    = delays w ++ (capped_delay <$> seqZ 0 (Transport.max_retries t - 1)).
Proof.
  intros Hfail Hmax. unfold Transport._send_with_retry.
  destruct (retry_loop_all_fail t k b (Z.to_nat (Transport.max_retries t)) 0
              None w Hfail) as (w' & Hloop & Hs & Hd); [lia | lia | lia |].
  exists w'. split; [exact Hloop |]. split; [exact Hs |].
  rewrite Hd. now rewrite Z2Nat.id by lia.
Qed.

Lemma capped_delays_sorted n :
  forall i j di dj,
    (capped_delay <$> seqZ 0 n) !! i = Some di ->
    (capped_delay <$> seqZ 0 n) !! j = Some dj ->
    (i <= j)%nat -> di <= dj <= 10.
Proof.
  intros i j di dj Hi Hj Hij.
  rewrite list_lookup_fmap in Hi, Hj.
  destruct (seqZ 0 n !! i) as [a |] eqn:Ha; [| discriminate].
  destruct (seqZ 0 n !! j) as [b |] eqn:Hb; [| discriminate].
  apply lookup_seqZ in Ha as [-> _]. apply lookup_seqZ in Hb as [-> _].
  injection Hi as <-. injection Hj as <-. apply capped_delay_mono. lia.
Qed.

End RetryFacts.

(** C4: with [max_retries = 1026] and a backend that fails every send, the
    delay after the 1025th failed send cannot be computed ([2**1024] does
    not convert to a float): [_send_with_retry] has sent 1025 times, not
    1026, and [OverflowError] reaches the caller. *)
Theorem send_with_retry_overflow :
  stubborn_outcome = (1025%nat, 1024%nat, Some Py.OverflowError).
Proof. vm_compute. reflexivity. Qed.

(** ** Transport: batching *)

Section BatchFacts.
Context {A : Type}.
Implicit Types (w : Transport.World A) (t : Transport.BaseTransport A).

Lemma slice_whole (l : list A) :
  Py.slice_to l (Z.of_nat (length l)) = l /\
  Py.slice_from l (Z.of_nat (length l)) = [].
Proof.
  unfold Py.slice_to, Py.slice_from, Py.slice_index.
  destruct (Z.ltb_spec (Z.of_nat (length l)) 0) as [? | _]; [lia |].
  rewrite Z.min_id, Nat2Z.id. split; [apply firstn_all | apply drop_all].
Qed.

(** An insertion that leaves the queue below the threshold only
    appends. *)
Lemma send_error_below t w error :
  Z.of_nat (length (Transport._error_queue t) + 1) < Transport.max_batch_size t ->
  Transport.send_error t w error
  = (Transport.with_error_queue t (Transport._error_queue t ++ [error]), w, None).
Proof.
  intros H. unfold Transport.send_error. cbn. rewrite length_app. cbn.
  now destruct (Z.leb_spec (Transport.max_batch_size t)
                  (Z.of_nat (length (Transport._error_queue t) + 1))); [lia |].
Qed.

(** The insertion that brings the queue to the threshold flushes all of
    it. *)
Lemma send_error_reaches t w error :
  Z.of_nat (length (Transport._error_queue t) + 1) = Transport.max_batch_size t ->
  Transport.send_error t w error
  = let t' := Transport.with_error_queue t [] in
    let '(w', r) :=
      Transport._send_with_retry t' w "errors"
        (Transport._error_queue t ++ [error]) in
    (t', w', r).
Proof.
  intros H. unfold Transport.send_error. cbn. rewrite length_app. cbn.
  destruct (Z.leb_spec (Transport.max_batch_size t)
              (Z.of_nat (length (Transport._error_queue t) + 1))); [| lia].
  unfold Transport._flush_errors. cbn.
  destruct (Transport._error_queue t ++ [error]) as [| x q] eqn:Hq.
  { now destruct (Transport._error_queue t). }
  rewrite <- Hq, <- H.
  replace (length (Transport._error_queue t) + 1)%nat
    with (length (Transport._error_queue t ++ [error]))
    by (rewrite length_app; reflexivity).
  destruct (slice_whole (Transport._error_queue t ++ [error])) as [-> ->].
  reflexivity.
Qed.

End BatchFacts.

(** C5: when errors are enqueued one at a time, the insertions that leave
    the queue short of [max_batch_size] do nothing else, and the one that
    brings it to [max_batch_size] hands the whole queue, oldest first, to one
    [_send_with_retry] and leaves the queue empty; a flush of the empty
    queue does nothing. *)
Theorem errors_flush_at_batch_size {A} (t : Transport.BaseTransport A)
    (w : Transport.World A) (errors : list A) :
  errors <> [] ->
  Z.of_nat (length (Transport._error_queue t) + length errors)
  = Transport.max_batch_size t ->
  let t' := Transport.with_error_queue t [] in
  send_errors t w errors
  = (let '(w', r) :=
       Transport._send_with_retry t' w "errors"
         (Transport._error_queue t ++ errors) in
     (t', w', r)) /\
  Transport._error_queue t' = [] /\
  forall w', Transport._flush_errors t' w' = (t', w', None).
Proof.
  intros Hne Hlen. cbv zeta.
  split; [| split; [reflexivity | reflexivity]].
  revert t Hlen. induction errors as [| e rest IH]; [congruence |].
  intros t Hlen. cbn [send_errors length] in *.
  destruct (decide (rest = [])) as [-> | Hrest].
  - rewrite send_error_reaches by exact Hlen. cbv zeta.
    now destruct (Transport._send_with_retry _ w "errors" _) as [w' [r |]].
  - assert (0 < length rest)%nat by (destruct rest; [congruence | cbn; lia]).
    rewrite send_error_below by lia.
    rewrite (IH Hrest).
    + cbn. now rewrite <- app_assoc.
    + cbn. rewrite length_app. cbn. lia.
Qed.

Lemma errors_flush_at_batch_size_witness :
  let t := Transport.mkBaseTransport 3 3 false [] [] [] in
  let w := Transport.mkWorld (fun _ => Transport.Sent) O [] in
  exists t' w',
    send_errors t w [10%nat; 20%nat; 30%nat] = (t', w', None) /\
    Transport._error_queue t' = [] /\
    sent_batches w' = [("errors", [10%nat; 20%nat; 30%nat])] /\
    Transport._flush_errors t' w' = (t', w', None).
Proof.
  intros t w.
  destruct (errors_flush_at_batch_size t w [10%nat; 20%nat; 30%nat])
    as (Hsend & Hq & Hflush); [discriminate | reflexivity |].
  do 2 eexists. split; [rewrite Hsend; reflexivity |].
  split; [exact Hq |]. split; [reflexivity | apply Hflush].
Defined.

(** ** Scope: the breadcrumb ring buffer *)

Lemma ring_trim_spec max l :
  0 <= max ->
  Scope.ring_trim max l = inr (drop (length l - Z.to_nat max) l).
Proof.
  intros Hmax. induction l as [| x l IH]; cbn [Scope.ring_trim length].
  - destruct (Z.ltb_spec max (Z.of_nat 0)); [lia | reflexivity].
  - destruct (Z.ltb_spec max (Z.of_nat (S (length l)))) as [Hlt | Hge].
    + rewrite IH.
      replace (S (length l) - Z.to_nat max)%nat
        with (S (length l - Z.to_nat max)) by lia.
      reflexivity.
    + replace (S (length l) - Z.to_nat max)%nat with O by lia. reflexivity.
Qed.

(** Keeping the last [k] entries at every step or only at the end is the
    same. *)
Lemma last_entries_app {X} (k : nat) (l r : list X) :
  drop (length (drop (length l - k) l ++ r) - k) (drop (length l - k) l ++ r)
  = drop (length (l ++ r) - k) (l ++ r).
Proof.
  rewrite !length_app, length_drop.
  destruct (Nat.le_gt_cases (length l) k) as [Hle | Hgt].
  - replace (length l - k)%nat with O by lia. cbn [drop].
    now rewrite Nat.sub_0_r.
  - rewrite <- (drop_app_le l r (length l - k)) by lia.
    rewrite drop_drop. f_equal. lia.
Qed.

Lemma add_breadcrumb_spec s a h X :
  h !! Scope.breadcrumbs s = Some (Scope.List X) ->
  0 <= Scope._max_breadcrumbs s ->
  Scope.add_breadcrumb s (arg_type a) (arg_category a) (arg_message a)
    (arg_data a) (arg_level a) (arg_now a) h
  = inr (s,
         <[Scope.breadcrumbs s :=
             Scope.List
               (let y := X ++ [Scope.VRef (length h)] in
                drop (length y - Z.to_nat (Scope._max_breadcrumbs s)) y)]>
           (h ++ [Scope.Crumb (crumb_of a)])).
Proof.
  intros Hb Hmax.
  unfold Scope.add_breadcrumb, Scope.bind, Scope.alloc, Scope.get_list.
  rewrite lookup_app_l by (now apply lookup_lt_Some in Hb).
  rewrite Hb, ring_trim_spec by exact Hmax. reflexivity.
Qed.

Lemma add_breadcrumbs_spec s : forall cs a h X,
  h !! Scope.breadcrumbs s = Some (Scope.List X) ->
  0 <= Scope._max_breadcrumbs s ->
  add_breadcrumbs s (a :: cs) h
  = inr (s,
         <[Scope.breadcrumbs s :=
             Scope.List
               (let y := X ++ (Scope.VRef <$> seq (length h) (S (length cs))) in
                drop (length y - Z.to_nat (Scope._max_breadcrumbs s)) y)]>
           (h ++ (Scope.Crumb <$> (crumb_of <$> a :: cs)))).
Proof.
  induction cs as [| a' cs IH]; intros a h X Hb Hmax;
    pose proof (lookup_lt_Some _ _ _ Hb) as Hlt.
  - cbn [add_breadcrumbs]. unfold Scope.bind at 1.
    now rewrite (add_breadcrumb_spec s a h X Hb Hmax).
  - change (add_breadcrumbs s (a :: a' :: cs) h)
      with (Scope.bind
              (Scope.add_breadcrumb s (arg_type a) (arg_category a)
                 (arg_message a) (arg_data a) (arg_level a) (arg_now a))
              (fun s' => add_breadcrumbs s' (a' :: cs)) h).
    unfold Scope.bind at 1.
    rewrite (add_breadcrumb_spec s a h X Hb Hmax). cbv zeta.
    rewrite IH with (X := drop (length (X ++ [Scope.VRef (length h)])
                              - Z.to_nat (Scope._max_breadcrumbs s))
                         (X ++ [Scope.VRef (length h)])); [| | exact Hmax].
    2:{ apply list_lookup_insert_eq. rewrite length_app. lia. }
    cbv zeta. f_equal. f_equal.
    rewrite length_insert.
    replace (length (h ++ [Scope.Crumb (crumb_of a)])) with (S (length h))
      by (rewrite length_app; cbn; lia).
    rewrite (last_entries_app (Z.to_nat (Scope._max_breadcrumbs s))
               (X ++ [Scope.VRef (length h)])
               (Scope.VRef <$> seq (S (length h)) (S (length cs)))).
    rewrite <- (app_assoc X).
    change ([Scope.VRef (length h)]
            ++ (Scope.VRef <$> seq (S (length h)) (S (length cs))))
      with (Scope.VRef <$> seq (length h) (S (S (length cs)))).
    rewrite <- insert_app_l by (rewrite length_app; lia).
    rewrite list_insert_insert_eq, <- app_assoc. reflexivity.
Qed.

(** C6: after [N] insertions into a scope of capacity [K], [0 <= K < N],
    the buffer holds exactly the last [K] breadcrumbs inserted, in insertion
    order, whatever it held before. *)
Theorem breadcrumbs_keep_last s h X cs :
  h !! Scope.breadcrumbs s = Some (Scope.List X) ->
  0 <= Scope._max_breadcrumbs s < Z.of_nat (length cs) ->
  exists h',
    add_breadcrumbs s cs h = inr (s, h') /\
    read_breadcrumbs h' s
    = Some (drop (length cs - Z.to_nat (Scope._max_breadcrumbs s))
              (crumb_of <$> cs)) /\
    Z.of_nat (length (drop (length cs - Z.to_nat (Scope._max_breadcrumbs s))
                        (crumb_of <$> cs)))
    = Scope._max_breadcrumbs s.
Proof.
  intros Hb [Hmax HN].
  pose proof (lookup_lt_Some _ _ _ Hb) as Hlt.
  destruct cs as [| a cs]; [cbn in HN; lia |].
  eexists. split; [apply (add_breadcrumbs_spec s cs a h X Hb Hmax) |].
  set (K := Z.to_nat (Scope._max_breadcrumbs s)) in *.
  set (N := length (a :: cs)) in *.
  change (S (length cs)) with N.
  split.
  - unfold read_breadcrumbs, read_list.
    rewrite list_lookup_insert_eq by (rewrite length_app; lia).
    cbn [mbind option_bind]. cbv zeta.
    rewrite length_app, length_fmap, length_seq.
    rewrite drop_app_ge by lia.
    replace (length X + N - K - length X)%nat with (N - K)%nat by lia.
    apply mapM_Some. apply Forall2_drop.
    apply Forall2_fmap, Forall2_same_length_lookup_2.
    { now rewrite length_seq. }
    intros i j b Hj Hb'. apply lookup_seq in Hj as [-> Hi].
    unfold read_crumb.
    rewrite list_lookup_insert_ne by lia.
    rewrite lookup_app_r by lia.
    replace (length h + i - length h)%nat with i by lia.
    now rewrite !list_lookup_fmap, Hb'.
  - rewrite length_drop, length_fmap. fold N. lia.
Qed.

Lemma breadcrumbs_keep_last_witness :
  let three :=
    [mkCrumbArgs BreadcrumbType.HTTP "a" None None BreadcrumbLevel.INFO "t0";
     mkCrumbArgs BreadcrumbType.UI "b" None None BreadcrumbLevel.INFO "t1";
     mkCrumbArgs BreadcrumbType.QUERY "c" None None BreadcrumbLevel.INFO "t2"] in
  let s := Scope.mkScope None 0 1 2 None 2 in
  let h := [Scope.Dict ∅; Scope.Dict ∅; Scope.List []] in
  exists h',
    add_breadcrumbs s three h = inr (s, h') /\
    read_breadcrumbs h' s = Some (crumb_of <$> drop 1 three).
Proof.
  intros three s h.
  destruct (breadcrumbs_keep_last s h [] three) as (h' & Hrun & Hread & _);
    [reflexivity | cbn; lia |].
  exists h'. split; [exact Hrun | exact Hread].
Defined.

(** ** Scope: what [clone] copies *)

Lemma snapshot_agree h h' s :
  (forall l, l ∈ all_locs s -> h' !! l = h !! l) ->
  snapshot h' s = snapshot h s.
Proof.
  intros H. unfold snapshot, read_optional, read_dict, read_list.
  assert (Ht := H (Scope.tags s)). assert (He := H (Scope.extra s)).
  assert (Hb := H (Scope.breadcrumbs s)).
  rewrite Ht, He, Hb by (unfold all_locs, own_locs; set_solver).
  destruct (Scope.user s) as [u |] eqn:Hu;
    destruct (Scope.fingerprint s) as [f |] eqn:Hf;
    rewrite ?(H u), ?(H f)
      by (unfold all_locs, own_locs; rewrite ?Hu, ?Hf; cbn; set_solver);
    reflexivity.
Qed.

Lemma snapshot_locs_live h s snap :
  snapshot h s = Some snap -> forall l, l ∈ all_locs s -> (l < length h)%nat.
Proof.
  unfold snapshot, read_optional, read_dict, read_list, all_locs, own_locs.
  intros Hs l Hl.
  destruct (Scope.user s) as [u |] eqn:Hu;
    destruct (Scope.fingerprint s) as [f |] eqn:Hf; cbn in Hl;
    repeat match type of Hs with
    | context [ ?h !! ?x ] =>
        let E := fresh "E" in
        destruct (h !! x) as [[] |] eqn:E; try discriminate;
        apply lookup_lt_Some in E
    end;
    set_unfold; intuition subst; assumption.
Qed.

(** A method call changes only the dicts and the list of its own scope,
    and adds objects. *)
Lemma invoke_frame c s h s' h' :
  Scope.invoke s c h = inr (s', h') ->
  forall l, l ∉ own_locs s -> (l < length h)%nat -> h' !! l = h !! l.
Proof.
  intros Hc l Hl Hlt. unfold own_locs in Hl.
  assert (Hne : l <> Scope.tags s /\ l <> Scope.extra s /\
                l <> Scope.breadcrumbs s) by set_solver.
  destruct Hne as (Ht & He & Hb). clear Hl.
  destruct c; cbn in Hc;
    unfold Scope.set_user, Scope.set_tag, Scope.set_tags, Scope.set_extra,
      Scope.set_extras, Scope.set_fingerprint, Scope.add_breadcrumb,
      Scope.clear_breadcrumbs, Scope.clear, Scope.bind, Scope.ret,
      Scope.raise, Scope.alloc, Scope.put, Scope.get_dict, Scope.get_list in Hc;
    repeat match type of Hc with
    | context [ match ?x !! ?y with _ => _ end ] =>
        destruct (x !! y) as [[] |]; try discriminate
    | context [ Scope.ring_trim ?m ?y ] =>
        destruct (Scope.ring_trim m y); try discriminate
    end;
    injection Hc as <- <-;
    rewrite ?list_lookup_insert_ne by congruence;
    rewrite ?lookup_app_l by (rewrite ?length_app; lia);
    reflexivity.
Qed.

(** [clone] adds the copies to the heap and changes nothing else; the new
    scope refers to the copies only. *)
Lemma clone_spec h s snap :
  snapshot h s = Some snap ->
  exists s' h',
    Scope.clone s h = inr (s', h') /\
    (forall l, (l < length h)%nat -> h' !! l = h !! l) /\
    (forall l, l ∈ all_locs s' -> (length h <= l < length h')%nat) /\
    snapshot h' s' = Some (cloned snap).
Proof.
  intros Hs. pose proof (snapshot_locs_live h s snap Hs) as Hlive.
  unfold all_locs, own_locs in Hlive.
  assert (Ht := Hlive (Scope.tags s) ltac:(set_solver)).
  assert (He := Hlive (Scope.extra s) ltac:(set_solver)).
  assert (Hb := Hlive (Scope.breadcrumbs s) ltac:(set_solver)).
  unfold snapshot, read_optional, read_dict, read_list in Hs.
  unfold Scope.clone, Scope.copy_dict_if, Scope.copy_list_if, Scope.bind,
    Scope.ret, Scope.alloc, Scope.get_dict, Scope.get_list.
  destruct (h !! Scope.tags s) as [[dt | |] |] eqn:Et;
    try (destruct (Scope.user s) as [u |]; [destruct (h !! u) as [[] |] |];
         discriminate).
  destruct (h !! Scope.extra s) as [[de | |] |] eqn:Ee;
    try (destruct (Scope.user s) as [u |]; [destruct (h !! u) as [[] |] |];
         discriminate).
  destruct (h !! Scope.breadcrumbs s) as [[| lb |] |] eqn:Eb;
    try (destruct (Scope.user s) as [u |]; [destruct (h !! u) as [[] |] |];
         discriminate).
  destruct (Scope.user s) as [u |] eqn:Hu;
    destruct (Scope.fingerprint s) as [f |] eqn:Hf;
    try (assert (Hul := Hlive u ltac:(cbn; set_solver));
         destruct (h !! u) as [[du | |] |] eqn:Eu; try discriminate;
         destruct (decide (du = ∅)) as [-> | Hdu]);
    try (assert (Hfl := Hlive f ltac:(cbn; set_solver));
         destruct (h !! f) as [[| lf |] |] eqn:Ef; try discriminate;
         destruct lf as [| x lf]);
    cbn in Hs; injection Hs as <-;
    repeat (rewrite ?lookup_app_l by (rewrite ?length_app; cbn; lia);
            rewrite ?Et, ?Ee, ?Eb, ?Ef);
    clone_case.
Qed.

(** Where the references of a scope come from after a call. *)
Lemma invoke_locs c s h s' h' :
  Scope.invoke s c h = inr (s', h') ->
  (length h <= length h')%nat /\
  (forall l, l ∈ own_locs s' ->
     l ∈ own_locs s \/ (length h <= l < length h')%nat) /\
  (forall l, l ∈ all_locs s' ->
     l ∈ all_locs s \/ (length h <= l < length h')%nat \/ l ∈ ref_args c).
Proof.
  intros Hc.
  destruct c as [[u |] | | | | | fp | | |]; cbn in Hc;
    unfold Scope.set_user, Scope.set_tag, Scope.set_tags, Scope.set_extra,
      Scope.set_extras, Scope.set_fingerprint, Scope.add_breadcrumb,
      Scope.clear_breadcrumbs, Scope.clear, Scope.bind, Scope.ret,
      Scope.raise, Scope.alloc, Scope.put, Scope.get_dict, Scope.get_list in Hc;
    repeat match type of Hc with
    | context [ match ?x !! ?y with _ => _ end ] =>
        destruct (x !! y) as [[] |]; try discriminate
    | context [ Scope.ring_trim ?m ?y ] =>
        destruct (Scope.ring_trim m y); try discriminate
    end;
    injection Hc as <- <-;
    rewrite ?length_insert, ?length_app; cbn [length];
    (split; [lia |]);
    unfold all_locs, own_locs; cbn;
    destruct (Scope.user s), (Scope.fingerprint s); cbn;
    split; intros loc Hloc; set_unfold; intuition (subst; auto; lia).
Qed.

Lemma separated_step st st' :
  separated st -> pair_step st st' -> separated st'.
Proof.
  intros Hsep Hstep.
  destruct Hstep as [h a b c a' h' Hc Hres | h a b c b' h' Hc Hres];
    destruct Hsep as (Ha & Hb & Hab & Hba);
    destruct (invoke_locs _ _ _ _ _ Hc) as (Hlen & Hown & Hall);
    repeat split.
  - intros l Hl. destruct (Hall l Hl) as [H | [H | H]];
      [apply Ha in H; lia | lia | apply Hres in H; lia].
  - intros l Hl. apply Hb in Hl. lia.
  - intros l Hl Hl'. destruct (Hown l Hl) as [H | H];
      [now apply (Hab l) | apply Hb in Hl'; lia].
  - intros l Hl Hl'. destruct (Hall l Hl') as [H | [H | H]];
      [now apply (Hba l) | | now apply Hres in H].
    assert (l ∈ all_locs b) by (unfold all_locs; apply elem_of_app; now left).
    apply Hb in H0. lia.
  - intros l Hl. apply Ha in Hl. lia.
  - intros l Hl. destruct (Hall l Hl) as [H | [H | H]];
      [apply Hb in H; lia | lia | apply Hres in H; lia].
  - intros l Hl Hl'. destruct (Hall l Hl') as [H | [H | H]];
      [now apply (Hab l) | | now apply Hres in H].
    assert (l ∈ all_locs a) by (unfold all_locs; apply elem_of_app; now left).
    apply Ha in H0. lia.
  - intros l Hl Hl'. destruct (Hown l Hl) as [H | H];
      [now apply (Hba l) | apply Ha in Hl'; lia].
Qed.

Lemma separated_steps st st' :
  separated st -> rtc pair_step st st' -> separated st'.
Proof.
  intros Hsep Hsteps. induction Hsteps as [| st st1 st2 Hstep _ IH];
    [exact Hsep |].
  apply IH. eapply separated_step; eassumption.
Qed.

(** In a separated pair, a call on one scope leaves the snapshot of the
    other one as it was. *)
Lemma separated_frame h a b c a' h' :
  separated (h, a, b) -> Scope.invoke a c h = inr (a', h') ->
  snapshot h' b = snapshot h b.
Proof.
  intros (_ & Hb & Hab & _) Hc. apply snapshot_agree. intros l Hl.
  apply (invoke_frame c a h a' h' Hc); [| now apply Hb].
  intros Hown. now apply (Hab l).
Qed.

Lemma separated_sym h a b : separated (h, a, b) -> separated (h, b, a).
Proof. intros (Ha & Hb & Hab & Hba). now repeat split. Qed.

(** C9, as the code has it: [clone] copies the dicts and lists of the
    scope one level deep into a new scope of the same capacity.  From then
    on, whatever [Scope] methods are called on the two scopes, a call on one
    of them leaves what the other holds in its own dicts and lists
    unchanged, as long as no call is handed a dict or list of the other
    scope.  The objects the entries refer to (breadcrumbs and their [data],
    nested values of [extra]) are shared, and the theorem says nothing about
    mutating them. *)
Theorem clone_copies_one_level h s snap :
  snapshot h s = Some snap ->
  exists s' h',
    Scope.clone s h = inr (s', h') /\
    snapshot h' s = Some snap /\
    snapshot h' s' = Some (cloned snap) /\
    snap_max (cloned snap) = snap_max snap /\
    (forall l, l ∈ all_locs s' -> l ∉ all_locs s) /\
    forall h1 a b,
      rtc pair_step (h', s, s') (h1, a, b) ->
      (forall c a2 h2, Scope.invoke a c h1 = inr (a2, h2) ->
         snapshot h2 b = snapshot h1 b) /\
      (forall c b2 h2, Scope.invoke b c h1 = inr (b2, h2) ->
         snapshot h2 a = snapshot h1 a).
Proof.
  intros Hs. pose proof (snapshot_locs_live h s snap Hs) as Hlive.
  destruct (clone_spec h s snap Hs) as (s' & h' & Hclone & Hold & Hnew & Hs').
  assert (Hsrc : snapshot h' s = Some snap).
  { rewrite <- Hs. apply snapshot_agree. intros l Hl. apply Hold, Hlive, Hl. }
  assert (Hlen : (length h <= length h')%nat).
  { destruct (Hnew (Scope.tags s')) as [? ?]; [| lia].
    unfold all_locs, own_locs. apply elem_of_app. left. apply elem_of_cons.
    now left. }
  assert (Hdisj : forall l, l ∈ all_locs s' -> l ∉ all_locs s).
  { intros l Hl Hl'. apply Hnew in Hl. apply Hlive in Hl'. lia. }
  assert (Hsep : separated (h', s, s')).
  { repeat split.
    - intros l Hl. apply Hlive in Hl. lia.
    - intros l Hl. now apply Hnew in Hl.
    - intros l Hl Hl'. apply (Hdisj l Hl').
      unfold all_locs. apply elem_of_app. now left.
    - intros l Hl Hl'. apply (Hdisj l); [| exact Hl'].
      unfold all_locs. apply elem_of_app. now left. }
  exists s', h'. repeat split; try assumption.
  - intros c a2 h2 Hc. eapply separated_frame; [| exact Hc].
    eapply separated_steps; eassumption.
  - intros c b2 h2 Hc. eapply separated_frame; [| exact Hc].
    apply separated_sym. eapply separated_steps; eassumption.
Qed.

Lemma clone_copies_one_level_witness :
  let h := [Scope.Dict {["env" := Scope.VStr "test"]}; Scope.Dict ∅;
            Scope.List []] in
  let s := Scope.mkScope None 0 1 2 None 100 in
  exists s' h' s2 h2,
    Scope.clone s h = inr (s', h') /\
    Scope.invoke s' (Scope.SetTag "env" "prod") h' = inr (s2, h2) /\
    snap_tags <$> snapshot h2 s = Some {["env" := Scope.VStr "test"]}.
Proof.
  intros h s.
  destruct (clone_copies_one_level h s
              (mkSnapshot None {["env" := Scope.VStr "test"]} ∅ [] None 100)
              eq_refl)
    as (s' & h' & Hclone & Hsrc & _ & _ & _ & Hsteps).
  destruct (Hsteps h' s s' (rtc_refl _ _)) as [_ Hright].
  cbv in Hclone. injection Hclone as <- <-.
  pose proof (Hright (Scope.SetTag "env" "prod") _ _ eq_refl) as Hsame.
  do 4 eexists. split; [reflexivity |]. split; [reflexivity |].
  exact (f_equal (fmap snap_tags) (eq_trans Hsame Hsrc)).
Defined.

(** C9, as it is stated, fails: a breadcrumb's [data] dict is shared by a
    scope and its clone, so an assignment made through the clone is read
    through the source. *)
Lemma clone_shares_breadcrumb_data :
  shared_breadcrumb_data = inr (Scope.VInt 1, Scope.VInt 2).
Proof. vm_compute. reflexivity. Qed.

(** ** More on the trace-context codec *)

Lemma hex_val_bound c d : Py.hex_val c = Some d -> 0 <= d < 16.
Proof.
  unfold Py.hex_val, Py.is_digit, Py.is_lower_af, Py.is_upper_af, Py.in_range.
  repeat match goal with
         | |- context [Z.leb ?a ?b] => destruct (Z.leb_spec a b)
         end; cbn; intros [= <-]; lia.
Qed.

Lemma is_hex_lower_char c :
  Py.is_hex c = true ->
  Py.is_lower_hex (Py.lower_char c) = true /\
  (Py.lower_char c = "0"%char -> c = "0"%char) /\
  exists d, Py.hex_val c = Some d /\ 0 <= d < 16.
Proof.
  intros Hc. destruct (is_hex_scan c Hc) as [_ [d Hd]].
  split; [| split; [| exists d; split; [exact Hd | now apply hex_val_bound with c]]];
    revert Hc; clear; each_ascii c; vm_compute; congruence.
Qed.

Lemma lower_hex_field n s :
  is_hex_field n s = true ->
  String.eqb s (Py.repeat_char "0" n) = false ->
  valid_id n (Py.lower s) = true.
Proof.
  revert s. induction n as [| n IH]; intros [| c s]; try discriminate.
  rewrite is_hex_field_cons. intros [Hc Hs]%andb_prop Hz.
  destruct (is_hex_lower_char c Hc) as (Hl & Hzero & _).
  unfold valid_id in *. cbn [Py.lower String.length Py.all_chars Py.repeat_char].
  change (S (String.length (Py.lower s)) =? S n)%nat
    with (String.length (Py.lower s) =? n)%nat.
  rewrite Hl. cbn [andb].
  destruct (String.eqb_spec s (Py.repeat_char "0" n)) as [-> | Hs'].
  - apply String.eqb_neq in Hz.
    assert (Hc0 : c <> "0"%char) by (intros ->; now apply Hz).
    assert (Hlen : (String.length (Py.lower (Py.repeat_char "0" n)) =? n)%nat = true).
    { apply Nat.eqb_eq. clear. induction n; simpl; congruence. }
    assert (Hall : Py.all_chars Py.is_lower_hex (Py.lower (Py.repeat_char "0" n)) = true).
    { clear. induction n; simpl; [reflexivity | exact IHn]. }
    rewrite Hlen, Hall. cbn [andb]. apply negb_true_iff, String.eqb_neq.
    intros [= H _]. auto.
  - apply String.eqb_neq in Hs'. specialize (IH s Hs Hs').
    apply andb_prop in IH as [IH1 IH3]. rewrite IH1. cbn [andb].
    apply negb_true_iff, String.eqb_neq. intros [= _ H].
    apply negb_true_iff, String.eqb_neq in IH3. auto.
Qed.

Lemma hex_value_bound s : forall acc,
  Py.all_chars Py.is_hex s = true -> 0 <= acc ->
  0 <= hex_value acc s < 16 ^ Z.of_nat (String.length s) * (acc + 1).
Proof.
  induction s as [| c s IH]; intros acc.
  - intros _ Hacc. cbn. lia.
  - intros [Hc Hs]%andb_prop Hacc.
    destruct (is_hex_lower_char c Hc) as (_ & _ & d & Hd & Hr).
    cbn [hex_value String.length]. rewrite Hd.
    specialize (IH (16 * acc + d) Hs ltac:(lia)).
    rewrite Nat2Z.inj_succ, Z.pow_succ_r by lia. nia.
Qed.

Lemma hex_no_space s :
  Py.all_chars Py.is_hex s = true ->
  Py.all_chars (fun c => negb (Py.is_space c)) s = true.
Proof.
  apply all_chars_impl. intros c Hc. apply negb_true_iff.
  now apply is_hex_not_space.
Qed.

Lemma hex_no_dash s :
  Py.all_chars Py.is_hex s = true ->
  Py.all_chars (fun c => negb (Ascii.eqb c "-")) s = true.
Proof.
  apply all_chars_impl. intros c Hc. apply negb_true_iff.
  now apply is_hex_not_dash.
Qed.

(** A header of a version ["00"] and three fields of hex digits. *)
Lemma parse_traceparent_hex_fields t s f :
  is_hex_field 32 t = true -> String.eqb t (Py.repeat_char "0" 32) = false ->
  is_hex_field 16 s = true -> String.eqb s (Py.repeat_char "0" 16) = false ->
  Py.all_chars Py.is_hex f = true -> f <> "" ->
  Context.parse_traceparent
    ("00" +:+ String "-" (t +:+ String "-" (s +:+ String "-" f)))
  = Some (Context.mkSpanContext (Py.lower t) (Py.lower s) (hex_value 0 f) None).
Proof.
  intros [Htl Hth]%andb_prop Htz [Hsl Hsh]%andb_prop Hsz Hfh Hfne.
  apply Nat.eqb_eq in Htl, Hsl.
  set (rest2 := s +:+ String "-" f).
  set (rest1 := t +:+ String "-" rest2).
  unfold Context.parse_traceparent.
  change (String.eqb ("00" +:+ String "-" rest1) "") with false. cbv iota.
  rewrite strip_no_space.
  2:{ change ("00" +:+ String "-" rest1) with (String "0" (String "0" (String "-" rest1))).
      subst rest1 rest2. cbn [Py.all_chars].
      rewrite !all_chars_app. cbn [Py.all_chars].
      rewrite !all_chars_app. cbn [Py.all_chars].
      now rewrite !hex_no_space by assumption. }
  rewrite split_app by reflexivity.
  subst rest1. rewrite split_app by now apply hex_no_dash.
  subst rest2. rewrite split_app by now apply hex_no_dash.
  rewrite split_no_sep by now apply hex_no_dash.
  change (negb (String.eqb "00" "00")) with false. cbv iota.
  rewrite (re_match_hex_exact 32 t Htl Hth).
  rewrite (re_match_hex_exact 16 s Hsl Hsh).
  cbn [negb]. rewrite Htz, Hsz, (int16_digits f Hfne Hfh). reflexivity.
Qed.

(** X1: every well-formed version-00 header decodes, whatever the case of
    its hex digits: the result has the identifiers in lower case (so they
    are valid identifiers), the value of the two flag digits, and no vendor
    state. *)
Theorem parse_traceparent_well_formed t s f :
  well_formed_fields t s f = true ->
  Context.parse_traceparent ("00-" +:+ t +:+ "-" +:+ s +:+ "-" +:+ f)
  = Some (Context.mkSpanContext (Py.lower t) (Py.lower s) (hex_value 0 f) None)
  /\ valid_id 32 (Py.lower t) = true /\ valid_id 16 (Py.lower s) = true
  /\ 0 <= hex_value 0 f < 256.
Proof.
  unfold well_formed_fields.
  intros [[[[Ht Htz]%andb_prop Hs]%andb_prop Hsz]%andb_prop Hf]%andb_prop.
  apply negb_true_iff in Htz, Hsz.
  pose proof Hf as [Hfl Hfh]%andb_prop. apply Nat.eqb_eq in Hfl.
  split; [| split; [| split]].
  - change ("00-" +:+ t +:+ "-" +:+ s +:+ "-" +:+ f)
      with ("00" +:+ String "-" (t +:+ String "-" (s +:+ String "-" f))).
    apply parse_traceparent_hex_fields; auto.
    intros ->. discriminate.
  - now apply lower_hex_field.
  - now apply lower_hex_field.
  - pose proof (hex_value_bound f 0 Hfh ltac:(lia)) as H.
    rewrite Hfl in H. change (16 ^ Z.of_nat 2 * (0 + 1)) with 256 in H. exact H.
Qed.

Lemma parse_traceparent_well_formed_witness :
  Context.parse_traceparent
    ("00-" +:+ "4BF92F3577B34DA6A3CE929D0E0E4736" +:+ "-" +:+ "00F067AA0BA902B7"
     +:+ "-" +:+ "0A")
  = Some (Context.mkSpanContext "4bf92f3577b34da6a3ce929d0e0e4736"
            "00f067aa0ba902b7" 10 None).
Proof.
  exact (proj1 (parse_traceparent_well_formed
                  "4BF92F3577B34DA6A3CE929D0E0E4736" "00F067AA0BA902B7" "0A"
                  eq_refl)).
Defined.

(** *** White space around a header *)

Lemma lstrip_space_app a s : all_space a = true -> Py.lstrip (a +:+ s) = Py.lstrip s.
Proof.
  unfold all_space. induction a as [| c a IH]; [reflexivity |].
  rewrite app_cons. simpl. intros [Hc Ha]%andb_prop. rewrite Hc. auto.
Qed.

Lemma rstrip_all_space b : all_space b = true -> Py.rstrip b = "".
Proof.
  unfold all_space. induction b as [| c b IH]; [reflexivity |].
  simpl. intros [Hc Hb]%andb_prop. now rewrite (IH Hb), Hc.
Qed.

Lemma rstrip_app_space s b : all_space b = true -> Py.rstrip (s +:+ b) = Py.rstrip s.
Proof.
  intros Hb. induction s as [| c s IH].
  - rewrite app_nil. now apply rstrip_all_space.
  - rewrite app_cons. simpl. now rewrite IH.
Qed.

Lemma strip_app_space s b : all_space b = true -> Py.strip (s +:+ b) = Py.strip s.
Proof.
  intros Hb. unfold Py.strip. induction s as [| c s IH].
  - rewrite app_nil. cbn [Py.lstrip].
    assert (H : forall x, all_space x = true -> Py.rstrip (Py.lstrip x) = "").
    { clear. unfold all_space. induction x as [| c x IH]; [reflexivity |].
      simpl. intros [Hc Hx]%andb_prop. rewrite Hc. auto. }
    now apply H.
  - rewrite app_cons. cbn [Py.lstrip]. destruct (Py.is_space c); [exact IH |].
    rewrite <- app_cons. now apply rstrip_app_space.
Qed.

Lemma strip_outer_space a s b :
  all_space a = true -> all_space b = true ->
  Py.strip (a +:+ s +:+ b) = Py.strip s.
Proof.
  intros Ha Hb. unfold Py.strip at 1. rewrite (lstrip_space_app _ _ Ha).
  now apply strip_app_space.
Qed.

Lemma string_app_empty (a b : string) : a +:+ b = "" -> a = "" /\ b = "".
Proof.
  destruct a; [now rewrite app_nil | rewrite app_cons; discriminate].
Qed.

(** X2: white space before and after a header does not change what
    [parse_traceparent] makes of it. *)
Theorem parse_traceparent_ignores_outer_space a header b :
  all_space a = true -> all_space b = true ->
  Context.parse_traceparent (a +:+ header +:+ b)
  = Context.parse_traceparent header.
Proof.
  intros Ha Hb. unfold Context.parse_traceparent.
  rewrite (strip_outer_space _ _ _ Ha Hb).
  destruct (String.eqb_spec (a +:+ header +:+ b) "") as [He | _].
  - apply string_app_empty in He as [_ He].
    apply string_app_empty in He as [-> _]. reflexivity.
  - destruct (String.eqb_spec header "") as [-> | _]; reflexivity.
Qed.

Lemma parse_traceparent_ignores_outer_space_witness :
  Context.parse_traceparent
    (" " +:+ "00-4bf92f3577b34da6a3ce929d0e0e4736-00f067aa0ba902b7-01"
     +:+ String (ascii_of_nat 13) (String (ascii_of_nat 10) ""))
  = Context.parse_traceparent
      "00-4bf92f3577b34da6a3ce929d0e0e4736-00f067aa0ba902b7-01".
Proof.
  apply parse_traceparent_ignores_outer_space; reflexivity.
Defined.

(** *** Injection and extraction *)

Lemma valid_id_hex_field n s :
  valid_id n s = true ->
  is_hex_field n s = true /\ String.eqb s (Py.repeat_char "0" n) = false /\
  Py.lower s = s.
Proof.
  intros (Hl & Hh & Hz)%valid_id_spec. unfold is_hex_field.
  rewrite (lower_hex_hex _ Hh), (lower_lower_hex _ Hh).
  apply Nat.eqb_eq in Hl. now rewrite Hl.
Qed.

(** The header of a context decodes to its identifiers and flags. *)
Lemma parse_create_traceparent ctx :
  valid_ids ctx = true ->
  Context.parse_traceparent (Context.create_traceparent ctx)
  = Some (Context.mkSpanContext (Context.trace_id ctx) (Context.span_id ctx)
            (Context.trace_flags ctx) None).
Proof.
  destruct ctx as [tid sid fl st]. unfold valid_ids. cbn.
  intros [[Ht Hs]%andb_prop Hf]%andb_prop. apply Z.leb_le in Hf.
  apply valid_id_hex_field in Ht as (Ht & Htz & Htl).
  apply valid_id_hex_field in Hs as (Hs & Hsz & Hsl).
  destruct (hex_spec fl Hf) as (Hall & Hv & Hne).
  change (Context.create_traceparent (Context.mkSpanContext tid sid fl st))
    with ("00" +:+ String "-" (tid +:+ String "-" (sid +:+ String "-" (Py.format_02x fl)))).
  assert (Hfmt : Py.all_chars Py.is_hex (Py.format_02x fl) = true /\
                 Py.format_02x fl <> "" /\ hex_value 0 (Py.format_02x fl) = fl).
  { unfold Py.format_02x. destruct (Z.ltb_spec fl 0) as [? | _]; [lia |].
    cbv zeta. destruct (String.length (Py.hex fl) <? 2)%nat.
    - cbn [Py.all_chars hex_value]. rewrite (lower_hex_hex _ Hall).
      repeat split; [discriminate | exact Hv].
    - repeat split; [now apply lower_hex_hex | exact Hne | exact Hv]. }
  destruct Hfmt as (Hfh & Hfne & Hfv).
  rewrite (parse_traceparent_hex_fields _ _ _ Ht Htz Hs Hsz Hfh Hfne).
  now rewrite Htl, Hsl, Hfv.
Qed.

Lemma create_traceparent_nonempty ctx :
  String.eqb (Context.create_traceparent ctx) "" = false.
Proof. reflexivity. Qed.

(** X3: a context that [inject_trace_context] writes into a header dict is
    the context [extract_trace_context] reads from it, vendor state
    included. *)
Theorem inject_extract_roundtrip current headers ctx :
  valid_ids ctx = true -> no_stale_state headers ctx ->
  Context.extract_trace_context
    (Some <$> Context.inject_trace_context current headers (Some ctx))
  = Some ctx.
Proof.
  intros Hv Hst. pose proof (parse_create_traceparent ctx Hv) as Hp.
  unfold Context.extract_trace_context, Context.inject_trace_context,
    Context.TRACEPARENT_HEADER, Context.TRACESTATE_HEADER, no_stale_state in *.
  destruct ctx as [tid sid fl [ts |]]; cbn [Context.trace_state] in *.
  - assert (Hts : Context.truthy (Some ts) = true).
    { cbn. apply negb_true_iff, String.eqb_neq, Hst. }
    rewrite Hts, !lookup_fmap.
    repeat first [rewrite lookup_insert_eq | rewrite lookup_insert_ne by discriminate].
    cbn [fmap option_fmap option_map].
    unfold Context.or_else at 1. cbn [Context.truthy].
    rewrite create_traceparent_nonempty. cbn [negb].
    rewrite create_traceparent_nonempty, Hp.
    unfold Context.or_else. repeat (rewrite Hts; cbv iota). reflexivity.
  - cbn [Context.truthy]. rewrite !lookup_fmap.
    repeat first [rewrite lookup_insert_eq | rewrite lookup_insert_ne by discriminate].
    cbn [fmap option_fmap option_map].
    unfold Context.or_else at 1. cbn [Context.truthy].
    rewrite create_traceparent_nonempty. cbn [negb].
    rewrite create_traceparent_nonempty, Hp.
    destruct Hst as [H1 H2]. unfold Context.or_else.
    destruct (headers !! "tracestate") as [x |] eqn:E1;
      destruct (headers !! "Tracestate") as [y |] eqn:E2;
      cbn [fmap option_fmap option_map Context.truthy] in *;
      rewrite ?H1, ?H2; cbn [Context.truthy]; rewrite ?H2; reflexivity.
Qed.

Lemma inject_extract_roundtrip_witness :
  Context.extract_trace_context
    (Some <$> Context.inject_trace_context None {["accept" := "*/*"]}
       (Some (Context.mkSpanContext "4bf92f3577b34da6a3ce929d0e0e4736"
                "00f067aa0ba902b7" 1 (Some "vendor=1"))))
  = Some (Context.mkSpanContext "4bf92f3577b34da6a3ce929d0e0e4736"
            "00f067aa0ba902b7" 1 (Some "vendor=1")).
Proof.
  apply inject_extract_roundtrip; [reflexivity | discriminate].
Defined.

(** X4: [extract_trace_context] looks a header up under two spellings only:
    without a non-empty value under ["traceparent"] or ["Traceparent"] the
    result is absent, whatever else the dict holds. *)
Theorem extract_trace_context_two_spellings headers :
  Context.truthy (header_get headers "traceparent") = false ->
  Context.truthy (header_get headers "Traceparent") = false ->
  Context.extract_trace_context headers = None.
Proof.
  unfold header_get, Context.extract_trace_context, Context.TRACEPARENT_HEADER.
  intros H1 H2. unfold Context.or_else at 1. rewrite H1.
  destruct (headers !! "Traceparent") as [[x |] |]; try reflexivity.
  cbn in H2. apply negb_false_iff in H2. now rewrite H2.
Qed.

Lemma extract_trace_context_two_spellings_witness :
  Context.extract_trace_context
    {["TRACEPARENT" := Some "00-4bf92f3577b34da6a3ce929d0e0e4736-00f067aa0ba902b7-01"]}
  = None.
Proof.
  apply extract_trace_context_two_spellings; reflexivity.
Defined.

(** *** The tracestate header *)

Lemma no_char_all_chars c s :
  no_char c s = Py.all_chars (fun x => negb (Ascii.eqb x c)) s.
Proof.
  unfold no_char. induction s as [| x s IH]; [reflexivity |].
  simpl. rewrite negb_orb. now rewrite IH.
Qed.

Lemma partition_first_app sep k v :
  no_char sep k = true ->
  PyStr.partition_first sep (k +:+ String sep v) = Some (k, v) /\
  PyStr.contains_char sep (k +:+ String sep v) = true.
Proof.
  unfold no_char. induction k as [| c k IH].
  - intros _. rewrite app_nil. simpl. now rewrite Ascii.eqb_refl.
  - rewrite app_cons. simpl. rewrite negb_orb.
    intros [Hc Hk]%andb_prop. apply negb_true_iff in Hc.
    destruct (IH Hk) as [-> ->]. rewrite Hc. now rewrite orb_true_r.
Qed.

Lemma lstrip_length s : (String.length (Py.lstrip s) <= String.length s)%nat.
Proof.
  induction s as [| c s IH]; simpl; [lia |].
  destruct (Py.is_space c); simpl; lia.
Qed.

Lemma lstrip_fixed_app k s :
  Py.lstrip k = k -> k <> "" -> Py.lstrip (k +:+ s) = k +:+ s.
Proof.
  destruct k as [| c k]; [congruence |]. intros H _.
  rewrite app_cons. simpl in *. destruct (Py.is_space c); [| reflexivity].
  pose proof (lstrip_length k) as Hl. rewrite H in Hl. simpl in Hl. lia.
Qed.

Lemma rstrip_fixed_app a b :
  Py.rstrip b = b -> b <> "" -> Py.rstrip (a +:+ b) = a +:+ b.
Proof.
  intros Hb Hne. induction a as [| c a IH]; [now rewrite app_nil |].
  rewrite app_cons. simpl. rewrite IH.
  destruct (a +:+ b) eqn:E; [| reflexivity].
  apply string_app_empty in E as [_ ->]. congruence.
Qed.

Lemma strip_item k v :
  Py.lstrip k = k -> Py.rstrip v = v ->
  Py.strip (k +:+ String "=" v) = k +:+ String "=" v.
Proof.
  intros Hk Hv. unfold Py.strip.
  assert (Hl : Py.lstrip (k +:+ String "=" v) = k +:+ String "=" v).
  { destruct k as [| c k]; [reflexivity |].
    apply lstrip_fixed_app; [exact Hk | discriminate]. }
  rewrite Hl. apply rstrip_fixed_app; [| discriminate].
  simpl. rewrite Hv. now destruct v.
Qed.

Lemma dict_set_new k v d :
  k ∉ (fst <$> d) -> PyDict.set k v d = d ++ [(k, v)].
Proof.
  induction d as [| [k' v'] d IH]; [reflexivity |].
  cbn [fmap list_fmap fst]. intros H.
  apply not_elem_of_cons in H as [Hne Hd]. simpl.
  destruct (String.eqb_spec k' k) as [-> | _]; [congruence |].
  now rewrite IH.
Qed.

Lemma add_pair_item acc kv :
  plain_item kv = true -> fst kv ∉ (fst <$> acc) ->
  Tracestate.add_pair acc (fst kv +:+ "=" +:+ snd kv) = acc ++ [kv].
Proof.
  destruct kv as [k v]. unfold plain_item. cbn [fst snd].
  intros [[[[_ Heq]%andb_prop _]%andb_prop Hk]%andb_prop Hv]%andb_prop Hnew.
  apply String.eqb_eq in Hk, Hv.
  unfold Tracestate.add_pair.
  change (k +:+ "=" +:+ v) with (k +:+ String "=" v).
  rewrite (strip_item k v Hk Hv).
  destruct (partition_first_app "=" k v Heq) as [-> ->].
  now apply dict_set_new.
Qed.

Lemma split_join_items state :
  forallb plain_item state = true -> state <> [] ->
  Py.split ","
    (PyStr.join "," (map (fun kv => fst kv +:+ "=" +:+ snd kv) state))
  = map (fun kv => fst kv +:+ "=" +:+ snd kv) state.
Proof.
  induction state as [| kv state IH]; [congruence |]. intros Hall _.
  cbn [forallb] in Hall. apply andb_prop in Hall as [Hkv Hall].
  assert (Hno : Py.all_chars (fun c => negb (Ascii.eqb c ","))
                  (fst kv +:+ "=" +:+ snd kv) = true).
  { unfold plain_item in Hkv.
    apply andb_prop in Hkv as [[[[Hk _]%andb_prop Hv]%andb_prop _]%andb_prop _].
    rewrite no_char_all_chars in Hk, Hv.
    rewrite !all_chars_app, Hk, Hv. reflexivity. }
  destruct state as [| kv' state].
  - cbn [map PyStr.join]. now apply split_no_sep.
  - cbn [map PyStr.join] in *.
    change ("," +:+ ?x) with (String "," x).
    rewrite split_app by exact Hno.
    f_equal. now apply IH.
Qed.

Lemma fold_add_pair_items state : forall acc,
  forallb plain_item state = true -> NoDup ((fst <$> acc) ++ (fst <$> state)) ->
  fold_left Tracestate.add_pair
    (map (fun kv => fst kv +:+ "=" +:+ snd kv) state) acc
  = acc ++ state.
Proof.
  induction state as [| kv state IH]; intros acc Hall Hnd.
  - now rewrite app_nil_r.
  - cbn [forallb] in Hall. apply andb_prop in Hall as [Hkv Hall].
    cbn [map fold_left]. rewrite add_pair_item; [| exact Hkv |].
    + rewrite IH; [now rewrite <- app_assoc | exact Hall |].
      rewrite fmap_app. cbn [fmap list_fmap]. now rewrite <- app_assoc.
    + cbn [fmap list_fmap] in Hnd. apply NoDup_app in Hnd as (_ & Hd & _).
      intros Hin. apply (Hd _ Hin). now left.
Qed.

(** X5: [parse_tracestate] reads back the dict that [create_tracestate]
    wrote, with its items in the same order. *)
Theorem tracestate_roundtrip state :
  plain_state state ->
  Tracestate.parse_tracestate (Tracestate.create_tracestate state) = state.
Proof.
  intros [Hall Hnd].
  unfold Tracestate.parse_tracestate, Tracestate.create_tracestate.
  destruct state as [| kv state]; [reflexivity |].
  rewrite split_join_items by (auto; discriminate).
  rewrite fold_add_pair_items by auto.
  destruct (String.eqb_spec
              (PyStr.join "," (map (fun kv => fst kv +:+ "=" +:+ snd kv) (kv :: state))) "")
    as [He | _]; [| reflexivity].
  exfalso. destruct state; cbn [map PyStr.join] in He.
  - change (fst kv +:+ "=" +:+ snd kv) with (fst kv +:+ String "=" (snd kv)) in He.
    apply string_app_empty in He as [_ ?]. discriminate.
  - change (?a +:+ "=" +:+ ?b) with (a +:+ String "=" b) in He.
    rewrite string_app_assoc in He.
    apply string_app_empty in He as [_ ?]. discriminate.
Qed.

Lemma tracestate_roundtrip_witness :
  Tracestate.parse_tracestate
    (Tracestate.create_tracestate [("zeta", "1"); ("", "x=y z"); ("alpha", "")])
  = [("zeta", "1"); ("", "x=y z"); ("alpha", "")].
Proof.
  apply tracestate_roundtrip. split; [reflexivity |].
  now apply (bool_decide_unpack _).
Defined.

(** ** More on the tracer *)

(** X6: a recorded span gets the span id drawn for it, the span id of the
    context it was started under as its parent id, and the trace id of that
    context; a span started under no context, or under one without a trace
    id, starts a trace of its own. *)
Theorem start_span_joins_trace st e u name op kind attributes parent_span st' h :
  Tracer.start_span st e u name op kind attributes parent_span = Some (st', h) ->
  Tracer.is_recording st' h = Some true ->
  exists s parent,
    parent_context st parent_span = Some parent /\
    Tracer.heap st' !! h = Some (Span.Impl s) /\
    Span._span_id s = Span.rand_span_id e /\
    Span._parent_span_id s = Context.span_id <$> parent /\
    Span._trace_id s = joined_trace e parent /\
    Tracer._current_context st' = Some (Span.span_context s).
Proof.
  intros Hs Hr. rewrite (start_span_recording _ _ _ _ _ _ _ _ _ _ Hs) in Hr.
  injection Hr as Hr. revert Hs. unfold Tracer.start_span. rewrite Hr.
  cbn [negb]. fold (parent_context st parent_span).
  change (match parent_span with
          | Some p => option_map (fun o => Some (Span.object_span_context o))
                        (Tracer.heap st !! p)
          | None => Some (Tracer._current_context st)
          end) with (parent_context st parent_span).
  destruct (parent_context st parent_span) as [parent |]; [| discriminate].
  cbv zeta. intros [= <- <-].
  eexists _, parent. split; [reflexivity |].
  cbn [Tracer.heap Tracer.with_heap Tracer.set_current_context
       Tracer.with_active_spans Tracer._current_context].
  split; [apply list_lookup_middle; reflexivity |].
  assert (Htrace : Span._trace_id
            (Span.SpanImpl_init e name kind (option_map Context.trace_id parent)
               (option_map Context.span_id parent) attributes)
          = joined_trace e parent).
  { destruct parent as [c |]; cbn; [| reflexivity].
    now destruct (String.eqb (Context.trace_id c) ""). }
  destruct (Context.truthy op); cbn; rewrite <- Htrace; auto.
Qed.

Lemma start_span_joins_trace_witness :
  let st0 := Tracer.init "svc" "dep" (Py.Finite 1) None true in
  let e1 := Span.mkEntropy "0af7651916cd43dd8448eb211c80319c" "00000000000000b2" 0 in
  let e2 := Span.mkEntropy "4bf92f3577b34da6a3ce929d0e0e4736" "00000000000000c3" 5 in
  exists st1 p st2 c s,
    Tracer.start_span st0 e1 0%Q "parent" None Types.INTERNAL None None
    = Some (st1, p) /\
    Tracer.start_span st1 e2 0%Q "child" None Types.CLIENT None (Some p)
    = Some (st2, c) /\
    Tracer.heap st2 !! c = Some (Span.Impl s) /\
    Span._trace_id s = "0af7651916cd43dd8448eb211c80319c" /\
    Span._parent_span_id s = Some "00000000000000b2".
Proof.
  intros st0 e1 e2.
  destruct (Tracer.start_span st0 e1 0%Q "parent" None Types.INTERNAL None None)
    as [[st1 p] |] eqn:H1; [| discriminate].
  destruct (Tracer.start_span st1 e2 0%Q "child" None Types.CLIENT None (Some p))
    as [[st2 c] |] eqn:H2;
    [| injection H1 as <- <-; discriminate].
  assert (Hr2 : Tracer.is_recording st2 c = Some true)
    by (injection H1 as <- <-; injection H2 as <- <-; reflexivity).
  destruct (start_span_joins_trace _ _ _ _ _ _ _ _ _ _ H2 Hr2)
    as (s & parent & Hp & Hh & _ & Hpid & Htid & _).
  assert (Hparent : parent_context st1 (Some p)
                    = Some (Some (Context.mkSpanContext
                                    "0af7651916cd43dd8448eb211c80319c"
                                    "00000000000000b2" 1 None)))
    by (injection H1 as <- <-; reflexivity).
  rewrite Hparent in Hp. injection Hp as <-.
  exists st1, p, st2, c, s. auto.
Defined.



(** ** More on the transport *)

Section RetryRuns.
Context {A : Type}.
Implicit Types (w : Transport.World A) (t : Transport.BaseTransport A).

(** Printing changes neither the backend nor the sends and delays. *)
Lemma print_world (flag : bool) (ev : Transport.event A) w :
  match ev with
  | Transport.PrintAttemptFailed _ _ | Transport.PrintAllFailed _ => True
  | _ => False
  end ->
  let w' := if flag then Transport.log ev w else w in
  Transport.network w' = Transport.network w /\
  Transport.sends w' = Transport.sends w /\
  sent_batches w' = sent_batches w /\ delays w' = delays w.
Proof.
  intros Hev. destruct flag; cbv zeta; [| auto].
  rewrite sent_batches_log, delays_log.
  destruct ev; try destruct Hev; rewrite !app_nil_r; auto.
Qed.

(** One run of the retry loop, whatever the backend answers: [m] sends of
    the same batch, all but the last of them failed, and the capped
    exponential delays between them. *)
Lemma retry_loop_run t k b : forall n attempt last w,
  0 <= attempt -> attempt + Z.of_nat n = Transport.max_retries t ->
  exists m w' out,
    Transport.retry_loop t k b n attempt last w = (w', out) /\
    (m <= n)%nat /\ (n <> O -> m <> O) /\
    Transport.network w' = Transport.network w /\
    Transport.sends w' = (Transport.sends w + m)%nat /\
    sent_batches w' = sent_batches w ++ replicate m (k, b) /\
    delays w' = delays w ++ (capped_delay <$> seqZ attempt (Z.of_nat m - 1)) /\
    (forall i, (S i < m)%nat ->
       exists msg, Transport.network w (Transport.sends w + i)
                   = Transport.Fails msg) /\
    match m with
    | O => out = None
    | S j => retry_result (Transport.network w (Transport.sends w + j))
               (attempt + Z.of_nat j) (Transport.max_retries t) out
    end.
Proof.
  induction n as [| n IH]; intros attempt last w Ha Hn.
  - cbn [Transport.retry_loop]. exists O.
    destruct last as [e |].
    + destruct (print_world (Transport.debug t) (Transport.PrintAllFailed e) w I)
        as (Hnet & Hsends & Hsent & Hdel).
      eexists _, _. split; [reflexivity |].
      rewrite Hnet, Hsends, Hsent, Hdel. cbn.
      rewrite !app_nil_r, Nat.add_0_r. repeat split; auto; lia.
    + eexists _, _. split; [reflexivity |]. cbn.
      rewrite !app_nil_r, Nat.add_0_r. repeat split; auto; lia.
  - cbn [Transport.retry_loop].
    destruct (send_payload_spec w k b) as (Hnet & Hsent & Hdel).
    destruct (Transport.send_payload w k b) as [w1 r] eqn:Hsp.
    assert (Hr : r = Transport.network w (Transport.sends w))
      by (unfold Transport.send_payload in Hsp; now inversion Hsp).
    assert (Hsends : Transport.sends w1 = S (Transport.sends w))
      by (unfold Transport.send_payload in Hsp; now inversion Hsp).
    cbn [fst] in Hnet, Hsent, Hdel.
    assert (Hone : forall out,
      retry_result r attempt (Transport.max_retries t) out ->
      forall w2, Transport.network w2 = Transport.network w ->
      Transport.sends w2 = S (Transport.sends w) ->
      sent_batches w2 = sent_batches w ++ [(k, b)] ->
      delays w2 = delays w ->
      exists m w' out',
        (w2, out) = (w', out') /\
        (m <= S n)%nat /\ (S n <> O -> m <> O) /\
        Transport.network w' = Transport.network w /\
        Transport.sends w' = (Transport.sends w + m)%nat /\
        sent_batches w' = sent_batches w ++ replicate m (k, b) /\
        delays w' = delays w ++ (capped_delay <$> seqZ attempt (Z.of_nat m - 1)) /\
        (forall i, (S i < m)%nat ->
           exists msg, Transport.network w (Transport.sends w + i)
                       = Transport.Fails msg) /\
        match m with
        | O => out' = None
        | S j => retry_result (Transport.network w (Transport.sends w + j))
                   (attempt + Z.of_nat j) (Transport.max_retries t) out'
        end).
    { intros out Hout w2 H1 H2 H3 H4. exists 1%nat, w2, out.
      split; [reflexivity |]. rewrite H1, H2, H3, H4. cbn.
      rewrite app_nil_r, Nat.add_0_r, Z.add_0_r, <- Hr.
      repeat split; auto; lia. }
    destruct r as [| e | e].
    + apply (Hone None); auto. reflexivity.
    + destruct (print_world (Transport.debug t)
                  (Transport.PrintAttemptFailed (attempt + 1) e) w1 I)
        as (Hnet2 & Hsends2 & Hsent2 & Hdel2).
      set (w2 := if Transport.debug t
                 then Transport.log (Transport.PrintAttemptFailed (attempt + 1) e) w1
                 else w1) in *.
      rewrite Hnet in Hnet2. rewrite Hsends in Hsends2.
      rewrite Hsent in Hsent2. rewrite Hdel in Hdel2.
      destruct (Z.ltb_spec attempt (Transport.max_retries t - 1)) as [Hlt | Hge].
      * unfold Transport.backoff_delay.
        destruct (Z.leb_spec 1024 attempt) as [Hover | Hok].
        { apply (Hone (Some Py.OverflowError)); auto. cbn.
          destruct (Z.ltb_spec attempt (Transport.max_retries t - 1)); [auto | lia]. }
        destruct (IH (attempt + 1) (Some e)
                    (Transport.log (Transport.Sleep (Z.min (2 ^ attempt) 10)) w2))
          as (m & w' & out & Hloop & Hm & Hm0 & Hnet' & Hsends' & Hsent' & Hdel'
              & Hfail & Hres); [lia | lia |].
        exists (S m), w', out. split; [exact Hloop |].
        assert (Hmpos : m <> O) by (apply Hm0; lia).
        cbn [Transport.network Transport.sends Transport.log] in Hnet', Hsends', Hfail, Hres.
        rewrite sent_batches_log in Hsent'. rewrite delays_log in Hdel'.
        rewrite Hnet2 in Hnet', Hfail, Hres. rewrite Hsends2 in Hsends', Hfail, Hres.
        split; [lia |]. split; [lia |]. split; [exact Hnet' |].
        split; [lia |]. split.
        { rewrite Hsent', Hsent2, app_nil_r, <- app_assoc. reflexivity. }
        split.
        { rewrite Hdel', Hdel2, <- app_assoc. f_equal.
          rewrite (seqZ_cons attempt) by lia. cbn. unfold capped_delay at 2.
          f_equal. f_equal. f_equal; lia. }
        split.
        { intros [| i] Hi.
          - exists e. now rewrite Nat.add_0_r, <- Hr.
          - destruct (Hfail i ltac:(lia)) as [msg Hmsg]. exists msg.
            now rewrite Nat.add_succ_r. }
        destruct m as [| j]; [congruence |].
        rewrite Nat.add_succ_r.
        replace (attempt + Z.of_nat (S j)) with (attempt + 1 + Z.of_nat j) by lia.
        exact Hres.
      * assert (n = O) by lia. subst n. cbn [Transport.retry_loop].
        destruct (print_world (Transport.debug t) (Transport.PrintAllFailed e) w2 I)
          as (Hnet3 & Hsends3 & Hsent3 & Hdel3).
        apply (Hone None); try congruence.
        cbn. destruct (Z.ltb_spec attempt (Transport.max_retries t - 1)); [lia | auto].
    + apply (Hone (Some (Py.BaseException e))); auto. reflexivity.
Qed.

(** The sends of [_send_with_retry], whatever the backend answers. *)
Lemma retry_run t w k b :
  exists m w' out,
    Transport._send_with_retry t w k b = (w', out) /\
    Z.of_nat m <= Z.max 0 (Transport.max_retries t) /\
    sent_batches w' = sent_batches w ++ replicate m (k, b).
Proof.
  unfold Transport._send_with_retry.
  destruct (Z.le_gt_cases 0 (Transport.max_retries t)) as [Hpos | Hneg].
  - destruct (retry_loop_run t k b (Z.to_nat (Transport.max_retries t)) 0 None w)
      as (m & w' & out & Hloop & Hm & _ & _ & _ & Hsent & _); [lia | lia |].
    exists m, w', out. split; [exact Hloop |]. split; [lia | exact Hsent].
  - replace (Z.to_nat (Transport.max_retries t)) with O by lia.
    exists O, w, None. cbn. rewrite !app_nil_r. repeat split; lia.
Qed.

Lemma flushed_nothing kind mbs mr w :
  flushed kind mbs mr (@nil A) [] w w.
Proof.
  exists [], O. cbn. rewrite app_nil_r. repeat split; lia.
Qed.

(** X10: whatever the backend answers, [_send_with_retry] calls
    [send_payload] at most [max_retries] times, every time with the batch
    it was given, and sleeps between two sends the capped power of two of
    the number of the attempt: 1, 2, 4, 8, 10, 10, ...  An exception
    reaches the caller only if [send_payload] raised one that is no
    [Exception], or after 1025 sends. *)
Theorem send_with_retry_any_backend t w k b :
  exists m w' out,
    Transport._send_with_retry t w k b = (w', out) /\
    Z.of_nat m <= Z.max 0 (Transport.max_retries t) /\
    sent_batches w' = sent_batches w ++ replicate m (k, b) /\
    delays w' = delays w ++ (capped_delay <$> seqZ 0 (Z.of_nat m - 1)) /\
    Forall (fun d => 1 <= d <= 10) (capped_delay <$> seqZ 0 (Z.of_nat m - 1)) /\
    (out = None \/ (exists e, out = Some (Py.BaseException e)) \/
     (out = Some Py.OverflowError /\ (1025 <= m)%nat)).
Proof.
  unfold Transport._send_with_retry.
  assert (Hforall : forall m : nat,
            Forall (fun d => 1 <= d <= 10) (capped_delay <$> seqZ 0 (Z.of_nat m - 1))).
  { intros m. apply Forall_fmap, Forall_forall. intros a Ha.
    apply elem_of_seqZ in Ha. cbn. unfold capped_delay.
    assert (1 <= 2 ^ a) by (apply (Z.pow_le_mono_r 2 0 a); lia). lia. }
  destruct (Z.le_gt_cases 0 (Transport.max_retries t)) as [Hpos | Hneg].
  - destruct (retry_loop_run t k b (Z.to_nat (Transport.max_retries t)) 0 None w)
      as (m & w' & out & Hloop & Hm & _ & _ & _ & Hsent & Hdel & _ & Hres);
      [lia | lia |].
    exists m, w', out. split; [exact Hloop |]. split; [lia |].
    split; [exact Hsent |]. split; [exact Hdel |]. split; [apply Hforall |].
    destruct m as [| j]; [now left |].
    unfold retry_result in Hres.
    destruct (Transport.network w (Transport.sends w + j)) as [| e | e].
    + now left.
    + destruct (0 + Z.of_nat j <? Transport.max_retries t - 1); [| now left].
      right. right. split; [easy | lia].
    + right. left. eauto.
  - replace (Z.to_nat (Transport.max_retries t)) with O by lia.
    exists O, w, None. cbn. rewrite !app_nil_r.
    repeat split; auto; lia.
Qed.

Lemma send_with_retry_after_failures t w kind b (k : nat) :
  fails_then_sent w k ->
  Z.of_nat k < Transport.max_retries t -> (k <= 1024)%nat ->
  exists w',
    Transport._send_with_retry t w kind b = (w', None) /\
    Transport.network w' = Transport.network w /\
    Transport.sends w' = (Transport.sends w + S k)%nat /\
    sent_batches w' = sent_batches w ++ replicate (S k) (kind, b) /\
    delays w' = delays w ++ (capped_delay <$> seqZ 0 (Z.of_nat k)).
Proof.
  intros [Hfails Hsent] Hk Hsmall. unfold Transport._send_with_retry.
  destruct (retry_loop_run t kind b (Z.to_nat (Transport.max_retries t)) 0 None w)
    as (m & w' & out & Hloop & Hm & Hm0 & Hnet & Hsends & Hs & Hd & Hfail & Hres);
    [lia | lia |].
  assert (Hmk : m = S k).
  { destruct m as [| j]; [exfalso; apply Hm0; [lia | reflexivity] |].
    f_equal. destruct (Nat.lt_trichotomy j k) as [Hjk | [-> | Hjk]].
    - exfalso. destruct (Hfails j Hjk) as [msg Hmsg].
      rewrite Hmsg in Hres. cbn in Hres.
      destruct (Z.ltb_spec (0 + Z.of_nat j) (Transport.max_retries t - 1)); lia.
    - reflexivity.
    - exfalso. destruct (Hfail k ltac:(lia)) as [msg Hmsg]. congruence. }
  subst m. rewrite Hsent in Hres. cbn in Hres. subst out.
  exists w'. split; [exact Hloop |]. split; [exact Hnet |].
  split; [exact Hsends |]. split; [exact Hs |]. rewrite Hd.
  now replace (Z.of_nat (S k) - 1) with (Z.of_nat k) by lia.
Qed.

(** X11: a batch whose first [k] sends fail and whose next send goes
    through is sent [k + 1] times, with the [k] delays 1, 2, 4, ... in
    between, and no exception. *)
Theorem send_with_retry_succeeds_after t w kind b (k : nat) :
  fails_then_sent w k ->
  Z.of_nat k < Transport.max_retries t -> (k <= 1024)%nat ->
  exists w',
    Transport._send_with_retry t w kind b = (w', None) /\
    Transport.sends w' = (Transport.sends w + S k)%nat /\
    sent_batches w' = sent_batches w ++ replicate (S k) (kind, b) /\
    delays w' = delays w ++ (capped_delay <$> seqZ 0 (Z.of_nat k)).
Proof.
  intros Hw Hk Hsmall.
  destruct (send_with_retry_after_failures t w kind b k Hw Hk Hsmall)
    as (w' & H1 & _ & H2 & H3 & H4).
  exists w'. auto.
Qed.

(** *** Flushing *)

Lemma slice_partition (l : list A) n :
  Py.slice_to l n ++ Py.slice_from l n = l /\
  (1 <= n -> length (Py.slice_to l n) = Nat.min (Z.to_nat n) (length l)).
Proof.
  unfold Py.slice_to, Py.slice_from. split; [apply take_drop |].
  intros Hn. rewrite length_take. unfold Py.slice_index.
  destruct (Z.ltb_spec n 0); lia.
Qed.

Lemma send_batch_flushed kind t (q : list A) w :
  q <> [] ->
  flushed kind (Transport.max_batch_size t) (Transport.max_retries t) q
    (Py.slice_from q (Transport.max_batch_size t)) w
    (Transport._send_with_retry t w kind
       (Py.slice_to q (Transport.max_batch_size t))).1.
Proof.
  intros Hq.
  destruct (retry_run t w kind (Py.slice_to q (Transport.max_batch_size t)))
    as (m & w' & out & -> & Hm & Hs).
  destruct (slice_partition q (Transport.max_batch_size t)) as [Hp Hl].
  exists (Py.slice_to q (Transport.max_batch_size t)), m.
  repeat split; auto. intros ->. congruence.
Qed.

Lemma flush_errors_flushed t w :
  flushed "errors" (Transport.max_batch_size t) (Transport.max_retries t)
    (Transport._error_queue t)
    (Transport._error_queue (Transport._flush_errors t w).1.1) w
    (Transport._flush_errors t w).1.2 /\
  Transport._span_queue (Transport._flush_errors t w).1.1
  = Transport._span_queue t /\
  Transport._log_queue (Transport._flush_errors t w).1.1
  = Transport._log_queue t.
Proof.
  unfold Transport._flush_errors. destruct t as [mbs mr dbg eq sq lq].
  cbn [Transport._error_queue Transport._span_queue Transport._log_queue
       Transport.max_batch_size Transport.max_retries].
  destruct eq as [| x eq]; [split; [apply flushed_nothing | auto] |].
  unfold Transport.with_error_queue.
  cbn [Transport._error_queue Transport._span_queue Transport._log_queue
       Transport.max_batch_size Transport.max_retries Transport.debug].
  pose proof (send_batch_flushed "errors"
                (Transport.mkBaseTransport mbs mr dbg
                   (Py.slice_from (x :: eq) mbs) sq lq) (x :: eq) w
                ltac:(discriminate)) as H.
  cbn [Transport.max_batch_size Transport.max_retries] in H.
  destruct (Transport._send_with_retry _ w "errors" _) as [w' r]. auto.
Qed.

Lemma flush_spans_flushed t w :
  flushed "spans" (Transport.max_batch_size t) (Transport.max_retries t)
    (Transport._span_queue t)
    (Transport._span_queue (Transport._flush_spans t w).1.1) w
    (Transport._flush_spans t w).1.2 /\
  Transport._error_queue (Transport._flush_spans t w).1.1
  = Transport._error_queue t /\
  Transport._log_queue (Transport._flush_spans t w).1.1
  = Transport._log_queue t.
Proof.
  unfold Transport._flush_spans. destruct t as [mbs mr dbg eq sq lq].
  cbn [Transport._error_queue Transport._span_queue Transport._log_queue
       Transport.max_batch_size Transport.max_retries].
  destruct sq as [| x sq]; [split; [apply flushed_nothing | auto] |].
  unfold Transport.with_span_queue.
  cbn [Transport._error_queue Transport._span_queue Transport._log_queue
       Transport.max_batch_size Transport.max_retries Transport.debug].
  pose proof (send_batch_flushed "spans"
                (Transport.mkBaseTransport mbs mr dbg eq
                   (Py.slice_from (x :: sq) mbs) lq) (x :: sq) w
                ltac:(discriminate)) as H.
  cbn [Transport.max_batch_size Transport.max_retries] in H.
  destruct (Transport._send_with_retry _ w "spans" _) as [w' r]. auto.
Qed.

Lemma flush_logs_flushed t w :
  flushed "logs" (Transport.max_batch_size t) (Transport.max_retries t)
    (Transport._log_queue t)
    (Transport._log_queue (Transport._flush_logs t w).1.1) w
    (Transport._flush_logs t w).1.2 /\
  Transport._error_queue (Transport._flush_logs t w).1.1
  = Transport._error_queue t /\
  Transport._span_queue (Transport._flush_logs t w).1.1
  = Transport._span_queue t.
Proof.
  unfold Transport._flush_logs. destruct t as [mbs mr dbg eq sq lq].
  cbn [Transport._error_queue Transport._span_queue Transport._log_queue
       Transport.max_batch_size Transport.max_retries].
  destruct lq as [| x lq]; [split; [apply flushed_nothing | auto] |].
  unfold Transport.with_log_queue.
  cbn [Transport._error_queue Transport._span_queue Transport._log_queue
       Transport.max_batch_size Transport.max_retries Transport.debug].
  pose proof (send_batch_flushed "logs"
                (Transport.mkBaseTransport mbs mr dbg eq sq
                   (Py.slice_from (x :: lq) mbs)) (x :: lq) w
                ltac:(discriminate)) as H.
  cbn [Transport.max_batch_size Transport.max_retries] in H.
  destruct (Transport._send_with_retry _ w "logs" _) as [w' r]. auto.
Qed.

(** X12: a flush of a queue takes the oldest [max_batch_size] items (all
    of them if there are fewer) out of the queue and sends that batch, and
    nothing else, at most [max_retries] times; the rest stays queued in
    its order, and the other two queues are not touched. *)
Theorem flush_takes_oldest_batch t w :
  (flushed "errors" (Transport.max_batch_size t) (Transport.max_retries t)
     (Transport._error_queue t)
     (Transport._error_queue (Transport._flush_errors t w).1.1) w
     (Transport._flush_errors t w).1.2 /\
   Transport._span_queue (Transport._flush_errors t w).1.1
   = Transport._span_queue t /\
   Transport._log_queue (Transport._flush_errors t w).1.1
   = Transport._log_queue t) /\
  (flushed "spans" (Transport.max_batch_size t) (Transport.max_retries t)
     (Transport._span_queue t)
     (Transport._span_queue (Transport._flush_spans t w).1.1) w
     (Transport._flush_spans t w).1.2 /\
   Transport._error_queue (Transport._flush_spans t w).1.1
   = Transport._error_queue t /\
   Transport._log_queue (Transport._flush_spans t w).1.1
   = Transport._log_queue t) /\
  (flushed "logs" (Transport.max_batch_size t) (Transport.max_retries t)
     (Transport._log_queue t)
     (Transport._log_queue (Transport._flush_logs t w).1.1) w
     (Transport._flush_logs t w).1.2 /\
   Transport._error_queue (Transport._flush_logs t w).1.1
   = Transport._error_queue t /\
   Transport._span_queue (Transport._flush_logs t w).1.1
   = Transport._span_queue t).
Proof.
  split; [apply flush_errors_flushed |].
  split; [apply flush_spans_flushed | apply flush_logs_flushed].
Qed.

(** X13: on a backend that accepts every send, [flush] sends one batch of
    errors, then one of spans, then one of logs, each the oldest
    [max_batch_size] items of its queue and none for an empty queue, and
    leaves the rest of each queue. *)
Theorem flush_in_order t w :
  (forall i, Transport.network w i = Transport.Sent) ->
  1 <= Transport.max_retries t ->
  exists w',
    Transport.flush t w
    = (Transport.mkBaseTransport (Transport.max_batch_size t)
         (Transport.max_retries t) (Transport.debug t)
         (Py.slice_from (Transport._error_queue t) (Transport.max_batch_size t))
         (Py.slice_from (Transport._span_queue t) (Transport.max_batch_size t))
         (Py.slice_from (Transport._log_queue t) (Transport.max_batch_size t)),
       w', None) /\
    sent_batches w'
    = sent_batches w
        ++ batch_of "errors" (Transport.max_batch_size t) (Transport._error_queue t)
        ++ batch_of "spans" (Transport.max_batch_size t) (Transport._span_queue t)
        ++ batch_of "logs" (Transport.max_batch_size t) (Transport._log_queue t).
Proof.
  intros Hnet Hmr.
  assert (Hsend : forall t' w1 kind b,
            Transport.max_retries t' = Transport.max_retries t ->
            Transport.network w1 = Transport.network w ->
            exists w2, Transport._send_with_retry t' w1 kind b = (w2, None) /\
              Transport.network w2 = Transport.network w /\
              sent_batches w2 = sent_batches w1 ++ [(kind, b)]).
  { intros t' w1 kind b Ht' Hw1.
    destruct (send_with_retry_after_failures t' w1 kind b O)
      as (w2 & H1 & H2 & _ & H3 & _); [| lia | lia |].
    - split; [intros i Hi; lia |]. rewrite Hw1. apply Hnet.
    - exists w2. split; [exact H1 |]. split; [congruence | exact H3]. }
  assert (Hslice0 : forall n, Py.slice_from (@nil A) n = []).
  { intros n. unfold Py.slice_from. now rewrite drop_nil. }
  destruct t as [mbs mr dbg eq sq lq]. cbn [Transport._error_queue
    Transport._span_queue Transport._log_queue Transport.max_batch_size
    Transport.max_retries Transport.debug] in *.
  unfold Transport.flush.
  (* errors *)
  assert (He : exists w1,
            Transport._flush_errors (Transport.mkBaseTransport mbs mr dbg eq sq lq) w
            = (Transport.mkBaseTransport mbs mr dbg (Py.slice_from eq mbs) sq lq,
               w1, None) /\
            Transport.network w1 = Transport.network w /\
            sent_batches w1 = sent_batches w ++ batch_of "errors" mbs eq).
  { unfold Transport._flush_errors. cbn [Transport._error_queue].
    destruct eq as [| x eq].
    - exists w. rewrite Hslice0. cbn. now rewrite app_nil_r.
    - unfold Transport.with_error_queue. cbn [Transport._error_queue
        Transport._span_queue Transport._log_queue Transport.max_batch_size
        Transport.max_retries Transport.debug].
      edestruct Hsend as (w1 & -> & H1 & H2); [| reflexivity |];
        [reflexivity |]. exists w1. auto. }
  destruct He as (w1 & -> & Hnet1 & Hsent1).
  assert (Hs : exists w2,
            Transport._flush_spans
              (Transport.mkBaseTransport mbs mr dbg (Py.slice_from eq mbs) sq lq) w1
            = (Transport.mkBaseTransport mbs mr dbg (Py.slice_from eq mbs)
                 (Py.slice_from sq mbs) lq, w2, None) /\
            Transport.network w2 = Transport.network w /\
            sent_batches w2 = sent_batches w1 ++ batch_of "spans" mbs sq).
  { unfold Transport._flush_spans. cbn [Transport._span_queue].
    destruct sq as [| x sq].
    - exists w1. rewrite Hslice0. cbn. now rewrite app_nil_r.
    - unfold Transport.with_span_queue. cbn [Transport._error_queue
        Transport._span_queue Transport._log_queue Transport.max_batch_size
        Transport.max_retries Transport.debug].
      edestruct Hsend as (w2 & -> & H1 & H2); [| exact Hnet1 |];
        [reflexivity |]. exists w2. auto. }
  destruct Hs as (w2 & -> & Hnet2 & Hsent2).
  assert (Hl : exists w3,
            Transport._flush_logs
              (Transport.mkBaseTransport mbs mr dbg (Py.slice_from eq mbs)
                 (Py.slice_from sq mbs) lq) w2
            = (Transport.mkBaseTransport mbs mr dbg (Py.slice_from eq mbs)
                 (Py.slice_from sq mbs) (Py.slice_from lq mbs), w3, None) /\
            sent_batches w3 = sent_batches w2 ++ batch_of "logs" mbs lq).
  { unfold Transport._flush_logs. cbn [Transport._log_queue].
    destruct lq as [| x lq].
    - exists w2. rewrite Hslice0. cbn. now rewrite app_nil_r.
    - unfold Transport.with_log_queue. cbn [Transport._error_queue
        Transport._span_queue Transport._log_queue Transport.max_batch_size
        Transport.max_retries Transport.debug].
      edestruct Hsend as (w3 & -> & H1 & H2); [| exact Hnet2 |];
        [reflexivity |]. exists w3. auto. }
  destruct Hl as (w3 & -> & Hsent3).
  exists w3. split; [reflexivity |].
  rewrite Hsent3, Hsent2, Hsent1. now rewrite <- !app_assoc.
Qed.

End RetryRuns.

Lemma send_with_retry_succeeds_after_witness :
  let t := Transport.mkBaseTransport 100 3 false [] [] [] in
  let w := Transport.mkWorld
             (fun i => if (i <? 2)%nat then Transport.Fails "HTTP 503"
                       else Transport.Sent) O [] in
  exists w',
    Transport._send_with_retry t w "spans" [7%nat] = (w', None) /\
    sent_batches w' = replicate 3 ("spans", [7%nat]) /\
    delays w' = [1; 2].
Proof.
  intros t w.
  destruct (send_with_retry_succeeds_after t w "spans" [7%nat] 2)
    as (w' & Hrun & _ & Hs & Hd).
  - split; [| reflexivity].
    intros i Hi. exists "HTTP 503". cbn.
    destruct i as [| [| i]]; [reflexivity | reflexivity | lia].
  - cbn. lia.
  - lia.
  - exists w'. auto.
Defined.

Lemma flush_in_order_witness :
  let t := Transport.mkBaseTransport 2 3 false [1; 2; 3]%nat [] [4]%nat in
  let w := Transport.mkWorld always_sent O [] in
  exists w',
    Transport.flush t w
    = (Transport.mkBaseTransport 2 3 false [3%nat] [] [], w', None) /\
    sent_batches w' = [("errors", [1; 2]%nat); ("logs", [4%nat])].
Proof.
  intros t w.
  destruct (flush_in_order t w) as (w' & Hf & Hs);
    [reflexivity | cbn; lia |].
  exists w'. split; [exact Hf | exact Hs].
Defined.

(** ** Tracer: flush and close *)

Lemma tracer_flush_spec debug st t w :
  exists batch m,
    Tracer._finished_spans (TracerFlush.tracer (TracerFlush.flush debug st t w)) = [] /\
    Tracer._active_spans (TracerFlush.tracer (TracerFlush.flush debug st t w))
    = Tracer._active_spans st /\
    Tracer.heap (TracerFlush.tracer (TracerFlush.flush debug st t w))
    = Tracer.heap st /\
    Tracer._current_context (TracerFlush.tracer (TracerFlush.flush debug st t w))
    = Tracer._current_context st /\
    Transport._span_queue t ++ Tracer._finished_spans st
    = batch ++ Transport._span_queue
                 (TracerFlush.transport (TracerFlush.flush debug st t w)) /\
    sent_batches (TracerFlush.world (TracerFlush.flush debug st t w))
    = sent_batches w ++ replicate m ("spans", batch) /\
    Z.of_nat m <= Z.max 0 (Transport.max_retries t) /\
    match TracerFlush.raised (TracerFlush.flush debug st t w) with
    | Some e => TracerFlush.is_exception e = false
    | None => True
    end.
Proof.
  unfold TracerFlush.flush, TracerFlush._flush_spans.
  destruct (Tracer._finished_spans st) as [| x q] eqn:Hq.
  - exists [], O. cbn. rewrite Hq, !app_nil_r. repeat split; auto; lia.
  - cbv zeta. unfold Transport.send_spans.
    set (t1 := Transport.with_span_queue t (Transport._span_queue t ++ x :: q)).
    assert (Hout : forall t2 w2 r batch m,
              Transport._span_queue t ++ x :: q = batch ++ Transport._span_queue t2 ->
              sent_batches w2 = sent_batches w ++ replicate m ("spans", batch) ->
              Z.of_nat m <= Z.max 0 (Transport.max_retries t) ->
              let o :=
                match r with
                | None => TracerFlush.mkOutcome
                            (Tracer.with_finished st [] (Tracer.flush_tasks st))
                            t2 w2 [] None
                | Some e =>
                    if TracerFlush.is_exception e
                    then TracerFlush.mkOutcome
                           (Tracer.with_finished st [] (Tracer.flush_tasks st))
                           t2 w2 (if debug then [e] else []) None
                    else TracerFlush.mkOutcome
                           (Tracer.with_finished st [] (Tracer.flush_tasks st))
                           t2 w2 [] (Some e)
                end in
              Tracer._finished_spans (TracerFlush.tracer o) = [] /\
              Tracer._active_spans (TracerFlush.tracer o) = Tracer._active_spans st /\
              Tracer.heap (TracerFlush.tracer o) = Tracer.heap st /\
              Tracer._current_context (TracerFlush.tracer o)
              = Tracer._current_context st /\
              Transport._span_queue t ++ x :: q
              = batch ++ Transport._span_queue (TracerFlush.transport o) /\
              sent_batches (TracerFlush.world o)
              = sent_batches w ++ replicate m ("spans", batch) /\
              Z.of_nat m <= Z.max 0 (Transport.max_retries t) /\
              match TracerFlush.raised o with
              | Some e => TracerFlush.is_exception e = false
              | None => True
              end).
    { intros t2 w2 r batch m H1 H2 H3.
      destruct r as [e |]; [destruct (TracerFlush.is_exception e) eqn:He |];
        cbn; auto 10. }
    destruct (Transport.max_batch_size t1 <=? _).
    + destruct (flush_spans_flushed t1 w) as [(batch & m & Hb & _ & Hm & _ & Hs) _].
      destruct (Transport._flush_spans t1 w) as [[t2 w2] r].
      exists batch, m. apply Hout; auto.
    + exists [], O. apply (Hout t1 w None); cbn; [reflexivity | | lia].
      now rewrite app_nil_r.
Qed.

(** X8: [Tracer.flush] empties the queue of finished spans and touches
    nothing else of the tracer.  Every finished span is afterwards in the
    span queue of the transport, behind what was queued, or in the one
    batch that was handed to [send_payload]; an [Exception] of the
    transport does not reach the caller. *)
Theorem tracer_flush_hands_over debug st t w :
  exists o batch m,
    TracerFlush.flush debug st t w = o /\
    Tracer._finished_spans (TracerFlush.tracer o) = [] /\
    Tracer._active_spans (TracerFlush.tracer o) = Tracer._active_spans st /\
    Tracer.heap (TracerFlush.tracer o) = Tracer.heap st /\
    Tracer._current_context (TracerFlush.tracer o) = Tracer._current_context st /\
    Transport._span_queue t ++ Tracer._finished_spans st
    = batch ++ Transport._span_queue (TracerFlush.transport o) /\
    sent_batches (TracerFlush.world o)
    = sent_batches w ++ replicate m ("spans", batch) /\
    Z.of_nat m <= Z.max 0 (Transport.max_retries t) /\
    match TracerFlush.raised o with
    | Some e => TracerFlush.is_exception e = false
    | None => True
    end.
Proof.
  destruct (tracer_flush_spec debug st t w) as (batch & m & H).
  exists (TracerFlush.flush debug st t w), batch, m. split; [reflexivity | exact H].
Qed.

(** X9: a [Tracer.close] that returns leaves an empty registry, hence no
    active span, and no finished span in the tracer; the ambient context is
    not reset.  When the flush is interrupted by something that is no
    [Exception], the registry is left as it was. *)
Theorem tracer_close_clears_registry debug st t w :
  exists o,
    TracerFlush.close debug st t w = o /\
    Tracer._finished_spans (TracerFlush.tracer o) = [] /\
    Tracer._current_context (TracerFlush.tracer o) = Tracer._current_context st /\
    match TracerFlush.raised o with
    | None => Tracer._active_spans (TracerFlush.tracer o) = ∅ /\
              Tracer.get_active_span (TracerFlush.tracer o) = None
    | Some e => TracerFlush.is_exception e = false /\
                Tracer._active_spans (TracerFlush.tracer o) = Tracer._active_spans st
    end.
Proof.
  eexists. split; [reflexivity |].
  destruct (tracer_flush_spec debug st t w)
    as (batch & m & Hf & Ha & _ & Hc & _ & _ & _ & Hr).
  unfold TracerFlush.close.
  destruct (TracerFlush.raised (TracerFlush.flush debug st t w)) as [e |] eqn:He.
  - rewrite He. auto.
  - cbn. split; [exact Hf |]. split; [exact Hc |]. split; [reflexivity |].
    unfold Tracer.get_active_span. cbn.
    destruct (Tracer._current_context _); [apply lookup_empty | reflexivity].
Qed.

(** ** DSN parsing *)

Lemma startswith_spec p : forall s,
  PyStr.startswith p s = true -> s = p +:+ PyStr.drop (String.length p) s.
Proof.
  induction p as [| a p IH]; intros s; [reflexivity |].
  destruct s as [| b s]; [discriminate |]. cbn [PyStr.startswith].
  intros [Hab Hs]%andb_prop. apply Ascii.eqb_eq in Hab as ->.
  rewrite app_cons. cbn [String.length PyStr.drop]. f_equal. now apply IH.
Qed.

Lemma partition_first_inv sep : forall s a b,
  PyStr.partition_first sep s = Some (a, b) ->
  s = a +:+ String sep b /\ no_char sep a = true.
Proof.
  unfold no_char. induction s as [| c s IH]; intros a b; [discriminate |].
  cbn [PyStr.partition_first]. destruct (Ascii.eqb_spec c sep) as [-> | Hne].
  - intros [= <- <-]. now rewrite app_nil.
  - destruct (PyStr.partition_first sep s) as [[a' b'] |]; [| discriminate].
    intros [= <- <-]. destruct (IH a' b' eq_refl) as [-> Hno].
    rewrite app_cons. split; [reflexivity |]. cbn.
    destruct (Ascii.eqb_spec c sep); [contradiction | exact Hno].
Qed.

Lemma match_until_inv c s a b :
  Config.match_until c s = Some (a, b) ->
  s = a +:+ String c b /\ no_char c a = true /\ a <> "".
Proof.
  unfold Config.match_until.
  destruct (PyStr.partition_first c s) as [[a' b'] |] eqn:Hp; [| discriminate].
  destruct a' as [| x a']; [discriminate |]. intros [= <- <-].
  destruct (partition_first_inv _ _ _ _ Hp) as [-> Hno]. now repeat split.
Qed.

Lemma match_until_app c a b :
  no_char c a = true -> a <> "" ->
  Config.match_until c (a +:+ String c b) = Some (a, b).
Proof.
  intros Hno Hne. unfold Config.match_until.
  destruct (partition_first_app c a b Hno) as [-> _].
  destruct a; [congruence | reflexivity].
Qed.

Lemma is_line_feed c : (Py.code c =? 10) = Ascii.eqb c line_feed.
Proof. each_ascii c; reflexivity. Qed.

Lemma line_prefix_spec : forall s a b,
  Config.line_prefix s = (a, b) ->
  s = a +:+ b /\ no_char line_feed a = true /\
  (b = "" \/ exists r, b = String line_feed r).
Proof.
  unfold no_char. induction s as [| c s IH]; intros a b.
  - intros [= <- <-]. auto.
  - cbn [Config.line_prefix]. rewrite is_line_feed.
    destruct (Ascii.eqb_spec c line_feed) as [-> | Hne].
    + intros [= <- <-]. rewrite app_nil. eauto.
    + destruct (Config.line_prefix s) as [a' b'].
      intros [= <- <-]. destruct (IH a' b' eq_refl) as (-> & Hno & Hb).
      rewrite app_cons. split; [reflexivity |]. split; [| exact Hb].
      cbn. destruct (Ascii.eqb_spec c line_feed); [contradiction | exact Hno].
Qed.

Lemma line_prefix_app a b :
  no_char line_feed a = true -> (b = "" \/ exists r, b = String line_feed r) ->
  Config.line_prefix (a +:+ b) = (a, b).
Proof.
  unfold no_char. intros Hno Hb. induction a as [| c a IH].
  - rewrite app_nil. destruct Hb as [-> | [r ->]]; reflexivity.
  - rewrite app_cons. cbn [Config.line_prefix]. rewrite is_line_feed.
    cbn in Hno. apply negb_true_iff, orb_false_elim in Hno as [Hc Hno].
    rewrite Hc, IH; [reflexivity |]. now apply negb_true_iff.
Qed.

Lemma match_rest_inv s p :
  Config.match_rest s = Some p ->
  p <> "" /\ no_char line_feed p = true /\
  (s = p \/ s = p +:+ String line_feed "").
Proof.
  unfold Config.match_rest.
  destruct (Config.line_prefix s) as [a b] eqn:Hl.
  destruct (line_prefix_spec _ _ _ Hl) as (-> & Hno & Hb).
  destruct a as [| x a]; [discriminate |].
  destruct b as [| y [| z b]]; try discriminate; intros [= <-].
  - split; [discriminate |]. split; [exact Hno |]. left.
    clear. generalize (String x a). intros s. induction s; [reflexivity |].
    rewrite app_cons. now f_equal.
  - split; [discriminate |]. split; [exact Hno |]. right.
    destruct Hb as [? | [r [= -> _]]]; [discriminate | reflexivity].
Qed.

Lemma string_app_nil_r (s : string) : s +:+ "" = s.
Proof. induction s; [reflexivity |]. rewrite app_cons. now f_equal. Qed.

Lemma match_rest_line p :
  p <> "" -> no_char line_feed p = true ->
  Config.match_rest p = Some p /\
  Config.match_rest (p +:+ String line_feed "") = Some p.
Proof.
  intros Hne Hno. unfold Config.match_rest. split.
  - rewrite <- (string_app_nil_r p) at 1.
    rewrite (line_prefix_app p "" Hno) by auto. now destruct p.
  - rewrite (line_prefix_app p _ Hno) by eauto. now destruct p.
Qed.

Lemma match_protocol_inv s pr r :
  Config.match_protocol s = Some (pr, r) ->
  s = pr +:+ "://" +:+ r /\ (pr = "syn" \/ pr = "http" \/ pr = "https").
Proof.
  unfold Config.match_protocol.
  destruct (PyStr.startswith "syn://" s) eqn:H1;
    [| destruct (PyStr.startswith "https://" s) eqn:H2;
       [| destruct (PyStr.startswith "http://" s) eqn:H3; [| discriminate]]];
    intros [= <- <-];
    match goal with H : PyStr.startswith _ s = true |- _ =>
      apply startswith_spec in H; rewrite H at 1 end; auto.
Qed.

Lemma match_protocol_app pr r :
  pr = "syn" \/ pr = "http" \/ pr = "https" ->
  Config.match_protocol (pr +:+ "://" +:+ r) = Some (pr, r).
Proof. intros [-> | [-> | ->]]; reflexivity. Qed.

Lemma dsn_parts_ok_spec p :
  dsn_parts_ok p = true <->
  (Config.protocol p = "syn" \/ Config.protocol p = "http" \/
   Config.protocol p = "https") /\
  Config.public_key p <> "" /\ no_char "@" (Config.public_key p) = true /\
  Config.host p <> "" /\ no_char "/" (Config.host p) = true /\
  Config.project_id p <> "" /\ no_char line_feed (Config.project_id p) = true.
Proof.
  unfold dsn_parts_ok.
  rewrite !andb_true_iff, !orb_true_iff, !negb_true_iff, !String.eqb_eq,
    !String.eqb_neq.
  tauto.
Qed.

Lemma re_match_dsn_format p tail :
  dsn_parts_ok p = true -> tail = "" \/ tail = String line_feed "" ->
  Config.re_match_dsn (format_dsn p +:+ tail)
  = Some (Config.protocol p, Config.public_key p, Config.host p, Config.project_id p).
Proof.
  intros (Hpr & Hk & Hk' & Hh & Hh' & Hj & Hj')%dsn_parts_ok_spec Htail.
  destruct p as [pr k h j]. cbn [Config.protocol Config.public_key Config.host
    Config.project_id] in *. unfold format_dsn, Config.re_match_dsn.
  cbn [Config.protocol Config.public_key Config.host Config.project_id].
  replace ((pr +:+ "://" +:+ k +:+ "@" +:+ h +:+ "/" +:+ j) +:+ tail)
    with (pr +:+ "://" +:+ (k +:+ String "@" (h +:+ String "/" (j +:+ tail)))).
  2:{ now rewrite !string_app_assoc. }
  rewrite (match_protocol_app pr _ Hpr).
  rewrite (match_until_app "@" k _ Hk' Hk), (match_until_app "/" h _ Hh' Hh).
  destruct (match_rest_line j Hj Hj') as [H1 H2].
  destruct Htail as [-> | ->]; [rewrite string_app_nil_r, H1 | rewrite H2];
    reflexivity.
Qed.

(** X14: a DSN written in the format [<protocol>://<key>@<host>/<project>]
    parses to its four parts, and so does the same text followed by one line
    feed ([$] matches before it); [is_valid_dsn] accepts both. *)
Theorem parse_dsn_format p :
  dsn_parts_ok p = true ->
  Config.parse_dsn (format_dsn p) = inr p /\
  Config.parse_dsn (format_dsn p +:+ String line_feed "") = inr p /\
  Config.is_valid_dsn (format_dsn p) = true.
Proof.
  intros Hok.
  pose proof (re_match_dsn_format p "" Hok ltac:(auto)) as H1.
  pose proof (re_match_dsn_format p _ Hok ltac:(auto)) as H2.
  rewrite string_app_nil_r in H1.
  apply dsn_parts_ok_spec in Hok as (Hpr & Hk & _ & Hh & _ & Hj & _).
  apply String.eqb_neq in Hk, Hh, Hj.
  assert (Hne : forall t, String.eqb (format_dsn p +:+ t) "" = false).
  { intros t. apply String.eqb_neq. unfold format_dsn.
    destruct Hpr as [-> | [-> | ->]]; discriminate. }
  assert (H : Config.parse_dsn (format_dsn p) = inr p).
  { unfold Config.parse_dsn. pose proof (Hne "") as Hne0.
    rewrite string_app_nil_r in Hne0. rewrite Hne0, H1, Hk, Hh, Hj.
    now destruct p. }
  split; [exact H |]. split.
  - unfold Config.parse_dsn. rewrite Hne, H2, Hk, Hh, Hj. now destruct p.
  - unfold Config.is_valid_dsn. now rewrite H.
Qed.

Lemma parse_dsn_format_witness :
  Config.parse_dsn "syn://pk_x@localhost:3000/proj_y"
  = inr (Config.mkParsedDSN "syn" "pk_x" "localhost:3000" "proj_y").
Proof.
  exact (proj1 (parse_dsn_format
                  (Config.mkParsedDSN "syn" "pk_x" "localhost:3000" "proj_y")
                  eq_refl)).
Defined.

Lemma parse_dsn_parts dsn p :
  Config.parse_dsn dsn = inr p ->
  dsn_parts_ok p = true /\
  (dsn = format_dsn p \/ dsn = format_dsn p +:+ String line_feed "").
Proof.
  unfold Config.parse_dsn. destruct (String.eqb dsn ""); [discriminate |].
  unfold Config.re_match_dsn.
  destruct (Config.match_protocol dsn) as [[pr r1] |] eqn:H1; [| discriminate].
  destruct (Config.match_until "@" r1) as [[k r2] |] eqn:H2; [| discriminate].
  destruct (Config.match_until "/" r2) as [[h r3] |] eqn:H3; [| discriminate].
  destruct (Config.match_rest r3) as [j |] eqn:H4; [| discriminate].
  destruct (String.eqb k ""); [discriminate |].
  destruct (String.eqb h ""); [discriminate |].
  destruct (String.eqb j ""); [discriminate |].
  intros [= <-].
  apply match_protocol_inv in H1 as [-> Hpr].
  apply match_until_inv in H2 as (-> & Hk' & Hk).
  apply match_until_inv in H3 as (-> & Hh' & Hh).
  apply match_rest_inv in H4 as (Hj & Hj' & Hr3).
  split; [apply dsn_parts_ok_spec; cbn; auto 10 |].
  unfold format_dsn. cbn [Config.protocol Config.public_key Config.host
    Config.project_id].
  destruct Hr3 as [-> | ->]; [left | right];
    now rewrite ?string_app_assoc.
Qed.

(** X15: what [parse_dsn] accepts is a DSN in that format, or one followed
    by a single line feed: the parts it returns are not empty, the protocol
    is one of the three, the key has no ["@"], the host no ["/"], the
    project id no line feed.  The ingest URL built from them has the scheme
    [http] or [https], never [syn]. *)
Theorem parse_dsn_sound dsn p :
  Config.parse_dsn dsn = inr p ->
  dsn_parts_ok p = true /\
  (dsn = format_dsn p \/ dsn = format_dsn p +:+ String line_feed "") /\
  Config.build_ingest_url p
  = (if String.eqb (Config.protocol p) "http" then "http" else "https")
    +:+ "://" +:+ Config.host p +:+ "/api/v1/telemetry".
Proof.
  intros Hp. destruct (parse_dsn_parts dsn p Hp) as [Hok Hfmt].
  split; [exact Hok |]. split; [exact Hfmt |].
  apply dsn_parts_ok_spec in Hok as (Hpr & _).
  unfold Config.build_ingest_url.
  destruct Hpr as [-> | [-> | ->]]; reflexivity.
Qed.

Lemma parse_dsn_sound_witness :
  dsn_parts_ok (Config.mkParsedDSN "https" "k" "h@x" "a/b") = true /\
  Config.build_ingest_url (Config.mkParsedDSN "https" "k" "h@x" "a/b")
  = "https://h@x/api/v1/telemetry".
Proof.
  destruct (parse_dsn_sound "https://k@h@x/a/b"
              (Config.mkParsedDSN "https" "k" "h@x" "a/b") eq_refl)
    as (H1 & _ & H2).
  split; [exact H1 | exact H2].
Defined.

(** ** The breadcrumb buffer *)

Lemma pop_oldest_spec max l :
  0 <= max ->
  BreadcrumbBuffer.pop_oldest max l = inr (last_entries (Z.to_nat max) l).
Proof.
  intros Hmax. unfold last_entries.
  induction l as [| x l IH]; cbn [BreadcrumbBuffer.pop_oldest length].
  - destruct (Z.ltb_spec max (Z.of_nat 0)); [lia | reflexivity].
  - destruct (Z.ltb_spec max (Z.of_nat (S (length l)))) as [Hlt | Hge].
    + rewrite IH.
      replace (S (length l) - Z.to_nat max)%nat
        with (S (length l - Z.to_nat max)) by lia.
      reflexivity.
    + replace (S (length l) - Z.to_nat max)%nat with O by lia. reflexivity.
Qed.

Lemma last_entries_last {X} k (l r : list X) :
  last_entries k (last_entries k l ++ r) = last_entries k (l ++ r).
Proof. apply last_entries_app. Qed.

Lemma replay_last_entries k cs : forall held,
  last_entries k (replay (last_entries k held) cs)
  = last_entries k (replay held cs).
Proof.
  induction cs as [| c cs IH]; intros held.
  - unfold replay. cbn. unfold last_entries.
    rewrite length_drop, drop_drop. f_equal. lia.
  - unfold replay in *. cbn [fold_left]. destruct c as [a |]; [| reflexivity].
    rewrite <- IH, last_entries_last, IH. reflexivity.
Qed.

Lemma buffer_run_spec cs : forall b,
  0 <= BreadcrumbBuffer._max_size b ->
  buffer_run b cs
  = inr (BreadcrumbBuffer.mkBreadcrumbBuffer (BreadcrumbBuffer._max_size b)
           (match cs with
            | [] => BreadcrumbBuffer._buffer b
            | _ => last_entries (Z.to_nat (BreadcrumbBuffer._max_size b))
                     (replay (BreadcrumbBuffer._buffer b) cs)
            end)).
Proof.
  induction cs as [| c cs IH]; intros [m l] Hm; [reflexivity |].
  cbn [BreadcrumbBuffer._max_size BreadcrumbBuffer._buffer] in *.
  cbn [buffer_run]. destruct c as [a |].
  - cbn [buffer_invoke]. unfold BreadcrumbBuffer.add.
    cbn [BreadcrumbBuffer._max_size BreadcrumbBuffer._buffer].
    rewrite pop_oldest_spec by exact Hm. rewrite IH by exact Hm.
    cbn [BreadcrumbBuffer._max_size BreadcrumbBuffer._buffer]. f_equal. f_equal.
    destruct cs as [| c' cs]; [reflexivity |].
    change (replay l (BufferAdd a :: c' :: cs))
      with (replay (l ++ [crumb_of a]) (c' :: cs)).
    apply replay_last_entries.
  - cbn [buffer_invoke]. unfold BreadcrumbBuffer.clear.
    cbn [BreadcrumbBuffer._max_size BreadcrumbBuffer._buffer].
    rewrite IH by exact Hm.
    cbn [BreadcrumbBuffer._max_size BreadcrumbBuffer._buffer]. f_equal. f_equal.
    destruct cs as [| c' cs]; reflexivity.
Qed.

(** X16: a [BreadcrumbBuffer] has a capacity of at least one, whatever
    [max_size] it was created with, and no sequence of [add] and [clear]
    calls raises or takes it over its capacity: it holds the last
    [capacity] breadcrumbs added since the last [clear], oldest first. *)
Theorem buffer_keeps_last max_size cs :
  exists b,
    buffer_run (BreadcrumbBuffer.init max_size) cs = inr b /\
    BreadcrumbBuffer.capacity b = Z.max 1 max_size /\
    BreadcrumbBuffer.get_all b
    = last_entries (Z.to_nat (Z.max 1 max_size)) (replay [] cs) /\
    0 <= BreadcrumbBuffer.count b <= BreadcrumbBuffer.capacity b.
Proof.
  eexists. split; [apply buffer_run_spec; cbn; lia |].
  cbn [BreadcrumbBuffer.init BreadcrumbBuffer._max_size
       BreadcrumbBuffer._buffer BreadcrumbBuffer.capacity
       BreadcrumbBuffer.get_all BreadcrumbBuffer.count].
  split; [reflexivity |].
  destruct cs as [| c cs].
  - split; [reflexivity |]. unfold BreadcrumbBuffer.count.
    cbn [BreadcrumbBuffer._buffer length]. lia.
  - split; [reflexivity |]. unfold BreadcrumbBuffer.count, last_entries.
    cbn [BreadcrumbBuffer._buffer]. rewrite length_drop. lia.
Qed.

(** X17: [get_last(n)] is the last [n] breadcrumbs for [n >= 1] (all of
    them if there are fewer); [get_last(0)] is the whole buffer, not the
    empty list, and a negative [n] drops the first [-n]. *)
Theorem get_last_spec b n :
  BreadcrumbBuffer.get_last b n
  = if 0 <? n then last_entries (Z.to_nat n) (BreadcrumbBuffer._buffer b)
    else drop (Z.to_nat (- n)) (BreadcrumbBuffer._buffer b).
Proof.
  unfold BreadcrumbBuffer.get_last, Py.slice_from, Py.slice_index, last_entries.
  destruct (Z.ltb_spec 0 n) as [Hpos | Hneg].
  - destruct (Z.ltb_spec (- n) 0); [| lia]. f_equal. lia.
  - destruct (Z.ltb_spec (- n) 0); [lia |].
    destruct (Z.le_gt_cases (Z.of_nat (length (BreadcrumbBuffer._buffer b))) (- n)).
    + rewrite !drop_ge by lia. reflexivity.
    + f_equal. lia.
Qed.

(** ** OTLP conversions *)

(** X18: [_convert_attributes] gives one key-value pair per attribute, in
    the order of the dict and under the same key.  A [bool] attribute comes
    out as an [int_value] that holds the [bool], since the [int] test comes
    before the [bool] test; no [bool_value] is ever produced. *)
Theorem convert_attributes_no_bool_value attrs :
  map Otlp.key (Otlp._convert_attributes attrs) = map fst attrs /\
  forallb (fun kv => negb (is_bool_value (Otlp.value kv)))
    (Otlp._convert_attributes attrs) = true /\
  forall i k b, attrs !! i = Some (k, Otlp.Scalar (Types.VBool b)) ->
    Otlp._convert_attributes attrs !! i
    = Some (Otlp.mkKeyValue k (Otlp.int_value (Otlp.Scalar (Types.VBool b)))).
Proof.
  unfold Otlp._convert_attributes. split; [| split].
  - rewrite map_map. apply map_ext. intros [k v]. cbn.
    unfold Otlp.convert_attribute. destruct v as [[s | z | f | b] | s]; reflexivity.
  - rewrite forallb_forall. intros kv [[k v] [<- _]]%in_map_iff. cbn.
    destruct v as [[s | z | f | b] | s]; reflexivity.
  - intros i k b Hi. change (map ?f ?l) with (f <$> l).
    rewrite list_lookup_fmap, Hi. reflexivity.
Qed.

(** X19: the number tables of the OTLP conversion agree with the
    enumerations of [types.py]: every span kind has a number of its own
    from 1 to 5, and only a text that is no span kind gets 0; the status
    codes get 0, 1 and 2; the severity of a log level does not depend on
    the case of its letters and grows with the level. *)
Theorem otlp_numbers_match_enums :
  (forall k, 1 <= Otlp._span_kind_to_number (EnumValue.SpanKind_value k) <= 5) /\
  (forall k1 k2,
     Otlp._span_kind_to_number (EnumValue.SpanKind_value k1)
     = Otlp._span_kind_to_number (EnumValue.SpanKind_value k2) -> k1 = k2) /\
  (forall s, Otlp._span_kind_to_number s = 0 <->
             forall k, EnumValue.SpanKind_value k <> s) /\
  (forall c, Otlp._status_code_to_number (EnumValue.SpanStatusCode_value c)
             = match c with Types.UNSET => 0 | Types.OK => 1 | Types.ERROR => 2 end) /\
  (forall s, Otlp._level_to_severity_number (Py.lower s)
             = Otlp._level_to_severity_number s) /\
  (forall l1 l2, LogLevel_rank l1 < LogLevel_rank l2 ->
     Otlp._level_to_severity_number (EnumValue.LogLevel_value l1)
     < Otlp._level_to_severity_number (EnumValue.LogLevel_value l2)).
Proof.
  split; [intros []; split; now vm_compute |].
  split; [intros [] []; vm_compute; congruence |].
  split.
  { intros s. unfold Otlp._span_kind_to_number. split.
    - intros H k <-. destruct k; discriminate.
    - intros H.
      repeat match goal with
             | |- context [String.eqb s ?x] =>
                 destruct (String.eqb_spec s x) as [-> | _]
             end; try reflexivity; exfalso.
      + now apply (H Types.INTERNAL).
      + now apply (H Types.SERVER).
      + now apply (H Types.CLIENT).
      + now apply (H Types.PRODUCER).
      + now apply (H Types.CONSUMER). }
  split; [intros []; reflexivity |].
  split.
  { intros s. unfold Otlp._level_to_severity_number.
    assert (Hidem : Py.lower (Py.lower s) = Py.lower s).
    { induction s as [| c s IH]; [reflexivity |]. cbn. f_equal; [| exact IH].
      clear. each_ascii c; reflexivity. }
    now rewrite Hidem. }
  intros [] []; vm_compute; congruence.
Qed.

(** ** More on scopes *)

Lemma ring_trim_negative max l :
  max < 0 -> Scope.ring_trim max l = inl Py.IndexError.
Proof.
  intros Hmax. induction l as [| x l IH]; cbn [Scope.ring_trim length].
  - destruct (Z.ltb_spec max (Z.of_nat 0)); [reflexivity | lia].
  - destruct (Z.ltb_spec max (Z.of_nat (S (length l)))); [exact IH | lia].
Qed.

(** X20: with a negative [_max_breadcrumbs], [add_breadcrumb] raises
    [IndexError]: the loop pops until the list is empty and then pops once
    more. *)
Theorem add_breadcrumb_negative_capacity
    s type category message data level now h X :
  h !! Scope.breadcrumbs s = Some (Scope.List X) ->
  Scope._max_breadcrumbs s < 0 ->
  Scope.add_breadcrumb s type category message data level now h
  = inl Py.IndexError.
Proof.
  intros Hb Hmax.
  unfold Scope.add_breadcrumb, Scope.bind, Scope.alloc, Scope.get_list.
  rewrite lookup_app_l by (now apply lookup_lt_Some in Hb).
  now rewrite Hb, ring_trim_negative.
Qed.

Lemma add_breadcrumb_negative_capacity_witness :
  Scope.add_breadcrumb (Scope.mkScope None 0 1 2 None (-1)) BreadcrumbType.HTTP
    "http" None None BreadcrumbLevel.INFO "2024-01-01T00:00:00+00:00"
    [Scope.Dict ∅; Scope.Dict ∅; Scope.List []]
  = inl Py.IndexError.
Proof.
  apply (add_breadcrumb_negative_capacity _ _ _ _ _ _ _ _ []); [reflexivity |].
  cbn. lia.
Defined.

(** X21: a scope never holds more breadcrumbs than its capacity after an
    insertion, whatever it held before, and it evicts the oldest first: the
    list is the last [_max_breadcrumbs] entries of the old list followed by
    the new breadcrumbs.  While there is room nothing is evicted. *)
Theorem breadcrumbs_bounded s h X a cs :
  h !! Scope.breadcrumbs s = Some (Scope.List X) ->
  0 <= Scope._max_breadcrumbs s ->
  exists h' Y,
    add_breadcrumbs s (a :: cs) h = inr (s, h') /\
    read_list h' (Scope.breadcrumbs s) = Some Y /\
    Y = last_entries (Z.to_nat (Scope._max_breadcrumbs s))
          (X ++ (Scope.VRef <$> seq (length h) (S (length cs)))) /\
    Z.of_nat (length Y)
    = Z.min (Scope._max_breadcrumbs s) (Z.of_nat (length X + S (length cs))) /\
    (Z.of_nat (length X + S (length cs)) <= Scope._max_breadcrumbs s ->
     Y = X ++ (Scope.VRef <$> seq (length h) (S (length cs)))) /\
    (forall i c, (a :: cs) !! i = Some c ->
       read_crumb h' (Scope.VRef (length h + i)) = Some (crumb_of c)).
Proof.
  intros Hb Hmax. pose proof (lookup_lt_Some _ _ _ Hb) as Hlt.
  eexists _, _. split; [apply (add_breadcrumbs_spec s cs a h X Hb Hmax) |].
  cbv zeta. split; [| split; [reflexivity | split; [| split]]].
  - unfold read_list.
    now rewrite list_lookup_insert_eq by (rewrite length_app; lia).
  - unfold last_entries.
    rewrite length_drop, length_app, length_fmap, length_seq. lia.
  - intros Hroom. unfold last_entries.
    rewrite length_app, length_fmap, length_seq.
    now replace (length X + S (length cs) - Z.to_nat (Scope._max_breadcrumbs s))%nat
      with O by lia.
  - intros i c Hi. unfold read_crumb.
    pose proof (lookup_lt_Some _ _ _ Hi) as Hi'.
    rewrite list_lookup_insert_ne by lia.
    rewrite lookup_app_r by lia.
    replace (length h + i - length h)%nat with i by lia.
    now rewrite !list_lookup_fmap, Hi.
Qed.

Lemma breadcrumbs_bounded_witness :
  let two :=
    [mkCrumbArgs BreadcrumbType.HTTP "a" None None BreadcrumbLevel.INFO "t0";
     mkCrumbArgs BreadcrumbType.UI "b" None None BreadcrumbLevel.INFO "t1"] in
  let s := Scope.mkScope None 0 1 2 None 5 in
  let h := [Scope.Dict ∅; Scope.Dict ∅; Scope.List []] in
  exists h',
    add_breadcrumbs s two h = inr (s, h') /\
    read_list h' (Scope.breadcrumbs s) = Some [Scope.VRef 3; Scope.VRef 4].
Proof.
  intros two s h.
  destruct (breadcrumbs_bounded s h []
              (mkCrumbArgs BreadcrumbType.HTTP "a" None None BreadcrumbLevel.INFO "t0")
              [mkCrumbArgs BreadcrumbType.UI "b" None None BreadcrumbLevel.INFO "t1"])
    as (h' & Y & Hrun & Hread & _ & _ & Hroom & _);
    [reflexivity | cbn; lia |].
  exists h'. split; [exact Hrun |].
  rewrite Hread, Hroom by (cbn; lia). reflexivity.
Defined.

(** X22: [set_tags] is [dict.update] on the tags of the scope: an entry of
    the argument replaces the tag of the same key, the other tags stay, and
    nothing else of the scope changes, provided the tags dict is not also
    the scope's [extra] or [user] dict.  [set_tag] is [set_tags] with one
    entry. *)
Theorem set_tags_updates s new h snap :
  snapshot h s = Some snap ->
  Scope.tags s <> Scope.extra s -> Scope.user s <> Some (Scope.tags s) ->
  exists h',
    Scope.set_tags s new h = inr (s, h') /\
    snapshot h' s
    = Some (mkSnapshot (snap_user snap) ((Scope.VStr <$> new) ∪ snap_tags snap)
              (snap_extra snap) (snap_breadcrumbs snap) (snap_fingerprint snap)
              (snap_max snap)) /\
    (forall k, ((Scope.VStr <$> new) ∪ snap_tags snap) !! k
               = match new !! k with
                 | Some v => Some (Scope.VStr v)
                 | None => snap_tags snap !! k
                 end) /\
    (forall k v, Scope.set_tag s k v h = Scope.set_tags s {[k := v]} h).
Proof.
  intros Hs Hte Htu.
  pose proof (snapshot_locs_live h s snap Hs) as Hlive.
  assert (Ht := Hlive (Scope.tags s)
                  ltac:(unfold all_locs, own_locs; apply elem_of_app; left; now left)).
  unfold snapshot, read_optional, read_dict, read_list in Hs.
  unfold Scope.set_tags, Scope.set_tag, Scope.bind, Scope.ret, Scope.put,
    Scope.get_dict.
  destruct (h !! Scope.tags s) as [[dt | |] |] eqn:Et;
    try (destruct (Scope.user s) as [u |]; [destruct (h !! u) as [[] |] |];
         discriminate).
  eexists. split; [reflexivity |].
  assert (Hsnap : snap_tags snap = dt /\
            snapshot (<[Scope.tags s := Scope.Dict ((Scope.VStr <$> new) ∪ dt)]> h) s
            = Some (mkSnapshot (snap_user snap) ((Scope.VStr <$> new) ∪ dt)
                      (snap_extra snap) (snap_breadcrumbs snap)
                      (snap_fingerprint snap) (snap_max snap))).
  { unfold snapshot, read_optional, read_dict, read_list.
    rewrite list_lookup_insert_eq by exact Ht.
    rewrite (list_lookup_insert_ne h _ (Scope.extra s)) by exact Hte.
    destruct (h !! Scope.extra s) as [[de | |] |] eqn:Ee;
      try (destruct (Scope.user s) as [u |]; [destruct (h !! u) as [[] |] |];
           discriminate).
    destruct (decide (Scope.tags s = Scope.breadcrumbs s)) as [Heq | Hne].
    { rewrite <- Heq, Et in Hs.
      destruct (Scope.user s) as [u |]; [destruct (h !! u) as [[] |] |];
        discriminate. }
    rewrite (list_lookup_insert_ne h _ (Scope.breadcrumbs s)) by exact Hne.
    destruct (h !! Scope.breadcrumbs s) as [[| lb |] |] eqn:Eb;
      try (destruct (Scope.user s) as [u |]; [destruct (h !! u) as [[] |] |];
           discriminate).
    assert (Hfp : forall f, Scope.fingerprint s = Some f ->
              is_Some (read_list h f) -> Scope.tags s <> f).
    { intros f _ [x Hx] <-. unfold read_list in Hx. now rewrite Et in Hx. }
    destruct (Scope.user s) as [u |] eqn:Hu.
    - rewrite (list_lookup_insert_ne h _ u) by congruence.
      destruct (h !! u) as [[du | |] |] eqn:Eu; try discriminate.
      cbn [fmap option_fmap option_map mbind option_bind] in Hs |- *.
      destruct (Scope.fingerprint s) as [f |] eqn:Hf.
      + destruct (decide (Scope.tags s = f)) as [<- | Hnf].
        { rewrite Et in Hs. discriminate. }
        rewrite (list_lookup_insert_ne h _ f) by exact Hnf.
        destruct (h !! f) as [[| lf |] |]; try discriminate.
        cbn in Hs |- *. injection Hs as <-. now split.
      + cbn in Hs |- *. injection Hs as <-. now split.
    - cbn [fmap option_fmap option_map mbind option_bind] in Hs |- *.
      destruct (Scope.fingerprint s) as [f |] eqn:Hf.
      + destruct (decide (Scope.tags s = f)) as [<- | Hnf].
        { rewrite Et in Hs. discriminate. }
        rewrite (list_lookup_insert_ne h _ f) by exact Hnf.
        destruct (h !! f) as [[| lf |] |]; try discriminate.
        cbn in Hs |- *. injection Hs as <-. now split.
      + cbn in Hs |- *. injection Hs as <-. now split. }
  destruct Hsnap as [-> Hsnap]. split; [exact Hsnap |]. split.
  - intros k. rewrite lookup_union, lookup_fmap.
    destruct (new !! k), (dt !! k); reflexivity.
  - intros k v. rewrite map_fmap_singleton, insert_union_singleton_l. reflexivity.
Qed.

Lemma set_tags_updates_witness :
  let s := Scope.mkScope None 0 1 2 None 5 in
  let h := [Scope.Dict {["env" := Scope.VStr "dev"]}; Scope.Dict ∅; Scope.List []] in
  exists h',
    Scope.set_tags s {["env" := "prod"]} h = inr (s, h') /\
    snap_tags <$> snapshot h' s = Some {["env" := Scope.VStr "prod"]}.
Proof.
  intros s h.
  destruct (set_tags_updates s {["env" := "prod"]} h
              (mkSnapshot None {["env" := Scope.VStr "dev"]} ∅ [] None 5))
    as (h' & Hrun & Hsnap & _ & _); [reflexivity | discriminate | discriminate |].
  exists h'. split; [exact Hrun |]. rewrite Hsnap. reflexivity.
Defined.

(** ** Traced functions *)

(** [span.end(); tracer.on_span_end(span)] on a recording span. *)
Lemma end_span_recording st h s now :
  Tracer.heap st !! h = Some (Span.Impl s) ->
  Span._recording s = true ->
  registry_live st ->
  exists st',
    Tracer.end_span st h now = Some (st', task_error st) /\
    Tracer.heap st' = <[h := Span.Impl (Span.end_ s now)]> (Tracer.heap st) /\
    Tracer._active_spans st' = delete (Span._span_id s) (Tracer._active_spans st) /\
    Tracer._finished_spans st'
    = Tracer._finished_spans st
        ++ [Tracer.to_dict (Span.to_telemetry_span (Span.end_ s now)
                              (Tracer.service_id st) (Tracer.deployment_id st))] /\
    Tracer.loop_running st' = Tracer.loop_running st.
Proof.
  intros Hh Hrec Hlive.
  destruct (end_keeps_ids s now) as (Hid & Hpid & _).
  unfold Tracer.end_span, Tracer.call_span. rewrite Hh.
  unfold Tracer.on_span_end.
  cbn [Tracer.heap Tracer.with_heap Tracer._active_spans Tracer.with_active_spans
       Span.invoke_object Span.invoke].
  rewrite list_lookup_insert_eq by (apply lookup_lt_Some in Hh; exact Hh).
  cbn [Span.object_span_id Span.object_parent_span_id]. rewrite Hid, Hpid.
  assert (Hdone : forall ctx,
    exists st',
      match
        (let st0 :=
           Tracer.set_current_context
             (Tracer.with_active_spans
                (Tracer.with_heap st
                   (<[h := Span.Impl (Span.end_ s now)]> (Tracer.heap st)))
                (delete (Span._span_id s) (Tracer._active_spans st))) ctx in
         let telemetry_span :=
           Span.to_telemetry_span (Span.end_ s now) (Tracer.service_id st0)
             (Tracer.deployment_id st0) in
         let q := Tracer._finished_spans st0 ++ [Tracer.to_dict telemetry_span] in
         if (100 <=? length q)%nat
         then if Tracer.loop_running st0
              then Some (Tracer.with_finished st0 q (S (Tracer.flush_tasks st0)), None)
              else Some (Tracer.with_finished st0 q (Tracer.flush_tasks st0),
                         Some Py.RuntimeError)
         else Some (Tracer.with_finished st0 q (Tracer.flush_tasks st0), None))
      with
      | Some r => Some r
      | None => None
      end = Some (st', task_error st) /\
      Tracer.heap st' = <[h := Span.Impl (Span.end_ s now)]> (Tracer.heap st) /\
      Tracer._active_spans st' = delete (Span._span_id s) (Tracer._active_spans st) /\
      Tracer._finished_spans st'
      = Tracer._finished_spans st
          ++ [Tracer.to_dict (Span.to_telemetry_span (Span.end_ s now)
                                (Tracer.service_id st) (Tracer.deployment_id st))] /\
      Tracer.loop_running st' = Tracer.loop_running st).
  { intros ctx. cbv zeta.
    cbn [Tracer._finished_spans Tracer.set_current_context
         Tracer.with_active_spans Tracer.with_heap Tracer.loop_running
         Tracer.service_id Tracer.deployment_id Tracer.flush_tasks].
    rewrite length_app. cbn [length]. unfold task_error.
    replace (length (Tracer._finished_spans st) + 1)%nat
      with (S (length (Tracer._finished_spans st))) by lia.
    destruct (100 <=? S (length (Tracer._finished_spans st)))%nat;
      [destruct (Tracer.loop_running st) eqn:Hl |];
      (eexists; split; [reflexivity |]; cbn; auto 10). }
  destruct (Context.truthy (Span._parent_span_id s)).
  - destruct (delete (Span._span_id s) (Tracer._active_spans st)
              !! default "" (Span._parent_span_id s)) as [ph |] eqn:Hph.
    + assert (Hlt : (ph < length (Tracer.heap st))%nat).
      { apply lookup_delete_Some in Hph as [_ Hph].
        destruct (Hlive _ _ Hph) as [o Ho]. now apply lookup_lt_Some in Ho. }
      destruct (lookup_lt_is_Some_2
                  (<[h := Span.Impl (Span.end_ s now)]> (Tracer.heap st)) ph)
        as [o Ho]; [now rewrite length_insert |].
      rewrite Ho. cbn [option_map].
      destruct (Hdone (Some (Span.object_span_context o))) as (st' & H1 & H2).
      exists st'. split; [| exact H2]. revert H1. cbv zeta.
      now destruct (100 <=? _)%nat; [destruct (Tracer.loop_running _) |].
    + destruct (Hdone None) as (st' & H1 & H2).
      exists st'. split; [| exact H2]. revert H1. cbv zeta.
      now destruct (100 <=? _)%nat; [destruct (Tracer.loop_running _) |].
  - destruct (Hdone None) as (st' & H1 & H2).
    exists st'. split; [| exact H2]. revert H1. cbv zeta.
    now destruct (100 <=? _)%nat; [destruct (Tracer.loop_running _) |].
Qed.

Lemma call_span_noop st h n c :
  Tracer.heap st !! h = Some (Span.Noop n) ->
  exists st',
    Tracer.call_span st h c = Some st' /\
    Tracer.heap st' !! h = Some (Span.Noop n) /\
    Tracer._finished_spans st' = Tracer._finished_spans st.
Proof.
  intros Hh. unfold Tracer.call_span. rewrite Hh. eexists.
  split; [reflexivity |]. cbn. split; [| reflexivity].
  apply list_lookup_insert_eq. now apply lookup_lt_Some in Hh.
Qed.

(** [span.end(); tracer.on_span_end(span)] on a [NoopSpan]. *)
Lemma end_span_noop st h n now :
  Tracer.heap st !! h = Some (Span.Noop n) ->
  exists st',
    Tracer.end_span st h now = Some (st', Some Py.AttributeError) /\
    Tracer._current_context st' = None /\
    Tracer._finished_spans st' = Tracer._finished_spans st.
Proof.
  intros Hh. unfold Tracer.end_span.
  destruct (call_span_noop st h n (Span.End now) Hh) as (st1 & -> & Hh1 & Hf1).
  unfold Tracer.on_span_end. rewrite Hh1. cbn. eexists.
  split; [reflexivity |]. cbn. auto.
Qed.

(** X23: a function decorated with [trace] that is called while the tracer
    does not sample never gives its result to the caller: the [finally]
    block hands the [NoopSpan] to [Tracer.on_span_end], which asks it for
    [to_telemetry_span], and the [AttributeError] replaces the result or
    the exception of the function.  The ambient context has been reset by
    then, and no span record is queued. *)
Theorem traced_unsampled_raises {R} st e u name func_name op kind attributes
    (func : Tracer.State -> Tracer.State * Decorators.outcome R) now :
  Tracer._should_sample st u = false ->
  (forall s, Tracer.heap (func s).1 !! length (Tracer.heap st)
             = Tracer.heap s !! length (Tracer.heap st)) ->
  exists st',
    Decorators.sync_wrapper st e u name func_name op kind attributes func now
    = Some (st', inl Py.AttributeError) /\
    Tracer._current_context st' = None.
Proof.
  intros Hs Hfunc. unfold Decorators.sync_wrapper, Tracer.start_span.
  rewrite Hs. cbn [negb].
  set (st1 := Tracer.with_heap st _).
  specialize (Hfunc st1). destruct (func st1) as [st2 out]. cbn [fst] in Hfunc.
  assert (Hh : Tracer.heap st2 !! length (Tracer.heap st)
               = Some (Span.Noop (Span.NoopSpan_init e None))).
  { rewrite Hfunc. subst st1. cbn. now apply list_lookup_middle. }
  assert (Hend : forall st3,
            Tracer.heap st3 !! length (Tracer.heap st)
            = Some (Span.Noop (Span.NoopSpan_init e None)) ->
            exists st',
              match Tracer.end_span st3 (length (Tracer.heap st)) now with
              | Some (st4, Some ex) => Some (st4, @inl Py.exn R ex)
              | Some (st4, None) =>
                  Some (st4, match out with
                             | Decorators.Returned r => inr r
                             | Decorators.Raised msg => inl (Py.Exception msg)
                             | Decorators.Escaped msg => inl (Py.BaseException msg)
                             end)
              | None => None
              end = Some (st', inl Py.AttributeError) /\
              Tracer._current_context st' = None).
  { intros st3 H3. destruct (end_span_noop st3 _ _ now H3) as (st' & -> & Hc & _).
    exists st'. auto. }
  destruct out as [r | msg | msg].
  - destruct (call_span_noop st2 _ _ (Span.SetStatus Types.OK None) Hh)
      as (st3 & -> & H3 & _). now apply Hend.
  - destruct (call_span_noop st2 _ _ (Span.SetStatus Types.ERROR (Some msg)) Hh)
      as (st3 & -> & H3 & _). now apply Hend.
  - now apply Hend.
Qed.

Lemma traced_unsampled_raises_witness :
  exists st',
    Decorators.sync_wrapper (Tracer.init "svc" "dep" (Py.Finite 0) None true)
      (Span.mkEntropy "0af7651916cd43dd8448eb211c80319c" "00000000000000b2" 0)
      0%Q None "get_user" None Types.INTERNAL None
      (fun s => (s, Decorators.Returned 7)) 10
    = Some (st', inl Py.AttributeError).
Proof.
  destruct (traced_unsampled_raises
              (Tracer.init "svc" "dep" (Py.Finite 0) None true)
              (Span.mkEntropy "0af7651916cd43dd8448eb211c80319c" "00000000000000b2" 0)
              0%Q None "get_user" None Types.INTERNAL None
              (fun s => (s, Decorators.Returned 7)) 10)
    as (st' & H & _); [reflexivity | reflexivity |].
  exists st'. exact H.
Defined.

Lemma traced_function_run {R} st e u name func_name op kind attributes
    (out : Decorators.outcome R) now :
  Tracer._should_sample st u = true ->
  registry_live st ->
  exists st' s,
    Decorators.sync_wrapper st e u name func_name op kind attributes
      (fun s => (s, out)) now
    = Some (st', match task_error st with
                 | Some ex => inl ex
                 | None => propagated out
                 end) /\
    Tracer.heap st' !! length (Tracer.heap st) = Some (Span.Impl s) /\
    Span.is_recording s = false /\
    Span._end_time_ns s = Some now /\
    Span._status s = status_after out /\
    Span._name s = default func_name (Context.or_else name None) /\
    Span._attributes s !! "syntra.op"
    = Some (Types.VStr (default "function" (Context.or_else op None))) /\
    Tracer._active_spans st' !! Span.rand_span_id e = None /\
    Tracer._finished_spans st'
    = Tracer._finished_spans st
        ++ [Tracer.to_dict (Span.to_telemetry_span s (Tracer.service_id st)
                              (Tracer.deployment_id st))] /\
    Tracer.loop_running st' = Tracer.loop_running st.
Proof.
  intros Hs Hlive. unfold Decorators.sync_wrapper, Tracer.start_span.
  rewrite Hs. cbn [negb]. cbv zeta.
  set (span_name := if Context.truthy name then default func_name name else func_name).
  set (op' := if Context.truthy op then op else Some "function").
  assert (Hop : Context.truthy op' = true).
  { subst op'. destruct (Context.truthy op) eqn:E; [exact E | reflexivity]. }
  rewrite Hop.
  set (s0 := Span.SpanImpl_init e span_name kind _ _ attributes).
  set (s1 := Span.set_attribute s0 "syntra.op" (Types.VStr (default "" op'))).
  set (h := length (Tracer.heap st)).
  assert (Hs1 : Span._recording s1 = true /\ Span._span_id s1 = Span.rand_span_id e /\
                Span._name s1 = span_name /\
                Span._attributes s1 !! "syntra.op" = Some (Types.VStr (default "" op')) /\
                Span._status s1 = Types.default_status).
  { subst s1 s0. cbn. repeat split. apply lookup_insert_eq. }
  destruct Hs1 as (Hrec1 & Hid1 & Hname1 & Hattr1 & Hstat1).
  set (st1 := Tracer.set_current_context _ (Some (Span.span_context s1))).
  assert (Hh1 : Tracer.heap st1 = Tracer.heap st ++ [Span.Impl s1]) by reflexivity.
  assert (Hreg1 : Tracer._active_spans st1
                  = <[Span._span_id s1 := h]> (Tracer._active_spans st)) by reflexivity.
  assert (Hfin1 : Tracer._finished_spans st1 = Tracer._finished_spans st) by reflexivity.
  assert (Hloop1 : Tracer.loop_running st1 = Tracer.loop_running st) by reflexivity.
  assert (Hsid1 : Tracer.service_id st1 = Tracer.service_id st) by reflexivity.
  assert (Hdid1 : Tracer.deployment_id st1 = Tracer.deployment_id st) by reflexivity.
  clearbody st1.
  (* the state after the status is set *)
  assert (Hst2 : exists st2 s2,
    match out with
    | Decorators.Returned _ => Tracer.call_span st1 h (Span.SetStatus Types.OK None)
    | Decorators.Raised msg =>
        Tracer.call_span st1 h (Span.SetStatus Types.ERROR (Some msg))
    | Decorators.Escaped _ => Some st1
    end = Some st2 /\
    Tracer.heap st2 = Tracer.heap st ++ [Span.Impl s2] /\
    Tracer._active_spans st2 = Tracer._active_spans st1 /\
    Tracer._finished_spans st2 = Tracer._finished_spans st1 /\
    Tracer.loop_running st2 = Tracer.loop_running st1 /\
    Tracer.service_id st2 = Tracer.service_id st1 /\
    Tracer.deployment_id st2 = Tracer.deployment_id st1 /\
    Span._recording s2 = true /\ Span._span_id s2 = Span._span_id s1 /\
    Span._name s2 = Span._name s1 /\ Span._attributes s2 = Span._attributes s1 /\
    Span._status s2 = status_after out).
  { assert (Hlook : Tracer.heap st1 !! h = Some (Span.Impl s1))
      by (rewrite Hh1; now apply list_lookup_middle).
    assert (Hins : forall x, <[h := x]> (Tracer.heap st1) = Tracer.heap st ++ [x]).
    { intros x. rewrite Hh1. subst h.
      rewrite insert_app_r_alt by lia. now rewrite Nat.sub_diag. }
    assert (Hset : forall code message,
              let s2 := Span.set_status s1 code message in
              Span._recording s2 = true /\ Span._span_id s2 = Span._span_id s1 /\
              Span._name s2 = Span._name s1 /\
              Span._attributes s2 = Span._attributes s1 /\
              Span._status s2 = Types.mkSpanStatus code message).
    { intros code message. unfold Span.set_status. rewrite Hrec1. cbn. auto. }
    destruct out as [r | msg | msg].
    - unfold Tracer.call_span. rewrite Hlook.
      eexists _, (Span.set_status s1 Types.OK None).
      split; [reflexivity |]. cbn [Tracer.heap Tracer.with_heap
        Tracer._active_spans Tracer._finished_spans Tracer.loop_running
        Tracer.service_id Tracer.deployment_id Span.invoke_object Span.invoke].
      rewrite Hins. destruct (Hset Types.OK None) as (? & ? & ? & ? & ?).
      auto 12.
    - unfold Tracer.call_span. rewrite Hlook.
      eexists _, (Span.set_status s1 Types.ERROR (Some msg)).
      split; [reflexivity |]. cbn [Tracer.heap Tracer.with_heap
        Tracer._active_spans Tracer._finished_spans Tracer.loop_running
        Tracer.service_id Tracer.deployment_id Span.invoke_object Span.invoke].
      rewrite Hins. destruct (Hset Types.ERROR (Some msg)) as (? & ? & ? & ? & ?).
      auto 12.
    - exists st1, s1. cbn. auto 12. }
  destruct Hst2 as (st2 & s2 & -> & Hh2 & Hreg2 & Hfin2 & Hloop2 & Hsid2 & Hdid2
                    & Hrec2 & Hid2 & Hname2 & Hattr2 & Hstat2).
  assert (Htask : task_error st2 = task_error st)
    by (unfold task_error; now rewrite Hloop2, Hloop1, Hfin2, Hfin1).
  destruct (end_span_recording st2 h s2 now)
    as (st3 & -> & Hh3 & Hreg3 & Hfin3 & Hloop3).
  - rewrite Hh2. now apply list_lookup_middle.
  - exact Hrec2.
  - intros k ph Hk. rewrite Hreg2, Hreg1 in Hk. rewrite Hh2.
    apply lookup_lt_is_Some_2. rewrite length_app. cbn.
    apply lookup_insert_Some in Hk as [[_ <-] | [_ Hk]]; [subst h; lia |].
    destruct (Hlive _ _ Hk) as [o Ho]. apply lookup_lt_Some in Ho. lia.
  - exists st3, (Span.end_ s2 now). rewrite Htask.
    split; [destruct (task_error st); now destruct out |].
    assert (Hend : Span.end_ s2 now
                   = Span.mkSpanImpl (Span._name s2) (Span._kind s2)
                       (Span._trace_id s2) (Span._span_id s2)
                       (Span._parent_span_id s2) (Span._start_time_ns s2)
                       (Some now) (Span._status s2) (Span._attributes s2)
                       (Span._events s2) false).
    { unfold Span.end_. now rewrite Hrec2. }
    split.
    { rewrite Hh3, Hh2. subst h. rewrite insert_app_r_alt by lia.
      rewrite Nat.sub_diag. now apply list_lookup_middle. }
    rewrite Hend at 1 2 3 4 5. cbn.
    split; [reflexivity |]. split; [reflexivity |]. split; [exact Hstat2 |].
    split.
    { rewrite Hname2, Hname1. subst span_name. unfold Context.or_else.
      now destruct (Context.truthy name). }
    split.
    { rewrite Hattr2, Hattr1. subst op'. unfold Context.or_else.
      destruct (Context.truthy op) eqn:E; [| reflexivity].
      destruct op; [reflexivity | discriminate]. }
    split.
    { rewrite Hreg3, Hid2, Hid1. apply lookup_delete_eq. }
    split; [| congruence].
    rewrite Hfin3, Hfin2, Hfin1, Hsid2, Hsid1, Hdid2, Hdid1. reflexivity.
Qed.




(** X29: in a program without a running event loop, once 99 finished
    spans are queued, a traced function never gives its result to the
    caller: ending its span queues the record and then asks for a flush
    task, and the [RuntimeError] of [asyncio.create_task] leaves the
    [finally] block.  The queue has grown by one record, so the same holds
    for every later call. *)
Theorem traced_without_loop_raises {R} st e u name func_name op kind attributes
    (out : Decorators.outcome R) now :
  Tracer._should_sample st u = true -> registry_live st ->
  Tracer.loop_running st = false ->
  (99 <= length (Tracer._finished_spans st))%nat ->
  exists st',
    Decorators.sync_wrapper st e u name func_name op kind attributes
      (fun s => (s, out)) now
    = Some (st', inl Py.RuntimeError) /\
    length (Tracer._finished_spans st') = S (length (Tracer._finished_spans st)) /\
    Tracer.loop_running st' = false /\
    Tracer._active_spans st' !! Span.rand_span_id e = None.
Proof.
  intros Hs Hlive Hloop Hlen.
  destruct (traced_function_run st e u name func_name op kind attributes out now
              Hs Hlive)
    as (st' & s & Hrun & _ & _ & _ & _ & _ & _ & Hreg & Hfin & Hloop').
  exists st'. split.
  - rewrite Hrun. unfold task_error. rewrite Hloop.
    now destruct (Nat.leb_spec 100 (S (length (Tracer._finished_spans st))));
      [| lia].
  - rewrite Hfin, length_app. cbn. split; [lia |]. split; [congruence | exact Hreg].
Qed.

Lemma traced_without_loop_raises_witness :
  let st := Tracer.mkState "svc" "dep" (Py.Finite 1) ∅
              (replicate 99
                 (Tracer.to_dict
                    (Span.to_telemetry_span
                       (Span.SpanImpl_init (Span.mkEntropy "t" "s" 0) "old"
                          Types.INTERNAL None None None) "svc" "dep")))
              O [] None false in
  exists st',
    Decorators.sync_wrapper st
      (Span.mkEntropy "0af7651916cd43dd8448eb211c80319c" "00000000000000b2" 0)
      0%Q None "get_user" None Types.INTERNAL None
      (fun s => (s, Decorators.Returned 7)) 10
    = Some (st', inl Py.RuntimeError).
Proof.
  intros st.
  destruct (traced_without_loop_raises st
              (Span.mkEntropy "0af7651916cd43dd8448eb211c80319c" "00000000000000b2" 0)
              0%Q None "get_user" None Types.INTERNAL None
              (Decorators.Returned 7) 10)
    as (st' & H & _).
  - reflexivity.
  - intros k ph Hk. cbn in Hk. now rewrite lookup_empty in Hk.
  - reflexivity.
  - subst st. cbn [Tracer._finished_spans]. rewrite length_replicate. lia.
  - exists st'. exact H.
Defined.

(** ** The logging handler *)

(** X25: [_map_level] is monotone in the level number: a record of a
    higher level never gets a lower log level.  [_map_breadcrumb_level]
    has no test for [logging.INFO]: it gives the breadcrumb level INFO
    exactly to the records below [logging.DEBUG], and DEBUG to every record
    from [logging.DEBUG] up to, and not including, [logging.WARNING]. *)
Theorem logging_level_maps :
  (forall n1 n2, n1 <= n2 ->
     LogLevel_rank (LoggingHandler._map_level n1)
     <= LogLevel_rank (LoggingHandler._map_level n2)) /\
  (forall n, LoggingHandler._map_breadcrumb_level n = BreadcrumbLevel.INFO
             <-> n < LoggingHandler.DEBUG) /\
  (forall n, LoggingHandler._map_breadcrumb_level n = BreadcrumbLevel.DEBUG
             <-> LoggingHandler.DEBUG <= n < LoggingHandler.WARNING).
Proof.
  unfold LoggingHandler._map_level, LoggingHandler._map_breadcrumb_level,
    LoggingHandler.CRITICAL, LoggingHandler.ERROR, LoggingHandler.WARNING,
    LoggingHandler.INFO, LoggingHandler.DEBUG.
  split; [| split].
  - intros n1 n2 H.
    repeat match goal with
           | |- context [Z.leb ?a ?b] => destruct (Z.leb_spec a b)
           end; cbn; lia.
  - intros n.
    repeat match goal with
           | |- context [Z.leb ?a ?b] => destruct (Z.leb_spec a b)
           end; split; intros; try discriminate; try lia; reflexivity.
  - intros n.
    repeat match goal with
           | |- context [Z.leb ?a ?b] => destruct (Z.leb_spec a b)
           end; split; intros; try discriminate; try lia; reflexivity.
Qed.

(** ** The exception hook *)

(** X26: starting with another hook installed and nothing saved, every
    sequence of [install_excepthook] and [uninstall_excepthook] calls ends
    in one of two states: after an install the hook of this module is in
    place and the other hook is saved; after an uninstall, or no call, the
    other hook is back and nothing is saved.  So installing twice is
    installing once, and uninstalling undoes an install. *)
Theorem excepthook_install_uninstall {H} (h : H) (cs : list hook_call) :
  fold_left hook_invoke cs (Excepthook.mkState (Excepthook.other h) None)
  = match last cs with
    | Some Install =>
        Excepthook.mkState Excepthook.syntra_excepthook (Some (Excepthook.other h))
    | _ => Excepthook.mkState (Excepthook.other h) None
    end.
Proof.
  induction cs as [| c cs IH] using rev_ind; [reflexivity |].
  rewrite fold_left_app, last_snoc. cbn [fold_left]. rewrite IH.
  destruct (last cs) as [[] |], c; reflexivity.
Qed.

(** ** The ingest URL *)

Lemma scheme_differs (a b : string) :
  "http" +:+ "://" +:+ a <> "https" +:+ "://" +:+ b.
Proof. intros H. cbv in H. discriminate H. Qed.

(** X27: the URL that the client posts to is built from the host of the
    parsed DSN alone: [http] for a host that contains [localhost] or
    [127.0.0.1], [https] for any other, whatever the protocol of the DSN;
    a batch of kind [k] goes to [<url>/<k>].  [build_ingest_url] gives the
    same URL exactly when the DSN has the protocol [http] and a local host,
    or another protocol and a host that is not local. *)
Theorem http_url_from_host dsn p debug kind :
  Config.parse_dsn dsn = inr p ->
  Http.endpoint
    (Http.create_http_transport (Config.host p) (Config.public_key p)
       (Config.project_id p) debug) kind
  = (if local_host (Config.host p) then "http" else "https")
    +:+ "://" +:+ Config.host p +:+ "/api/v1/telemetry" +:+ "/" +:+ kind /\
  (Http.url (Http.create_http_transport (Config.host p) (Config.public_key p)
               (Config.project_id p) debug)
   = Config.build_ingest_url p
   <-> local_host (Config.host p) = String.eqb (Config.protocol p) "http").
Proof.
  intros Hp. destruct (parse_dsn_parts dsn p Hp) as [Hok _].
  apply dsn_parts_ok_spec in Hok as (Hpr & _).
  unfold Http.endpoint, Http.create_http_transport, Config.build_ingest_url,
    local_host. cbn [Http.url].
  split.
  - destruct (_ || _); now rewrite !string_app_assoc.
  - destruct Hpr as [-> | [-> | ->]]; cbn [String.eqb Ascii.eqb Bool.eqb];
      destruct (_ || _); split; intros H; try reflexivity; try discriminate;
      exfalso; first [now apply scheme_differs in H
                     | now apply eq_sym, scheme_differs in H].
Qed.

Lemma http_url_from_host_witness :
  Http.url (Http.create_http_transport "localhost:3000" "pk_x" "proj_y" false)
  = "http://localhost:3000/api/v1/telemetry" /\
  Config.build_ingest_url (Config.mkParsedDSN "syn" "pk_x" "localhost:3000" "proj_y")
  = "https://localhost:3000/api/v1/telemetry".
Proof.
  destruct (http_url_from_host "syn://pk_x@localhost:3000/proj_y"
              (Config.mkParsedDSN "syn" "pk_x" "localhost:3000" "proj_y")
              false "errors" eq_refl) as [_ _].
  split; reflexivity.
Defined.

(** ** A span as a context manager *)


